(** * Stack Exchange collector: a shallow embedding of [src/data/collector.py]

    The collector fetches questions carrying a tag, fetches the answers of
    each question, merges them into the question record and writes JSON
    checkpoints while it goes.  It runs either against the remote API
    ([StackAPI]) or against a generator of synthetic records.

    The embedding keeps the code's shape:
    - Python values that end up in JSON documents are an inductive [value];
      a [dict] is an association list in insertion order with unique keys;
    - a method is a computation in the monad [M]: it threads a [world]
      (random tape, clock, file system, the [StackAPI] object, the trace of
      input/output) and either returns or raises a Python exception; the
      world survives a raise, so a handler sees the effects done so far;
    - the remote service and the JSON encoder are parameters of the
      collector; a model of the encoder and decoder of the standard
      library is given for the round trip through a file;
    - [main] reads its settings from an environment and converts them
      with a reader of integers, both parameters as well. *)

From Stdlib Require Import ZArith List String Ascii Bool Lia Arith.
From Stdlib Require Import DecimalString Decimal DecimalNat.
From Stdlib Require DecimalPos DecimalZ.
Import ListNotations.

Local Open Scope string_scope.
Local Open Scope Z_scope.

Set Implicit Arguments.

(** ** Python values *)

#[warnings="-register-all"]
Inductive value : Type :=
| VNone
| VBool (b : bool)
| VInt (z : Z)
| VStr (s : string)
| VList (l : list value)
| VDict (d : list (string * value)).

Definition dict := list (string * value).

(** [d.get(k)] seen as an option. *)
Fixpoint dict_get (d : dict) (k : string) : option value :=
  match d with
  | [] => None
  | (k', v) :: d' => if String.eqb k k' then Some v else dict_get d' k
  end.

(** [d[k] = v]: an existing key keeps its position, a new key goes last. *)
Fixpoint dict_set (d : dict) (k : string) (v : value) : dict :=
  match d with
  | [] => [(k, v)]
  | (k', v') :: d' =>
      if String.eqb k k' then (k', v) :: d' else (k', v') :: dict_set d' k v
  end.

Definition dict_keys (d : dict) : list string := map fst d.

(** ** Exceptions *)

Inductive exn : Type :=
| StackAPIError (msg : string)
| KeyError (key : string)
| TypeError
| ValueError
| ZeroDivisionError
| AttributeError
| IndexError
| FileNotFoundError
| FileExistsError
| NotADirectoryError
| IsADirectoryError
| OtherException (msg : string).

Definition is_StackAPIError (e : exn) : bool :=
  match e with StackAPIError _ => true | _ => false end.

Inductive result (A : Type) : Type :=
| Ok (a : A)
| Raise (e : exn).
Arguments Ok {A} a.
Arguments Raise {A} e.

(** ** The world *)

(** A simplified file system: the set of directories and the regular files
    with their contents.  Paths are compared as written. *)
Record filesystem : Type := mkFs {
  dirs : list string;
  files : list (string * string)
}.

Definition empty_fs : filesystem := mkFs [] [].

(** The [StackAPI] client object; [max_pages] is assigned by the collector. *)
Record StackAPI : Type := mkStackAPI {
  api_site : string;
  api_key : option string;
  api_page_size : Z;
  api_max_pages : Z
}.

Inductive endpoint : Type :=
| Questions                      (* 'questions' *)
| AnswersOf (question_id : value).   (* f'questions/{question_id}/answers' *)

(** What one call of [api.fetch] sends: the endpoint, the keyword
    parameters, and the paging attributes of the client at that moment. *)
Record request : Type := mkRequest {
  req_endpoint : endpoint;
  req_params : dict;
  req_page_size : Z;
  req_max_pages : Z
}.

Inductive event : Type :=
| EvFetch (r : request)
| EvSleep (rate_limit : Z)                       (* time.sleep(1 / rate_limit) *)
| EvWrite (path : string) (content : string).

Record world : Type := mkWorld {
  tape : list N;            (* what the pseudo-random generator will draw *)
  clock : Z;                (* datetime.now().timestamp(), in seconds *)
  fs : filesystem;
  api : option StackAPI;    (* self.api; never assigned in mock mode *)
  trace : list event
}.

Definition set_tape (t : list N) (w : world) : world :=
  mkWorld t (clock w) (fs w) (api w) (trace w).
Definition set_fs (f : filesystem) (w : world) : world :=
  mkWorld (tape w) (clock w) f (api w) (trace w).
Definition set_api (a : option StackAPI) (w : world) : world :=
  mkWorld (tape w) (clock w) (fs w) a (trace w).
Definition emit (e : event) (w : world) : world :=
  mkWorld (tape w) (clock w) (fs w) (api w) (trace w ++ [e])%list.

(** ** The monad of methods *)

Definition M (A : Type) : Type := world -> result A * world.

Definition ret {A} (a : A) : M A := fun w => (Ok a, w).

Definition raise {A} (e : exn) : M A := fun w => (Raise e, w).

Definition bind {A B} (m : M A) (k : A -> M B) : M B :=
  fun w =>
    match m w with
    | (Ok a, w') => k a w'
    | (Raise e, w') => (Raise e, w')
    end.

(** [try: m  except <catches>: handler]; an exception the clause does not
    name goes on to the caller. *)
Definition try_except {A} (m : M A) (catches : exn -> bool) (handler : exn -> M A)
  : M A :=
  fun w =>
    match m w with
    | (Ok a, w') => (Ok a, w')
    | (Raise e, w') => if catches e then handler e w' else (Raise e, w')
    end.

Declare Scope monad_scope.
Delimit Scope monad_scope with monad.
Notation "x <- m ;; k" := (bind m (fun x => k))
  (at level 61, m at next level, right associativity) : monad_scope.
Notation "m ;;; k" := (bind m (fun _ => k))
  (at level 61, right associativity) : monad_scope.
Local Open Scope monad_scope.

(** A [for] loop that appends one record per element. *)
Fixpoint for_each {A B} (f : A -> M B) (l : list A) : M (list B) :=
  match l with
  | [] => ret []
  | x :: l' => y <- f x ;; ys <- for_each f l' ;; ret (y :: ys)
  end.

(** ** Strings *)

Definition sep : ascii := "/"%char.

(** [str(n)] for an integer. *)
Definition str_of_Z (z : Z) : string := NilZero.string_of_int (Z.to_int z).

Definition lower_ascii (c : ascii) : ascii :=
  let n := nat_of_ascii c in
  if (Nat.leb 65 n && Nat.leb n 90)%bool then ascii_of_nat (n + 32) else c.

(** [s.lower()] on the ASCII letters; the library names it is applied to
    are ASCII. *)
Fixpoint lower (s : string) : string :=
  match s with
  | EmptyString => EmptyString
  | String c r => String (lower_ascii c) (lower r)
  end.

Fixpoint has_sep (p : string) : bool :=
  match p with
  | EmptyString => false
  | String c r => if Ascii.eqb c sep then true else has_sep r
  end.

Fixpoint all_sep (p : string) : bool :=
  match p with
  | EmptyString => true
  | String c r => if Ascii.eqb c sep then all_sep r else false
  end.

(** [p[:p.rfind('/') + 1]] *)
Fixpoint head_to_last_sep (p : string) : string :=
  match p with
  | EmptyString => EmptyString
  | String c r =>
      if has_sep (String c r) then String c (head_to_last_sep r) else EmptyString
  end.

(** [s.rstrip('/')] *)
Fixpoint rstrip_sep (s : string) : string :=
  match s with
  | EmptyString => EmptyString
  | String c r =>
      match rstrip_sep r with
      | EmptyString => if Ascii.eqb c sep then EmptyString else String c EmptyString
      | r' => String c r'
      end
  end.

Definition is_empty (s : string) : bool :=
  match s with EmptyString => true | _ => false end.

(** [os.path.dirname] of [posixpath]:
    head = p[:i]; if head and head != sep*len(head): head = head.rstrip(sep) *)
Definition os_path_dirname (p : string) : string :=
  let head := head_to_last_sep p in
  if (negb (is_empty head) && negb (all_sep head))%bool then rstrip_sep head
  else head.

Fixpoint ends_with_sep (p : string) : bool :=
  match p with
  | EmptyString => false
  | String c EmptyString => Ascii.eqb c sep
  | String _ r => ends_with_sep r
  end.

(** ** The operating system *)

Definition is_file (f : filesystem) (p : string) : bool :=
  existsb (String.eqb p) (map fst (files f)).

Definition is_dir (f : filesystem) (p : string) : bool :=
  existsb (String.eqb p) (dirs f).

Fixpoint read_file (l : list (string * string)) (p : string) : option string :=
  match l with
  | [] => None
  | (q, c) :: l' => if String.eqb p q then Some c else read_file l' p
  end.

(** Opening with mode "w" creates the file or replaces its content.
    A file is named by its path as written: two spellings of one path
    count as two names. *)
Fixpoint put_file (l : list (string * string)) (p c : string)
  : list (string * string) :=
  match l with
  | [] => [(p, c)]
  | (q, c') :: l' =>
      if String.eqb p q then (q, c) :: l' else (q, c') :: put_file l' p c
  end.

(** The path cut before each separator, then the path itself. *)
Fixpoint path_prefixes (acc p : string) : list string :=
  match p with
  | EmptyString => [acc]
  | String c r =>
      if Ascii.eqb c sep
      then acc :: path_prefixes (acc ++ String c EmptyString) r
      else path_prefixes (acc ++ String c EmptyString) r
  end.

Definition ancestors (name : string) : list string :=
  filter (fun s => negb (is_empty s)) (path_prefixes EmptyString name).

Definition add_dir (ds : list string) (d : string) : list string :=
  if existsb (String.eqb d) ds then ds else (ds ++ [d])%list.

(** [os.makedirs(name, exist_ok=True)].  The empty name is refused (mkdir
    of the empty path fails and the empty path is no directory); a regular
    file in the way is an error; otherwise the directory and every missing
    parent exist afterwards. *)
Definition os_makedirs (name : string) : M unit :=
  fun w =>
    let f := fs w in
    if is_empty name then (Raise FileNotFoundError, w)
    else if is_file f name then (Raise FileExistsError, w)
    else if existsb (is_file f) (ancestors name) then (Raise NotADirectoryError, w)
    else (Ok tt, set_fs (mkFs (fold_left add_dir (ancestors name) (dirs f)) (files f)) w).

(** [with open(path, "w", encoding="utf-8") as f: f.write(content)].
    A relative path without a directory is created in the working
    directory, which always exists. *)
Definition open_write (path content : string) : M unit :=
  fun w =>
    let f := fs w in
    let d := os_path_dirname path in
    if is_empty path then (Raise FileNotFoundError, w)
    else if (ends_with_sep path || is_dir f path)%bool then (Raise IsADirectoryError, w)
    else if (negb (is_empty d) && negb (is_dir f d))%bool then (Raise FileNotFoundError, w)
    else (Ok tt, emit (EvWrite path content)
                      (set_fs (mkFs (dirs f) (put_file (files f) path content)) w)).

(** [time.sleep(1 / rate_limit)] *)
Definition time_sleep_inverse (rate_limit : Z) : M unit :=
  if rate_limit =? 0 then raise ZeroDivisionError
  else if rate_limit <? 0 then raise ValueError
  else fun w => (Ok tt, emit (EvSleep rate_limit) w).

(** [int(datetime.now().timestamp())].  The clock of the world stands
    still during a run; no property of this file says how far two
    readings of the clock are apart. *)
Definition now_timestamp : M Z := fun w => (Ok (clock w), w).

(** ** The pseudo-random generator

    Every draw takes the next number of the tape; an exhausted tape keeps
    giving 0.  Each sequence of outcomes the generator can produce is the
    behaviour of some tape. *)

Definition draw : M N :=
  fun w =>
    match tape w with
    | [] => (Ok 0%N, w)
    | n :: t => (Ok n, set_tape t w)
    end.

(** [random.randint(a, b)] *)
Definition randint (a b : Z) : M Z :=
  if b <? a then raise ValueError
  else n <- draw ;; ret (a + Z.of_N n mod (b - a + 1)).

(** [random.choice(seq)] *)
Definition choice (l : list string) : M string :=
  match l with
  | [] => raise IndexError
  | x :: _ => n <- draw ;; ret (nth (N.to_nat n mod List.length l) l x)
  end.

Fixpoint remove_nth {A} (i : nat) (l : list A) : list A :=
  match l, i with
  | [], _ => []
  | _ :: l', O => l'
  | x :: l', S i' => x :: remove_nth i' l'
  end.

Fixpoint sample_loop (population : list string) (k : nat) : M (list string) :=
  match k with
  | O => ret []
  | S k' =>
      match population with
      | [] => raise ValueError
      | x :: _ =>
          n <- draw ;;
          let i := (N.to_nat n mod List.length population)%nat in
          rest <- sample_loop (remove_nth i population) k' ;;
          ret (nth i population x :: rest)
      end
  end.

(** [random.sample(population, k)]: [k] distinct positions. *)
Definition sample (population : list string) (k : Z) : M (list string) :=
  if ((k <? 0) || (Z.of_nat (List.length population) <? k))%bool then raise ValueError
  else sample_loop population (Z.to_nat k).

(** [range(a, b)] *)
Definition range (a b : Z) : list Z :=
  map (fun n => a + Z.of_nat n) (seq 0 (Z.to_nat (b - a))).

(** ** Subscripts and integer arithmetic on values *)

(** [v[k]] for a string key. *)
Definition getitem (v : value) (k : string) : M value :=
  match v with
  | VDict d =>
      match dict_get d k with
      | Some x => ret x
      | None => raise (KeyError k)
      end
  | _ => raise TypeError
  end.

(** [v[k] = x] for a string key. *)
Definition setitem (v : value) (k : string) (x : value) : M value :=
  match v with
  | VDict d => ret (VDict (dict_set d k x))
  | _ => raise TypeError
  end.

(** [v * 100 + i] for an integer [i].  A [bool] counts as 0 or 1; every
    other operand ends in a [TypeError] (a string or a list is repeated by
    [*] and then refuses [+ i]). *)
Definition times_100_plus (v : value) (i : Z) : M Z :=
  match v with
  | VInt q => ret (q * 100 + i)
  | VBool b => ret ((if b then 1 else 0) * 100 + i)
  | _ => raise TypeError
  end.

(** [l[:n]] *)
Definition slice_to {A} (l : list A) (n : Z) : list A :=
  if 0 <=? n then firstn (Z.to_nat n) l
  else firstn (List.length l - Z.to_nat (- n)) l.

(** [a // b] *)
Definition floordiv (a b : Z) : M Z :=
  if b =? 0 then raise ZeroDivisionError else ret (a / b).

(** ** The mock generator *)

Definition nl : string := String (ascii_of_nat 10) EmptyString.

Definition nlp_topics : list string :=
  ["tokenization"; "word embeddings"; "named entity recognition";
   "sentiment analysis"; "text classification"; "machine translation";
   "question answering"; "summarization"; "speech recognition"; "BERT"].

Definition frameworks : list string :=
  ["NLTK"; "spaCy"; "HuggingFace"; "TensorFlow"; "PyTorch"].

Definition libraries : list string :=
  ["NLTK"; "spaCy"; "Transformers"; "TensorFlow"; "PyTorch"; "Gensim"].

(** The body of the loop of [_generate_mock_questions]. *)
Definition mock_question (i : Z) : M value :=
  k <- randint 1 3 ;;
  picked <- sample nlp_topics k ;;
  let tags := VStr "nlp" :: map VStr picked in
  topic1 <- choice nlp_topics ;;
  framework <- choice frameworks ;;
  topic2 <- choice nlp_topics ;;
  score <- randint 0 50 ;;
  answer_count <- randint 1 5 ;;
  t <- now_timestamp ;;
  age <- randint 0 (30 * 24 * 60 * 60) ;;
  ret (VDict
    [("question_id", VInt i);
     ("title", VStr ("如何在 NLP 项目中实现 " ++ topic1 ++ "?"));
     ("body", VStr ("我正在尝试使用 Python 和 " ++ framework ++ " 实现 "
                    ++ topic2 ++ " 功能，但遇到了一些问题..."));
     ("score", VInt score);
     ("answer_count", VInt answer_count);
     ("creation_date", VInt (t - age));
     ("tags", VList tags);
     ("accepted_answer_id", VInt (i * 100))]).

Definition _generate_mock_questions (count : Z) : M (list value) :=
  for_each mock_question (range 1 (count + 1)).

(** The body of the loop of [_generate_mock_answers]. *)
Definition mock_answer (question_id : value) (i : Z) : M value :=
  answer_id <- times_100_plus question_id i ;;
  let accepted := (i =? 1) in
  library1 <- choice libraries ;;
  library2 <- choice libraries ;;
  score <- randint 0 30 ;;
  t <- now_timestamp ;;
  age <- randint 0 (15 * 24 * 60 * 60) ;;
  user_id <- randint 1000 9999 ;;
  expert <- randint 1 100 ;;
  ret (VDict
    [("answer_id", VInt answer_id);
     ("body", VStr ("你可以使用 " ++ library1
                    ++ " 库来解决这个问题。以下是示例代码:" ++ nl
                    ++ "```python" ++ nl ++ "import " ++ lower library2 ++ nl ++ nl
                    ++ "# 你的代码逻辑" ++ nl ++ "```" ++ nl
                    ++ "希望这个回答对你有帮助！"));
     ("score", VInt score);
     ("is_accepted", VBool accepted);
     ("creation_date", VInt (t - age));
     ("owner", VDict [("user_id", VInt user_id);
                      ("display_name", VStr ("NLP专家" ++ str_of_Z expert))])]).

Definition _generate_mock_answers (question_id : value) : M (list value) :=
  answer_count <- randint 1 5 ;;
  for_each (mock_answer question_id) (range 1 (answer_count + 1)).

(** ** The collector *)

Record StackExchangeCollector : Type := mkCollector {
  use_mock_data : bool;
  page_size : Z;
  rate_limit : Z
}.

Record response : Type := mkResponse {
  items : list value;
  has_more : bool
}.

Inductive fetch_outcome : Type :=
| FetchOk (r : response)
| FetchRaise (e : exn).

Definition temp_path (count : Z) : string :=
  "data/raw/nlp_questions_temp_" ++ str_of_Z count ++ ".json".

Section Collector.

(** The remote service: what a request is answered with, given everything
    the program did before. *)
Variable remote : list event -> request -> fetch_outcome.

(** The constructor of the client, which may refuse with an exception. *)
Variable StackAPI_new : string -> option string -> result StackAPI.

(** [json.dumps(data, ensure_ascii=False, indent=2)] *)
Variable json_dumps : value -> string.

(** [StackExchangeCollector.__init__] *)
Definition __init__ (key : option string) (site : string)
    (page_size max_pages rate_limit : Z) (use_mock_data : bool)
  : M StackExchangeCollector :=
  let self := mkCollector use_mock_data page_size rate_limit in
  if negb use_mock_data then
    let key' := match key with
                | Some k => if is_empty k then None else Some k
                | None => None
                end in
    match StackAPI_new site key' with
    | Ok a =>
        fun w => (Ok self,
                  set_api (Some (mkStackAPI (api_site a) (api_key a) page_size max_pages)) w)
    | Raise e => raise e
    end
  else ret self.

(** [self.api.fetch(endpoint, **params)] *)
Definition api_fetch (e : endpoint) (params : dict) : M response :=
  fun w =>
    match api w with
    | None => (Raise AttributeError, w)
    | Some a =>
        let r := mkRequest e params (api_page_size a) (api_max_pages a) in
        match remote (trace w) r with
        | FetchOk resp => (Ok resp, emit (EvFetch r) w)
        | FetchRaise ex => (Raise ex, emit (EvFetch r) w)
        end
    end.

Definition get_api : M StackAPI :=
  fun w =>
    match api w with
    | None => (Raise AttributeError, w)
    | Some a => (Ok a, w)
    end.

(** [self.api.max_pages = n] *)
Definition set_max_pages (n : Z) : M unit :=
  fun w =>
    match api w with
    | None => (Raise AttributeError, w)
    | Some a =>
        (Ok tt, set_api (Some (mkStackAPI (api_site a) (api_key a) (api_page_size a) n)) w)
    end.

Definition question_params (tag : string) (min_answers : Z)
    (from_date to_date : option Z) (min_score : Z) : dict :=
  let params :=
    [("tagged", VStr tag); ("sort", VStr "creation"); ("order", VStr "desc");
     ("min", VInt min_answers); ("min_score", VInt min_score);
     ("filter", VStr "!-*jbN0CeyLXX")] in
  let params :=
    match from_date with
    | Some d => dict_set params "fromdate" (VInt d)
    | None => params
    end in
  match to_date with
  | Some d => dict_set params "todate" (VInt d)
  | None => params
  end.

Definition collect_questions (self : StackExchangeCollector) (tag : string)
    (min_answers : Z) (from_date to_date : option Z) (min_score max_count : Z)
  : M (list value) :=
  if use_mock_data self then _generate_mock_questions max_count
  else
    let params := question_params tag min_answers from_date to_date min_score in
    a <- get_api ;;
    pages <- floordiv (max_count + api_page_size a - 1) (api_page_size a) ;;
    set_max_pages pages ;;;
    try_except
      (questions_response <- api_fetch Questions params ;;
       let questions := items questions_response in
       ret (if max_count <? Z.of_nat (List.length questions)
            then slice_to questions max_count
            else questions))
      is_StackAPIError
      (fun _ => ret []).

Definition answer_params : dict :=
  [("filter", VStr "!-*jbN0CeYX4I"); ("sort", VStr "votes"); ("order", VStr "desc")].

Definition collect_answers_for_question (self : StackExchangeCollector)
    (question_id : value) : M (list value) :=
  if use_mock_data self then _generate_mock_answers question_id
  else
    time_sleep_inverse (rate_limit self) ;;;
    try_except
      (answers_response <- api_fetch (AnswersOf question_id) answer_params ;;
       ret (items answers_response))
      (fun _ => true)
      (fun _ => ret []).

Definition save_to_json (data : list value) (file_path : string) : M unit :=
  os_makedirs (os_path_dirname file_path) ;;;
  open_write file_path (json_dumps (VList data)).

(** The loop of [collect_questions_with_answers]: [i] is the index that
    [enumerate] gives to the head of [questions], [acc] is
    [questions_with_answers]. *)
Fixpoint collect_loop (self : StackExchangeCollector) (total_questions i : Z)
    (questions acc : list value) : M (list value) :=
  match questions with
  | [] => ret acc
  | question :: rest =>
      question_id <- getitem question "question_id" ;;
      answers <- collect_answers_for_question self question_id ;;
      question' <- setitem question "answers" (VList answers) ;;
      let acc' := (acc ++ [question'])%list in
      (if (((i + 1) mod 10 =? 0) || (i =? total_questions - 1))%bool
       then save_to_json acc' (temp_path (i + 1))
       else ret tt) ;;;
      collect_loop self total_questions (i + 1) rest acc'
  end.

Definition collect_questions_with_answers (self : StackExchangeCollector)
    (tag : string) (min_answers : Z) (from_date to_date : option Z)
    (min_score max_count : Z) : M (list value) :=
  questions <- collect_questions self tag min_answers from_date to_date
                 min_score max_count ;;
  match questions with
  | [] => ret []
  | _ => collect_loop self (Z.of_nat (List.length questions)) 0 questions []
  end.

End Collector.

(** ** Reading records *)

(** [v.get(k)] on a record; [None] when [v] is no dict or lacks the key. *)
Definition field (v : value) (k : string) : option value :=
  match v with
  | VDict d => dict_get d k
  | _ => None
  end.

Definition is_accepted (v : value) : bool :=
  match field v "is_accepted" with
  | Some (VBool true) => true
  | _ => false
  end.

(** The record carries a non-empty list under ["answers"]. *)
Definition has_answers (v : value) : bool :=
  match field v "answers" with
  | Some (VList (_ :: _)) => true
  | _ => false
  end.

(** The record carries a list, possibly empty, under ["answers"]. *)
Definition answers_merged (v : value) : bool :=
  match field v "answers" with
  | Some (VList _) => true
  | _ => false
  end.

(** ** Vocabulary of the properties *)

(** [m] started in [w] returns, and the value and final world satisfy [Q]. *)
Definition returns {A} (m : M A) (w : world) (Q : A -> world -> Prop) : Prop :=
  match m w with
  | (Ok a, w') => Q a w'
  | (Raise _, _) => False
  end.

(** Only the random tape moved. *)
Definition only_tape (w w' : world) : Prop :=
  clock w' = clock w /\ fs w' = fs w /\ api w' = api w /\ trace w' = trace w.

(** What the loop of [_generate_mock_answers] gives to position [i]. *)
Definition answer_at (q i : Z) (v : value) : Prop :=
  field v "answer_id" = Some (VInt (q * 100 + i)) /\
  field v "is_accepted" = Some (VBool (i =? 1)).

(** What the loop of [_generate_mock_questions] gives to index [i]. *)
Definition question_at (i : Z) (v : value) : Prop :=
  field v "question_id" = Some (VInt i) /\
  field v "accepted_answer_id" = Some (VInt (i * 100)) /\
  field v "answers" = None.

(** The checkpoint files written so far, oldest first. *)
Fixpoint writes (tr : list event) : list (string * string) :=
  match tr with
  | [] => []
  | EvWrite p c :: tr' => (p, c) :: writes tr'
  | _ :: tr' => writes tr'
  end.

(** The trace only got longer. *)
Definition grows (w w' : world) : Prop :=
  exists suffix, trace w' = (trace w ++ suffix)%list.

(** Whatever its outcome, [m] relates the worlds before and after by [rel]. *)
Definition keeps {A} (rel : world -> world -> Prop) (m : M A) : Prop :=
  forall w, rel w (snd (m w)).

(** Nothing was written and the file system is as before. *)
Definition calm (w w' : world) : Prop :=
  fs w' = fs w /\ writes (trace w') = writes (trace w) /\ grows w w'.

(** The working directory lets the checkpoints be written: nothing but a
    directory stands at [data] and [data/raw], and no checkpoint path is
    taken by a directory. *)
Definition fs_ready (f : filesystem) : Prop :=
  is_file f "data" = false /\
  is_file f "data/raw" = false /\
  forall k, is_dir f (temp_path k) = false.

(** The question is a record with an identifier the answer fetcher
    accepts. *)
Definition identified (ok_id : value -> Prop) (q : value) : Prop :=
  exists d question_id,
    q = VDict d /\ dict_get d "question_id" = Some question_id /\ ok_id question_id.

(** [r] is the question [q] with the answers [R] speaks of merged in. *)
Definition merged (R : value -> list value -> world -> Prop) (w : world)
    (q r : value) : Prop :=
  exists d question_id answers,
    q = VDict d /\ dict_get d "question_id" = Some question_id /\
    R question_id answers w /\
    r = VDict (dict_set d "answers" (VList answers)).

(** The running count [k] is a multiple of ten or the count of the last
    question. *)
Definition is_checkpoint (total k : Z) : bool :=
  ((k mod 10 =? 0) || (k =? total))%bool.

Definition checkpoints (total : Z) : list Z :=
  filter (is_checkpoint total) (range 1 (total + 1)).

(** The checkpoint with the running count [k]: its path and the document
    holding the first [k] records of [res]. *)
Definition checkpoint_of (json_dumps : value -> string) (res : list value) (k : Z)
  : string * string :=
  (temp_path k, json_dumps (VList (firstn (Z.to_nat k) res))).

Definition is_int (v : value) : Prop := exists z, v = VInt z.

Definition non_empty (_ : value) (answers : list value) (_ : world) : Prop :=
  answers <> [].

(** The request [collect_questions] sends. *)
Definition questions_request (a : StackAPI) (tag : string) (min_answers : Z)
    (from_date to_date : option Z) (min_score max_count : Z) : request :=
  mkRequest Questions
    (question_params tag min_answers from_date to_date min_score)
    (api_page_size a)
    ((max_count + api_page_size a - 1) / api_page_size a).

(** The request [collect_answers_for_question] sends. *)
Definition answers_request (a : StackAPI) (question_id : value) : request :=
  mkRequest (AnswersOf question_id) answer_params (api_page_size a) (api_max_pages a).

(** Degrade to empty: the items of a response, nothing for a raise. *)
Definition degrade (o : fetch_outcome) : list value :=
  match o with
  | FetchOk r => items r
  | FetchRaise _ => []
  end.

(** The answers are what the remote gave to this question's own request,
    at the point of the trace where it was sent. *)
Definition own_fetch (remote : list event -> request -> fetch_outcome)
    (a : StackAPI) (question_id : value) (answers : list value) (w : world) : Prop :=
  exists before after,
    trace w = (before ++ EvFetch (answers_request a question_id) :: after)%list /\
    answers = degrade (remote before (answers_request a question_id)).

Definition any_id (_ : value) : Prop := True.

Section JsonModel.

Local Open Scope nat_scope.
Local Open Scope char_scope.
Local Open Scope list_scope.

(** ** A model of the JSON codec of the standard library

    [json.dump] and [json.load] belong to the standard library, not to
    the repository.  Persistence serializes the records as a JSON array,
    UTF-8, with human-readable indentation and non-ASCII characters
    preserved literally; the model writes the document the encoder
    produces for [ensure_ascii=False, indent=2] (one item per line, two
    spaces per nesting level) and reads JSON text back, on the values a
    record of the collector is made of.  A string is the sequence of its
    UTF-8 bytes. *)

Definition quote : ascii := ascii_of_nat 34.
Definition backslash : ascii := ascii_of_nat 92.
Definition newline : ascii := ascii_of_nat 10.

Definition hex_digit (n : nat) : ascii :=
  nth n (list_ascii_of_string "0123456789abcdef") "0".

(** The replacement the encoder makes for one character of a string:
    the quote, the backslash and the control characters are escaped,
    everything else, non-ASCII included, is copied. *)
Definition escape_char (c : ascii) : list ascii :=
  let n := nat_of_ascii c in
  if Ascii.eqb c quote then [backslash; quote]
  else if Ascii.eqb c backslash then [backslash; backslash]
  else if Nat.eqb n 8 then [backslash; "b"]
  else if Nat.eqb n 12 then [backslash; "f"]
  else if Nat.eqb n 10 then [backslash; "n"]
  else if Nat.eqb n 13 then [backslash; "r"]
  else if Nat.eqb n 9 then [backslash; "t"]
  else if Nat.ltb n 32
       then [backslash; "u"; "0"; "0"; hex_digit (n / 16); hex_digit (n mod 16)]
  else [c].

Definition dump_string (s : string) : list ascii :=
  quote :: flat_map escape_char (list_ascii_of_string s) ++ [quote].

(** A line break followed by the indentation of the nesting level. *)
Definition newline_indent (level : nat) : list ascii :=
  newline :: repeat " " (2 * level).

Fixpoint join_comma (parts : list (list ascii)) : list ascii :=
  match parts with
  | [] => []
  | [p] => p
  | p :: rest => p ++ "," :: join_comma rest
  end.

(** Modelled from the spec: the encoder [json.dumps(v, ensure_ascii=False,
    indent=2)] of the standard library, at a nesting level; it serializes
    a list as a JSON array, indented, with non-ASCII characters preserved
    literally. *)
Fixpoint dump (level : nat) (v : value) : list ascii :=
  match v with
  | VNone => list_ascii_of_string "null"
  | VBool true => list_ascii_of_string "true"
  | VBool false => list_ascii_of_string "false"
  | VInt z => list_ascii_of_string (str_of_Z z)
  | VStr s => dump_string s
  | VList [] => list_ascii_of_string "[]"
  | VList l =>
      "[" :: join_comma (map (fun x => newline_indent (S level) ++ dump (S level) x) l)
          ++ newline_indent level ++ ["]"]
  | VDict [] => list_ascii_of_string "{}"
  | VDict d =>
      "{" :: join_comma
               (map (fun kx => newline_indent (S level) ++ dump_string (fst kx)
                               ++ ":" :: " " :: dump (S level) (snd kx)) d)
          ++ newline_indent level ++ ["}"]
  end.

(** Modelled from the spec: the text [json.dump(data, f, ensure_ascii=False,
    indent=2)] of the standard library writes to the file. *)
Definition py_json_dumps (v : value) : string := string_of_list_ascii (dump 0 v).


(** *** The decoder *)

Definition is_ws (c : ascii) : bool :=
  let n := nat_of_ascii c in
  (Nat.eqb n 32 || Nat.eqb n 10 || Nat.eqb n 13 || Nat.eqb n 9)%bool.

Fixpoint skip_ws (s : list ascii) : list ascii :=
  match s with
  | c :: r => if is_ws c then skip_ws r else s
  | [] => []
  end.

Definition is_digit (c : ascii) : bool :=
  let n := nat_of_ascii c in (Nat.leb 48 n && Nat.leb n 57)%bool.

Definition is_number_char (c : ascii) : bool :=
  (is_digit c || Ascii.eqb c "-")%bool.

Fixpoint span_number (s : list ascii) : list ascii * list ascii :=
  match s with
  | c :: r =>
      if is_number_char c
      then let (cs, rest) := span_number r in (c :: cs, rest)
      else ([], s)
  | [] => ([], [])
  end.

(** [0] or a digit string without a leading zero. *)
Definition digits_ok (ds : list ascii) : bool :=
  match ds with
  | [] => false
  | c :: rest =>
      if Ascii.eqb c "0" then match rest with [] => true | _ => false end
      else is_digit c
  end.

Definition number_ok (cs : list ascii) : bool :=
  match cs with
  | [] => false
  | c :: ds => if Ascii.eqb c "-" then digits_ok ds else digits_ok cs
  end.

(** A fraction or an exponent follows: the number is a float, which the
    records of the collector never hold and [value] does not model. *)
Definition starts_fraction (s : list ascii) : bool :=
  match s with
  | c :: _ => (Ascii.eqb c "." || Ascii.eqb c "e" || Ascii.eqb c "E")%bool
  | [] => false
  end.

Definition parse_number (s : list ascii) : option (value * list ascii) :=
  let (cs, rest) := span_number s in
  if (number_ok cs && negb (starts_fraction rest))%bool then
    match NilZero.int_of_string (string_of_list_ascii cs) with
    | Some d => Some (VInt (Z.of_int d), rest)
    | None => None
    end
  else None.

Definition hex_value (c : ascii) : option N :=
  let n := N_of_ascii c in
  if (N.leb 48 n && N.leb n 57)%bool then Some (n - 48)%N
  else if (N.leb 97 n && N.leb n 102)%bool then Some (n - 87)%N
  else if (N.leb 65 n && N.leb n 70)%bool then Some (n - 55)%N
  else None.

(** The UTF-8 bytes of a code point of the basic plane; a surrogate has
    none. *)
Definition utf8_encode (code : N) : option (list ascii) :=
  (if code <? 128 then Some [ascii_of_N code]
   else if code <? 2048
        then Some [ascii_of_N (192 + code / 64); ascii_of_N (128 + code mod 64)]
   else if (55296 <=? code) && (code <? 57344) then None
   else Some [ascii_of_N (224 + code / 4096);
              ascii_of_N (128 + (code / 64) mod 64);
              ascii_of_N (128 + code mod 64)])%N%bool.

Definition decode_u (h1 h2 h3 h4 : ascii) : option (list ascii) :=
  match hex_value h1, hex_value h2, hex_value h3, hex_value h4 with
  | Some a, Some b, Some c, Some d =>
      utf8_encode (((a * 16 + b) * 16 + c) * 16 + d)%N
  | _, _, _, _ => None
  end.

Definition unescape (c : ascii) : option ascii :=
  if Ascii.eqb c quote then Some quote
  else if Ascii.eqb c backslash then Some backslash
  else if Ascii.eqb c "/" then Some "/"
  else if Ascii.eqb c "b" then Some (ascii_of_nat 8)
  else if Ascii.eqb c "f" then Some (ascii_of_nat 12)
  else if Ascii.eqb c "n" then Some (ascii_of_nat 10)
  else if Ascii.eqb c "r" then Some (ascii_of_nat 13)
  else if Ascii.eqb c "t" then Some (ascii_of_nat 9)
  else None.

Definition prepend (cs : list ascii) (r : option (list ascii * list ascii))
  : option (list ascii * list ascii) :=
  match r with
  | Some (s, rest) => Some (cs ++ s, rest)
  | None => None
  end.

(** The characters of a string up to its closing quote, escapes undone;
    a raw control character is refused. *)
Fixpoint parse_string_body (s : list ascii) : option (list ascii * list ascii) :=
  match s with
  | [] => None
  | c :: r =>
      if Ascii.eqb c quote then Some ([], r)
      else if Ascii.eqb c backslash then
        match r with
        | [] => None
        | e :: r' =>
            if Ascii.eqb e "u" then
              match r' with
              | h1 :: h2 :: h3 :: h4 :: r'' =>
                  match decode_u h1 h2 h3 h4 with
                  | Some bytes => prepend bytes (parse_string_body r'')
                  | None => None
                  end
              | _ => None
              end
            else
              match unescape e with
              | Some x => prepend [x] (parse_string_body r')
              | None => None
              end
        end
      else if Nat.ltb (nat_of_ascii c) 32 then None
      else prepend [c] (parse_string_body r)
  end.

Fixpoint starts_with (word s : list ascii) : bool :=
  match word, s with
  | [], _ => true
  | a :: word', b :: s' => (Ascii.eqb a b && starts_with word' s')%bool
  | _ :: _, [] => false
  end.

(** The literal [word] stands for the value [v]. *)
Definition expect (word : string) (v : value) (s : list ascii)
  : option (value * list ascii) :=
  let w := list_ascii_of_string word in
  if starts_with w s then Some (v, skipn (List.length w) s) else None.

(** [d[k] = v] for each member in turn: a repeated key keeps its place
    and takes the last value. *)
Definition dict_of_members (members : list (string * value)) : dict :=
  fold_left (fun d kx => dict_set d (fst kx) (snd kx)) members [].

Fixpoint parse_value (fuel : nat) (s : list ascii) : option (value * list ascii) :=
  match fuel with
  | O => None
  | S fuel' =>
      match skip_ws s with
      | [] => None
      | c :: r =>
          if Ascii.eqb c quote then
            match parse_string_body r with
            | Some (cs, rest) => Some (VStr (string_of_list_ascii cs), rest)
            | None => None
            end
          else if Ascii.eqb c "[" then
            match skip_ws r with
            | c' :: r' =>
                if Ascii.eqb c' "]" then Some (VList [], r')
                else match parse_items fuel' r with
                     | Some (l, rest) => Some (VList l, rest)
                     | None => None
                     end
            | [] => None
            end
          else if Ascii.eqb c "{" then
            match skip_ws r with
            | c' :: r' =>
                if Ascii.eqb c' "}" then Some (VDict [], r')
                else match parse_members fuel' r with
                     | Some (d, rest) => Some (VDict (dict_of_members d), rest)
                     | None => None
                     end
            | [] => None
            end
          else if Ascii.eqb c "n" then expect "null" VNone (c :: r)
          else if Ascii.eqb c "t" then expect "true" (VBool true) (c :: r)
          else if Ascii.eqb c "f" then expect "false" (VBool false) (c :: r)
          else if is_number_char c then parse_number (c :: r)
          else None
      end
  end

with parse_items (fuel : nat) (s : list ascii) : option (list value * list ascii) :=
  match fuel with
  | O => None
  | S fuel' =>
      match parse_value fuel' s with
      | Some (v, r) =>
          match skip_ws r with
          | c :: r' =>
              if Ascii.eqb c "," then
                match parse_items fuel' r' with
                | Some (l, rest) => Some (v :: l, rest)
                | None => None
                end
              else if Ascii.eqb c "]" then Some ([v], r')
              else None
          | [] => None
          end
      | None => None
      end
  end

with parse_members (fuel : nat) (s : list ascii)
  : option (list (string * value) * list ascii) :=
  match fuel with
  | O => None
  | S fuel' =>
      match skip_ws s with
      | q :: r =>
          if Ascii.eqb q quote then
            match parse_string_body r with
            | Some (k, r1) =>
                match skip_ws r1 with
                | c :: r2 =>
                    if Ascii.eqb c ":" then
                      match parse_value fuel' r2 with
                      | Some (v, r3) =>
                          match skip_ws r3 with
                          | c' :: r4 =>
                              if Ascii.eqb c' "," then
                                match parse_members fuel' r4 with
                                | Some (d, rest) =>
                                    Some ((string_of_list_ascii k, v) :: d, rest)
                                | None => None
                                end
                              else if Ascii.eqb c' "}"
                                   then Some ([(string_of_list_ascii k, v)], r4)
                              else None
                          | [] => None
                          end
                      | None => None
                      end
                    else None
                | [] => None
                end
            | None => None
            end
          else None
      | [] => None
      end
  end.

(** Modelled from the spec: [json.loads(s)] of the standard library,
    reading the file back as JSON; [None] stands for a text it refuses. *)
Definition py_json_loads (s : string) : option value :=
  let cs := list_ascii_of_string s in
  match parse_value (S (List.length cs)) cs with
  | Some (v, rest) =>
      match skip_ws rest with
      | [] => Some v
      | _ => None
      end
  | None => None
  end.

(** The values the encoder maps one-to-one: no record repeats a key. *)
Fixpoint unique_keys (ks : list string) : bool :=
  match ks with
  | [] => true
  | k :: r => (negb (existsb (String.eqb k) r) && unique_keys r)%bool
  end.

Fixpoint json_wf (v : value) : bool :=
  match v with
  | VList l => forallb json_wf l
  | VDict d => (unique_keys (map fst d) && forallb (fun kx => json_wf (snd kx)) d)%bool
  | _ => true
  end.

Fixpoint size (v : value) : nat :=
  match v with
  | VList l => S (list_sum (map (fun x => S (size x)) l))
  | VDict d => S (list_sum (map (fun kx => S (size (snd kx))) d))
  | _ => 1
  end.

(** What may follow a number: the end of the text, or a character that
    neither continues the digits nor opens a fraction. *)
Definition number_end (rest : list ascii) : bool :=
  match rest with
  | [] => true
  | c :: _ => (negb (is_number_char c) && negb (starts_fraction rest))%bool
  end.

(** A character that opens a value: no white space and no closing
    bracket. *)
Definition opens_value (c : ascii) : bool :=
  (negb (is_ws c) && negb (Ascii.eqb c "]") && negb (Ascii.eqb c "}"))%bool.

Definition item (level : nat) (x : value) : list ascii :=
  newline_indent (S level) ++ dump (S level) x.

Definition member (level : nat) (kx : string * value) : list ascii :=
  newline_indent (S level) ++ dump_string (fst kx)
  ++ ":" :: " " :: dump (S level) (snd kx).

(** What follows the first of the joined parts. *)
Definition after_part (parts : list (list ascii)) (tail : list ascii) : list ascii :=
  match parts with
  | [] => tail
  | _ => "," :: join_comma parts ++ tail
  end.

(** The decoder undoes the encoder on [v], at any nesting level, with
    any fuel from the size of [v] on, whatever text follows. *)
Definition round_trips (v : value) : Prop :=
  forall n level rest,
    size v <= n -> json_wf v = true -> number_end rest = true ->
    parse_value n (dump level v ++ rest) = Some (v, rest).

(** A string without quote, backslash and control characters is written
    as it is between two quotes: with [ensure_ascii=False] the bytes of a
    non-ASCII character are not escaped. *)
Definition plain_char (c : ascii) : bool :=
  (Nat.leb 32 (nat_of_ascii c) && negb (Ascii.eqb c quote)
   && negb (Ascii.eqb c backslash))%bool.

(** Induction on values that reaches the members of lists and records. *)
Section ValueInduction.

Variable P : value -> Prop.
Hypothesis HNone : P VNone.
Hypothesis HBool : forall b, P (VBool b).
Hypothesis HInt : forall z, P (VInt z).
Hypothesis HStr : forall s, P (VStr s).
Hypothesis HList : forall l, Forall P l -> P (VList l).
Hypothesis HDict : forall d, Forall (fun kx => P (snd kx)) d -> P (VDict d).

Fixpoint value_nested_ind (v : value) : P v :=
  match v with
  | VNone => HNone
  | VBool b => HBool b
  | VInt z => HInt z
  | VStr s => HStr s
  | VList l =>
      @HList l
        ((fix all (l : list value) : Forall P l :=
            match l with
            | [] => Forall_nil P
            | x :: l' => @Forall_cons _ P x l' (value_nested_ind x) (all l')
            end) l)
  | VDict d =>
      @HDict d
        ((fix all (d : list (string * value)) : Forall (fun kx => P (snd kx)) d :=
            match d with
            | [] => Forall_nil _
            | kx :: d' =>
                @Forall_cons _ (fun kx => P (snd kx)) kx d'
                  (value_nested_ind (snd kx)) (all d')
            end) d)
  end.

End ValueInduction.

End JsonModel.

(** ** The entry point *)

Definition output_file : string := "data/raw/nlp_questions_with_answers.json".

Section Main.

Variable remote : list event -> request -> fetch_outcome.
Variable StackAPI_new : string -> option string -> result StackAPI.
Variable json_dumps : value -> string.

(** [os.environ] once [load_dotenv()] has run. *)
Variable environ : string -> option string.

(** [int(s)] for a string: the integer it denotes, or [None] where it
    raises [ValueError]. *)
Variable py_int : string -> option Z.

(** [os.getenv(key, default)] *)
Definition getenv (key default : string) : string :=
  match environ key with
  | Some s => s
  | None => default
  end.

(** [int(os.getenv(key, default))] for an integer [default]. *)
Definition getenv_int (key : string) (default : Z) : M Z :=
  match environ key with
  | Some s =>
      match py_int s with
      | Some z => ret z
      | None => raise ValueError
      end
  | None => ret default
  end.

(** [main] of the collector module.  The configuration is read before
    the [try]; everything after it is under [except Exception]. *)
Definition main : M unit :=
  let api_key :=
    match environ "STACK_EXCHANGE_API_KEY" with
    | Some k => if String.eqb k "your_api_key_here" then None else Some k
    | None => None
    end in
  let site := getenv "STACK_EXCHANGE_SITE" "stackoverflow" in
  page_size <- getenv_int "STACK_EXCHANGE_BATCH_SIZE" 100 ;;
  max_pages <- getenv_int "STACK_EXCHANGE_MAX_PAGES" 5 ;;
  rate_limit <- getenv_int "STACK_EXCHANGE_RATE_LIMIT" 30 ;;
  let tag := getenv "TAG" "nlp" in
  min_answers <- getenv_int "MIN_ANSWERS" 1 ;;
  min_score <- getenv_int "MIN_SCORE" 0 ;;
  max_count <- getenv_int "MAX_COUNT" 10 ;;
  let use_mock_data := String.eqb (lower (getenv "USE_MOCK_DATA" "false")) "true" in
  try_except
    (collector <- __init__ StackAPI_new api_key site page_size max_pages rate_limit
                    use_mock_data ;;
     questions_with_answers <-
       collect_questions_with_answers remote json_dumps collector tag min_answers
         None None min_score max_count ;;
     match questions_with_answers with
     | [] => ret tt
     | _ => save_to_json json_dumps questions_with_answers output_file
     end)
    (fun _ => true)
    (fun _ => ret tt).

End Main.

(** The event is the writing of a file. *)
Definition is_write (e : event) : bool :=
  match e with
  | EvWrite _ _ => true
  | _ => false
  end.

(** Since [w], the client is the same object and the program did no
    input or output but writing files. *)
Definition only_writes (w w' : world) : Prop :=
  api w' = api w /\
  exists suffix,
    trace w' = (trace w ++ suffix)%list /\ forallb is_write suffix = true.

(** The record is a dict that carries an identifier. *)
Definition has_question_id (q : value) : Prop :=
  exists d question_id, q = VDict d /\ dict_get d "question_id" = Some question_id.

(** [r] is the record [q] with a list put under ["answers"]. *)
Definition with_answers (q r : value) : Prop :=
  exists d answers, q = VDict d /\ r = VDict (dict_set d "answers" (VList answers)).

(** The settings [main] reads through [int]. *)
Definition int_keys : list string :=
  ["STACK_EXCHANGE_BATCH_SIZE"; "STACK_EXCHANGE_MAX_PAGES";
   "STACK_EXCHANGE_RATE_LIMIT"; "MIN_ANSWERS"; "MIN_SCORE"; "MAX_COUNT"].

(** The setting [key] is present and [int] refuses it. *)
Definition unreadable (environ : string -> option string)
    (py_int : string -> option Z) (key : string) : Prop :=
  exists s, environ key = Some s /\ py_int s = None.

(** The integer the setting [key] stands for, [default] when it is unset. *)
Definition int_setting (environ : string -> option string)
    (py_int : string -> option Z) (key : string) (default : Z) : Z :=
  match environ key with
  | Some s =>
      match py_int s with
      | Some z => z
      | None => default
      end
  | None => default
  end.

(** The events of a trace that are no writing of a file: the sleeps and
    the requests, in order. *)
Definition network (tr : list event) : list event :=
  filter (fun e => negb (is_write e)) tr.

(** What fetching the answers of the record [q] does on the network: one
    sleep, then one request for the record's identifier. *)
Definition answer_calls (a : StackAPI) (rate : Z) (q : value) : list event :=
  match field q "question_id" with
  | Some question_id => [EvSleep rate; EvFetch (answers_request a question_id)]
  | None => []
  end.

(** The files [l] after the writes [ws], oldest first. *)
Definition apply_writes (l ws : list (string * string)) : list (string * string) :=
  fold_left (fun l' pc => put_file l' (fst pc) (snd pc)) ws l.

(** Since [w] the trace only got longer, and the files are those of [w]
    with the writes of the new events done in order. *)
Definition synced (w w' : world) : Prop :=
  exists suffix,
    trace w' = (trace w ++ suffix)%list /\
    files (fs w') = apply_writes (files (fs w)) (writes suffix).

(** The answers [_generate_mock_answers] gives for an integer identifier:
    between one and five, numbered from the identifier, the first one
    accepted. *)
Definition mock_answers_of (question_id : value) (answers : list value) (_ : world)
  : Prop :=
  exists q n,
    question_id = VInt q /\ 1 <= n <= 5 /\
    Forall2 (answer_at q) (range 1 (n + 1)) answers.

(** A way to read integers, for the runs below: plain decimal numerals. *)
Definition decimal_int (s : string) : option Z :=
  option_map Z.of_int (NilZero.int_of_string s).

(** An environment that asks for three mock questions. *)
Definition mock_environ (key : string) : option string :=
  if String.eqb key "USE_MOCK_DATA" then Some "True"
  else if String.eqb key "MAX_COUNT" then Some "3"
  else None.

(** An environment whose [MAX_COUNT] is no numeral. *)
Definition broken_environ (key : string) : option string :=
  if String.eqb key "MAX_COUNT" then Some "ten" else None.

(** No setting at all: [main] runs in live mode with its defaults. *)
Definition no_environ (key : string) : option string := None.

(** A constructor that gives a client with the defaults of the library. *)
Definition default_client : string -> option string -> result StackAPI :=
  fun site key => Ok (mkStackAPI site key 100 5).

Definition no_client : string -> option string -> result StackAPI :=
  fun _ _ => Raise (StackAPIError "offline").

(** The record [_generate_mock_questions] makes for the index [i] when
    the clock shows [now]: the choices are free within their ranges. *)
Definition question_record (now i : Z) (v : value) : Prop :=
  exists topics topic1 framework topic2 score answer_count age,
    v = VDict
          [("question_id", VInt i);
           ("title", VStr ("如何在 NLP 项目中实现 " ++ topic1 ++ "?"));
           ("body", VStr ("我正在尝试使用 Python 和 " ++ framework ++ " 实现 "
                          ++ topic2 ++ " 功能，但遇到了一些问题..."));
           ("score", VInt score);
           ("answer_count", VInt answer_count);
           ("creation_date", VInt (now - age));
           ("tags", VList (VStr "nlp" :: map VStr topics));
           ("accepted_answer_id", VInt (i * 100))] /\
    (1 <= List.length topics <= 3)%nat /\ NoDup topics /\ incl topics nlp_topics /\
    In topic1 nlp_topics /\ In framework frameworks /\ In topic2 nlp_topics /\
    0 <= score <= 50 /\ 1 <= answer_count <= 5 /\ 0 <= age <= 30 * 24 * 60 * 60.

(** The record [_generate_mock_answers] makes at position [i] for the
    question [q] when the clock shows [now]. *)
Definition answer_record (now q i : Z) (v : value) : Prop :=
  exists library1 library2 score age user_id expert,
    v = VDict
          [("answer_id", VInt (q * 100 + i));
           ("body", VStr ("你可以使用 " ++ library1
                          ++ " 库来解决这个问题。以下是示例代码:" ++ nl
                          ++ "```python" ++ nl ++ "import " ++ lower library2 ++ nl ++ nl
                          ++ "# 你的代码逻辑" ++ nl ++ "```" ++ nl
                          ++ "希望这个回答对你有帮助！"));
           ("score", VInt score);
           ("is_accepted", VBool (i =? 1));
           ("creation_date", VInt (now - age));
           ("owner", VDict [("user_id", VInt user_id);
                            ("display_name", VStr ("NLP专家" ++ str_of_Z expert))])] /\
    In library1 libraries /\ In library2 libraries /\
    0 <= score <= 30 /\ 0 <= age <= 15 * 24 * 60 * 60 /\
    1000 <= user_id <= 9999 /\ 1 <= expert <= 100.

(** ** Example inputs *)

(** The collector of the test fixture: mock mode, page size 10, rate
    limit 30. *)
Definition mock_collector : StackExchangeCollector := mkCollector true 10 30.

Definition example_tape : list N :=
  [3; 1; 4; 1; 5; 9; 2; 6; 5; 3; 5; 8; 9; 7; 9; 3; 2; 3; 8; 4; 6]%N.

(** A fresh working directory, no client, nothing done yet. *)
Definition mock_world : world := mkWorld example_tape 1700000000 empty_fs None [].

Definition no_remote : list event -> request -> fetch_outcome :=
  fun _ _ => FetchRaise (StackAPIError "offline").

Definition live_collector : StackExchangeCollector := mkCollector false 10 30.

Definition live_api : StackAPI := mkStackAPI "stackoverflow" None 10 1.

Definition live_world : world := mkWorld [] 1700000000 empty_fs (Some live_api) [].

Definition question_1 : value :=
  VDict [("question_id", VInt 1); ("title", VStr "Test Question 1")].

Definition question_2 : value :=
  VDict [("question_id", VInt 2); ("title", VStr "Test Question 2")].

Definition answer_201 : value :=
  VDict [("answer_id", VInt 201); ("body", VStr "Test Answer 1")].

(** A remote that lists two questions, fails on the answers of the first
    and answers for the second. *)
Definition flaky_remote : list event -> request -> fetch_outcome :=
  fun _ r =>
    match req_endpoint r with
    | Questions => FetchOk (mkResponse [question_1; question_2] false)
    | AnswersOf (VInt 1) => FetchRaise (OtherException "connection reset")
    | AnswersOf _ => FetchOk (mkResponse [answer_201] false)
    end.

(** A record that lacks its identifier. *)
Definition question_without_id : value :=
  VDict [("title", VStr "Test Question 3")].

(** A remote whose second question lacks its identifier. *)
Definition malformed_remote : list event -> request -> fetch_outcome :=
  fun _ r =>
    match req_endpoint r with
    | Questions => FetchOk (mkResponse [question_1; question_without_id] false)
    | AnswersOf _ => FetchOk (mkResponse [answer_201] false)
    end.


(** A remote whose transport breaks in the middle of a reply: the request
    ends in an exception that is not the client's own error. *)
Definition broken_transport : list event -> request -> fetch_outcome :=
  fun _ _ => FetchRaise (OtherException "ChunkedEncodingError").

(** A remote that refuses every request with the client's error. *)
Definition failing_remote : list event -> request -> fetch_outcome :=
  fun _ _ => FetchRaise (StackAPIError "throttle_violation").

(** A record with text outside ASCII. *)
Definition unicode_record : value :=
  VDict [("question_id", VInt 1); ("title", VStr "如何实现 BERT?");
         ("answers", VList [VDict [("answer_id", VInt 101); ("is_accepted", VBool true)]])].

(** A serialiser that only tells how many records a document holds. *)
Definition count_dumps (v : value) : string :=
  match v with
  | VList l => str_of_Z (Z.of_nat (List.length l))
  | _ => EmptyString
  end.

(* ================================================================== *)
(** * Properties *)


(** ** Running computations *)

Lemma returns_ret A (a : A) w (Q : A -> world -> Prop) :
  Q a w -> returns (ret a) w Q.
Proof. intro H. exact H. Qed.

Lemma returns_bind A B (m : M A) (k : A -> M B) w (Q : B -> world -> Prop) :
  returns m w (fun a w' => returns (k a) w' Q) -> returns (bind m k) w Q.
Proof.
  unfold returns, bind. destruct (m w) as [[a|e] w']; auto.
Qed.

Lemma returns_weaken A (m : M A) w (P Q : A -> world -> Prop) :
  returns m w P -> (forall a w', P a w' -> Q a w') -> returns m w Q.
Proof.
  unfold returns. destruct (m w) as [[a|e] w']; auto.
Qed.

Lemma returns_inv A (m : M A) w (Q : A -> world -> Prop) :
  returns m w Q -> exists a w', m w = (Ok a, w') /\ Q a w'.
Proof.
  unfold returns. destruct (m w) as [[a|e] w']; [eauto | tauto].
Qed.

Lemma returns_intro A (m : M A) w a w' (Q : A -> world -> Prop) :
  m w = (Ok a, w') -> Q a w' -> returns m w Q.
Proof. unfold returns. intros -> H. exact H. Qed.

Lemma only_tape_refl w : only_tape w w.
Proof. repeat split. Qed.

Lemma only_tape_trans w1 w2 w3 :
  only_tape w1 w2 -> only_tape w2 w3 -> only_tape w1 w3.
Proof.
  unfold only_tape. intros (a & b & c & d) (a' & b' & c' & d').
  repeat split; congruence.
Qed.

#[local] Hint Resolve only_tape_refl : core.

Lemma draw_returns w :
  returns draw w (fun _ w' => only_tape w w').
Proof.
  unfold returns, draw. destruct (tape w); simpl; auto.
  repeat split.
Qed.

Lemma randint_returns a b w :
  a <= b ->
  returns (randint a b) w (fun z w' => a <= z <= b /\ only_tape w w').
Proof.
  intro H. unfold randint.
  destruct (Z.ltb_spec b a); [lia|].
  apply returns_bind. eapply returns_weaken; [apply draw_returns|].
  intros n w' Hw. apply returns_ret. split; [|exact Hw].
  pose proof (Z.mod_pos_bound (Z.of_N n) (b - a + 1)). lia.
Qed.

Lemma choice_returns l w :
  l <> [] ->
  returns (choice l) w (fun _ w' => only_tape w w').
Proof.
  destruct l as [|x l]; [congruence|]. intros _.
  unfold choice. apply returns_bind.
  eapply returns_weaken; [apply draw_returns|].
  intros n w' Hw. apply returns_ret. exact Hw.
Qed.

Lemma now_timestamp_returns w :
  returns now_timestamp w (fun _ w' => only_tape w w').
Proof. unfold returns, now_timestamp. auto. Qed.

(** [for_each] returns when its body does; [I] is what the body keeps. *)
Lemma for_each_returns A B (f : A -> M B) (P : A -> B -> Prop)
    (I : world -> Prop) (l : list A) :
  (forall x w, In x l -> I w -> returns (f x) w (fun y w' => P x y /\ I w')) ->
  forall w, I w ->
  returns (for_each f l) w (fun ys w' => Forall2 P l ys /\ I w').
Proof.
  induction l as [|x l IH]; intros Hf w Hw; simpl.
  - apply returns_ret. split; [constructor | exact Hw].
  - apply returns_bind.
    eapply returns_weaken; [apply Hf; [left; reflexivity | exact Hw]|].
    intros y w1 [Hy Hw1]. apply returns_bind.
    eapply returns_weaken.
    + apply IH; [|exact Hw1]. intros x' w' Hin. apply Hf. right. exact Hin.
    + intros ys w2 [Hys Hw2]. apply returns_ret. split; [|exact Hw2].
      constructor; assumption.
Qed.

Lemma range_length a b : List.length (range a b) = Z.to_nat (b - a).
Proof. unfold range. rewrite length_map, length_seq. reflexivity. Qed.

Lemma range_nth a b j d :
  (j < Z.to_nat (b - a))%nat -> nth j (range a b) d = a + Z.of_nat j.
Proof.
  intro H. unfold range.
  rewrite nth_indep with (d' := a + Z.of_nat 0)
    by (rewrite length_map, length_seq; exact H).
  change (a + Z.of_nat 0) with ((fun n => a + Z.of_nat n) O).
  rewrite map_nth, seq_nth by exact H. reflexivity.
Qed.

Lemma range_In a b x : In x (range a b) -> a <= x < b.
Proof.
  unfold range. rewrite in_map_iff. intros (n & <- & Hn).
  apply in_seq in Hn. lia.
Qed.

(** ** The mock generator *)

Ltac run_step lem :=
  apply returns_bind; eapply returns_weaken;
  [ apply lem; try lia; try discriminate | cbv beta; intros ? ? ? ].

Ltac chain_tape :=
  repeat match goal with
         | H : _ /\ only_tape _ _ |- _ => destruct H as [_ H]
         end;
  repeat match goal with
         | H1 : only_tape ?a ?b, H2 : only_tape ?b ?c |- _ =>
             pose proof (only_tape_trans H1 H2); clear H2
         end;
  try assumption.

Lemma mock_answer_returns (q i : Z) w :
  returns (mock_answer (VInt q) i) w
    (fun v w' =>
       field v "answer_id" = Some (VInt (q * 100 + i)) /\
       field v "is_accepted" = Some (VBool (i =? 1)) /\
       only_tape w w').
Proof.
  unfold mock_answer, times_100_plus.
  apply returns_bind, returns_ret.
  run_step choice_returns. run_step choice_returns.
  run_step randint_returns. run_step now_timestamp_returns.
  run_step randint_returns. run_step randint_returns.
  run_step randint_returns.
  apply returns_ret. repeat split; try reflexivity.
  all: chain_tape.
  all: match goal with H : only_tape _ _ |- _ => apply H end.
Qed.

Lemma range_cons a b : a < b -> range a b = a :: range (a + 1) b.
Proof.
  intro H. unfold range.
  replace (Z.to_nat (b - a)) with (S (Z.to_nat (b - (a + 1)))) by lia.
  simpl. f_equal; [lia|].
  rewrite <- seq_shift, map_map. apply map_ext. intro n. lia.
Qed.

Lemma Forall2_nth_both A B (P : A -> B -> Prop) l l' j d d' :
  Forall2 P l l' -> (j < List.length l)%nat -> P (nth j l d) (nth j l' d').
Proof.
  intro H. revert j. induction H; intros j Hj; simpl in *; [lia|].
  destruct j; [assumption | apply IHForall2; lia].
Qed.

Lemma Forall2_In_r A B (P : A -> B -> Prop) l l' y :
  Forall2 P l l' -> In y l' -> exists x, In x l /\ P x y.
Proof.
  induction 1 as [|x y' l l' Hxy _ IH]; simpl; [tauto|].
  intros [<-|Hy]; [eauto|].
  destruct (IH Hy) as (x' & Hx' & HP). eauto.
Qed.

Lemma mock_answers_returns (q : Z) w :
  returns (_generate_mock_answers (VInt q)) w
    (fun answers w' =>
       (exists n, 1 <= n <= 5 /\ Forall2 (answer_at q) (range 1 (n + 1)) answers) /\
       only_tape w w').
Proof.
  unfold _generate_mock_answers.
  run_step randint_returns. destruct H as [Hn Hw].
  eapply returns_weaken.
  - apply for_each_returns with (P := answer_at q) (I := only_tape w); [|exact Hw].
    intros i w1 _ Hw1. eapply returns_weaken; [apply mock_answer_returns|].
    cbv beta. intros v w2 (H1 & H2 & H3). split; [split; assumption|].
    eapply only_tape_trans; eassumption.
  - cbv beta. intros answers w2 [HF Hw2]. split; [|exact Hw2]. eauto.
Qed.

Lemma not_accepted_filter q a b l :
  1 < a -> Forall2 (answer_at q) (range a b) l -> filter is_accepted l = [].
Proof.
  intros Ha H. remember (range a b) as r eqn:Hr.
  assert (Hall : forall i, In i r -> 1 < i).
  { subst r. intros i Hi. apply range_In in Hi. lia. }
  clear Hr. induction H as [|i v r l [_ Hacc] _ IH]; [reflexivity|].
  simpl. unfold is_accepted at 1. rewrite Hacc.
  destruct (Z.eqb_spec i 1) as [->|_].
  - specialize (Hall 1 (or_introl eq_refl)). lia.
  - apply IH. intros j Hj. apply Hall. right. exact Hj.
Qed.

(** C6: for every integer [question_id] the mock answer generator returns
    between one and five answers; exactly one of them is accepted and it
    is the first; the answer at 1-based position [i] has the identifier
    [question_id * 100 + i]. *)
Theorem mock_answers_shape :
  forall (question_id : Z) (w : world),
  exists answers w',
    _generate_mock_answers (VInt question_id) w = (Ok answers, w') /\
    (1 <= List.length answers <= 5)%nat /\
    List.length (filter is_accepted answers) = 1%nat /\
    is_accepted (nth 0 answers VNone) = true /\
    forall j, (j < List.length answers)%nat ->
      field (nth j answers VNone) "answer_id"
      = Some (VInt (question_id * 100 + Z.of_nat (S j))).
Proof.
  intros q w.
  destruct (returns_inv _ _ _ (mock_answers_returns q w))
    as (answers & w' & Hrun & (n & Hn & HF) & _).
  exists answers, w'. split; [exact Hrun|].
  pose proof (Forall2_length HF) as Hlen. rewrite range_length in Hlen.
  split; [lia|].
  rewrite range_cons in HF by lia.
  inversion HF as [|i v r l [Hid Hacc] Hrest]; subst.
  simpl in Hacc.
  assert (Hnone : filter is_accepted l = [])
    by (eapply not_accepted_filter; [|exact Hrest]; lia).
  assert (Hfirst : is_accepted v = true) by (unfold is_accepted; rewrite Hacc; reflexivity).
  split; [simpl; rewrite Hfirst, Hnone; reflexivity|].
  split; [exact Hfirst|].
  intros j Hj.
  rewrite <- range_cons in HF by lia.
  pose proof (@Forall2_nth_both _ _ _ _ _ j 0 VNone HF) as Hj'.
  rewrite range_length in Hj'. rewrite range_nth in Hj' by lia.
  destruct Hj' as [Hid' _]; [lia|].
  rewrite Hid'. do 2 f_equal. lia.
Qed.

Lemma remove_nth_length A (l : list A) i :
  (i < List.length l)%nat -> List.length (remove_nth i l) = pred (List.length l).
Proof.
  revert i. induction l as [|x l IH]; intros i Hi; simpl in *; [lia|].
  destruct i; [reflexivity|]. simpl. rewrite IH by lia. lia.
Qed.

Lemma sample_loop_returns (k : nat) : forall population w,
  (k <= List.length population)%nat ->
  returns (sample_loop population k) w (fun _ w' => only_tape w w').
Proof.
  induction k as [|k IH]; intros population w Hk; simpl.
  - apply returns_ret. auto.
  - destruct population as [|x rest] eqn:Hp; [simpl in Hk; lia|].
    rewrite <- Hp in *.
    assert (Hlen : List.length population <> O) by (rewrite Hp; discriminate).
    run_step draw_returns.
    apply returns_bind. eapply returns_weaken.
    + apply IH. rewrite remove_nth_length by (apply Nat.mod_upper_bound; exact Hlen). lia.
    + cbv beta. intros l w2 Hw2. apply returns_ret.
      eapply only_tape_trans; eassumption.
Qed.

Lemma sample_returns population k w :
  0 <= k <= Z.of_nat (List.length population) ->
  returns (sample population k) w (fun _ w' => only_tape w w').
Proof.
  intro H. unfold sample.
  destruct (Z.ltb_spec k 0); [lia|].
  destruct (Z.ltb_spec (Z.of_nat (List.length population)) k); [lia|].
  simpl. apply sample_loop_returns. lia.
Qed.

Lemma mock_question_returns (i : Z) w :
  returns (mock_question i) w (fun v w' => question_at i v /\ only_tape w w').
Proof.
  unfold mock_question.
  run_step randint_returns.
  apply returns_bind. eapply returns_weaken.
  { apply sample_returns. simpl. lia. }
  cbv beta. intros picked w1 Hw1.
  run_step choice_returns. run_step choice_returns. run_step choice_returns.
  run_step randint_returns. run_step randint_returns.
  run_step now_timestamp_returns. run_step randint_returns.
  apply returns_ret. split; [repeat split|].
  chain_tape.
Qed.

Lemma mock_questions_returns (count : Z) w :
  returns (_generate_mock_questions count) w
    (fun questions w' =>
       Forall2 question_at (range 1 (count + 1)) questions /\ only_tape w w').
Proof.
  unfold _generate_mock_questions.
  apply for_each_returns with (P := question_at) (I := only_tape w); [|auto].
  intros i w1 _ Hw1. eapply returns_weaken; [apply mock_question_returns|].
  cbv beta. intros v w2 [Hv Hw2]. split; [exact Hv|].
  eapply only_tape_trans; eassumption.
Qed.

(** C9: the mock question generator gives question [i] the field
    [accepted_answer_id = i * 100], while every answer the mock answer
    generator makes for [question_id = i] has an identifier between
    [i * 100 + 1] and [i * 100 + 5]: the two never meet, not even for the
    answer marked accepted. *)
Theorem mock_accepted_answer_id_dangling :
  forall (count : Z) (w : world),
  exists questions w',
    _generate_mock_questions count w = (Ok questions, w') /\
    List.length questions = Z.to_nat count /\
    forall j, (j < List.length questions)%nat ->
      let i := Z.of_nat (S j) in
      let question := nth j questions VNone in
      field question "question_id" = Some (VInt i) /\
      field question "accepted_answer_id" = Some (VInt (i * 100)) /\
      forall w1, exists answers w2,
        _generate_mock_answers (VInt i) w1 = (Ok answers, w2) /\
        answers <> [] /\
        forall a, In a answers ->
          exists id, field a "answer_id" = Some (VInt id) /\
                     i * 100 + 1 <= id <= i * 100 + 5 /\
                     field question "accepted_answer_id" <> Some (VInt id).
Proof.
  intros count w.
  destruct (returns_inv _ _ _ (mock_questions_returns count w))
    as (questions & w' & Hrun & HF & _).
  exists questions, w'. split; [exact Hrun|].
  pose proof (Forall2_length HF) as Hlen. rewrite range_length in Hlen.
  split; [lia|].
  intros j Hj i question.
  pose proof (@Forall2_nth_both _ _ _ _ _ j 0 VNone HF) as Hq.
  rewrite range_length in Hq. rewrite range_nth in Hq by lia.
  destruct Hq as (Hid & Hacc & _); [lia|].
  replace (1 + Z.of_nat j) with i in * by (subst i; lia).
  fold question in Hid, Hacc.
  split; [exact Hid|]. split; [exact Hacc|].
  intro w1.
  destruct (returns_inv _ _ _ (mock_answers_returns i w1))
    as (answers & w2 & Hrun2 & (n & Hn & HFa) & _).
  exists answers, w2. split; [exact Hrun2|].
  split.
  { apply Forall2_length in HFa. rewrite range_length in HFa.
    destruct answers; [simpl in HFa; lia | discriminate]. }
  intros a Ha. destruct (@Forall2_In_r _ _ _ _ _ _ HFa Ha) as (m & Hm & Hid' & _).
  apply range_In in Hm.
  exists (i * 100 + m). split; [exact Hid'|].
  split; [lia|]. rewrite Hacc. intro Heq.
  assert (E : i * 100 = i * 100 + m) by congruence. lia.
Qed.

(** ** Paths *)

Lemma head_to_last_sep_no_sep p : has_sep p = false -> head_to_last_sep p = EmptyString.
Proof.
  destruct p as [|c r]; [reflexivity|]. intro H.
  unfold head_to_last_sep. rewrite H. reflexivity.
Qed.

Lemma dirname_no_sep p : has_sep p = false -> os_path_dirname p = EmptyString.
Proof.
  intro H. unfold os_path_dirname. rewrite head_to_last_sep_no_sep by exact H.
  reflexivity.
Qed.

Lemma has_sep_app a b : has_sep (a ++ b) = (has_sep a || has_sep b)%bool.
Proof.
  induction a as [|c a IH]; simpl; [reflexivity|].
  destruct (Ascii.eqb c sep); [reflexivity | exact IH].
Qed.

Lemma head_to_last_sep_app a t :
  has_sep t = false -> head_to_last_sep (a ++ String sep t) = a ++ String sep EmptyString.
Proof.
  intro Ht. induction a as [|c a IH].
  - simpl. rewrite (head_to_last_sep_no_sep _ Ht). reflexivity.
  - change (String c a ++ String sep t) with (String c (a ++ String sep t)).
    unfold head_to_last_sep; fold head_to_last_sep.
    assert (Hs : has_sep (String c (a ++ String sep t)) = true).
    { simpl. destruct (Ascii.eqb c sep); [reflexivity|].
      rewrite has_sep_app. simpl. apply orb_true_r. }
    rewrite Hs, IH. reflexivity.
Qed.

Lemma has_sep_string_of_uint d : has_sep (NilEmpty.string_of_uint d) = false.
Proof. induction d; simpl; auto. Qed.

Lemma has_sep_str_of_Z z : has_sep (str_of_Z z) = false.
Proof.
  unfold str_of_Z. destruct (Z.to_int z) as [d|d]; simpl.
  - destruct d; simpl; auto using has_sep_string_of_uint.
  - destruct d; simpl; auto using has_sep_string_of_uint.
Qed.

Lemma dirname_temp_path k : os_path_dirname (temp_path k) = "data/raw".
Proof.
  assert (Hs : has_sep ("nlp_questions_temp_" ++ str_of_Z k ++ ".json") = false).
  { rewrite !has_sep_app, has_sep_str_of_Z. reflexivity. }
  unfold os_path_dirname, temp_path.
  change ("data/raw/nlp_questions_temp_" ++ str_of_Z k ++ ".json")
    with ("data/raw/" ++ ("nlp_questions_temp_" ++ str_of_Z k ++ ".json")).
  set (t := "nlp_questions_temp_" ++ str_of_Z k ++ ".json") in *.
  change ("data/raw/" ++ t) with ("data/raw" ++ String sep t).
  rewrite head_to_last_sep_app by exact Hs. reflexivity.
Qed.

Lemma ends_with_sep_app a b :
  is_empty b = false -> ends_with_sep (a ++ b) = ends_with_sep b.
Proof.
  intro Hb. induction a as [|x a IH]; [reflexivity|].
  change (String x a ++ b) with (String x (a ++ b)).
  destruct (a ++ b) eqn:E.
  - destruct a; simpl in E; [subst b|]; discriminate.
  - rewrite <- IH. reflexivity.
Qed.

Lemma is_empty_app_r a b : is_empty b = false -> is_empty (a ++ b) = false.
Proof. intro H. destruct a; [exact H | reflexivity]. Qed.

Lemma temp_path_not_dir_like k : ends_with_sep (temp_path k) = false.
Proof.
  unfold temp_path.
  rewrite ends_with_sep_app by (apply is_empty_app_r; reflexivity).
  rewrite ends_with_sep_app by reflexivity. reflexivity.
Qed.

Lemma temp_path_not_empty k : is_empty (temp_path k) = false.
Proof. reflexivity. Qed.

Lemma temp_path_neq_data k : String.eqb (temp_path k) "data" = false.
Proof. reflexivity. Qed.

Lemma temp_path_neq_data_raw k : String.eqb (temp_path k) "data/raw" = false.
Proof. reflexivity. Qed.

Lemma put_file_names l p c q :
  existsb (String.eqb q) (map fst (put_file l p c))
  = (String.eqb q p || existsb (String.eqb q) (map fst l))%bool.
Proof.
  induction l as [|[r c'] l IH]; simpl.
  - rewrite orb_false_r. reflexivity.
  - destruct (String.eqb_spec p r) as [->|Hpr]; simpl.
    + destruct (String.eqb q r); reflexivity.
    + rewrite IH. destruct (String.eqb q r), (String.eqb q p); reflexivity.
Qed.

Lemma read_put_file l p c : read_file (put_file l p c) p = Some c.
Proof.
  induction l as [|[r c'] l IH]; simpl.
  - rewrite String.eqb_refl. reflexivity.
  - destruct (String.eqb_spec p r) as [->|Hpr]; simpl.
    + rewrite String.eqb_refl. reflexivity.
    + destruct (String.eqb_spec p r); [contradiction | exact IH].
Qed.

Lemma existsb_add_dir ds d q :
  existsb (String.eqb q) (add_dir ds d)
  = (existsb (String.eqb q) ds || String.eqb q d)%bool.
Proof.
  unfold add_dir. destruct (existsb (String.eqb d) ds) eqn:E.
  - destruct (String.eqb_spec q d) as [->|_].
    + rewrite E. reflexivity.
    + rewrite orb_false_r. reflexivity.
  - rewrite existsb_app. simpl. rewrite orb_false_r. reflexivity.
Qed.

(** ** Persistence *)

Section Persistence.

Variable json_dumps : value -> string.

(** C10: a path that is a bare file name, without a directory separator,
    makes [save_to_json] raise before anything is written
    ([os.path.dirname] gives the empty string, which [os.makedirs]
    refuses); so a successful save implies a separator in the path. *)
Theorem save_to_json_bare_filename :
  forall (data : list value) (file_path : string) (w : world),
    (has_sep file_path = false ->
     os_path_dirname file_path = EmptyString /\
     save_to_json json_dumps data file_path w = (Raise FileNotFoundError, w)) /\
    (forall w', save_to_json json_dumps data file_path w = (Ok tt, w') ->
                has_sep file_path = true).
Proof.
  intros data file_path w.
  assert (Hbare : has_sep file_path = false ->
                  os_path_dirname file_path = EmptyString /\
                  save_to_json json_dumps data file_path w = (Raise FileNotFoundError, w)).
  { intro H. split; [apply dirname_no_sep; exact H|].
    unfold save_to_json, bind. rewrite dirname_no_sep by exact H. reflexivity. }
  split; [exact Hbare|].
  intros w' Hok. destruct (has_sep file_path); [reflexivity|].
  destruct (Hbare eq_refl) as [_ Hraise]. congruence.
Qed.

End Persistence.

(** ** What a computation leaves untouched *)

Lemma writes_app tr1 tr2 : writes (tr1 ++ tr2) = (writes tr1 ++ writes tr2)%list.
Proof.
  induction tr1 as [|e tr1 IH]; [reflexivity|].
  destruct e; simpl; rewrite IH; reflexivity.
Qed.

Lemma grows_refl w : grows w w.
Proof. exists []. symmetry. apply app_nil_r. Qed.

Lemma grows_trans w1 w2 w3 : grows w1 w2 -> grows w2 w3 -> grows w1 w3.
Proof.
  intros [s1 H1] [s2 H2]. exists (s1 ++ s2)%list.
  rewrite H2, H1, app_assoc. reflexivity.
Qed.

Lemma only_tape_grows w w' : only_tape w w' -> grows w w'.
Proof.
  intros (_ & _ & _ & H). exists []. rewrite H. symmetry. apply app_nil_r.
Qed.

Section Keeps.

Variable rel : world -> world -> Prop.
Hypothesis rel_refl : forall w, rel w w.
Hypothesis rel_trans : forall w1 w2 w3, rel w1 w2 -> rel w2 w3 -> rel w1 w3.

Lemma keeps_ret A (a : A) : keeps rel (ret a).
Proof. intro w. apply rel_refl. Qed.

Lemma keeps_raise A (e : exn) : keeps rel (@raise A e).
Proof. intro w. apply rel_refl. Qed.

Lemma keeps_bind A B (m : M A) (k : A -> M B) :
  keeps rel m -> (forall a, keeps rel (k a)) -> keeps rel (bind m k).
Proof.
  intros Hm Hk w. unfold bind. specialize (Hm w).
  destruct (m w) as [[a|e] w1]; simpl in *; [|exact Hm].
  eapply rel_trans; [exact Hm | apply Hk].
Qed.

Lemma keeps_try_except A (m : M A) catches handler :
  keeps rel m -> (forall e, keeps rel (handler e)) ->
  keeps rel (try_except m catches handler).
Proof.
  intros Hm Hh w. unfold try_except. specialize (Hm w).
  destruct (m w) as [[a|e] w1]; simpl in *; [exact Hm|].
  destruct (catches e); [|exact Hm].
  eapply rel_trans; [exact Hm | apply Hh].
Qed.

Lemma keeps_for_each A B (f : A -> M B) l :
  (forall x, keeps rel (f x)) -> keeps rel (for_each f l).
Proof.
  intro Hf. induction l as [|x l IH]; simpl.
  - apply keeps_ret.
  - apply keeps_bind; [apply Hf|]. intro y.
    apply keeps_bind; [exact IH|]. intro ys. apply keeps_ret.
Qed.

End Keeps.

Lemma keeps_weaken A (r1 r2 : world -> world -> Prop) (m : M A) :
  (forall w w', r1 w w' -> r2 w w') -> keeps r1 m -> keeps r2 m.
Proof. intros H Hm w. apply H, Hm. Qed.

Lemma keeps_run A (rel : world -> world -> Prop) (m : M A) w r w' :
  keeps rel m -> m w = (r, w') -> rel w w'.
Proof. intros H E. specialize (H w). rewrite E in H. exact H. Qed.

Ltac quiet_step :=
  first
    [ apply keeps_ret; [exact only_tape_refl]
    | apply keeps_raise; [exact only_tape_refl]
    | apply keeps_bind; [exact only_tape_trans | | intro ] ].

Lemma quiet_draw : keeps only_tape draw.
Proof.
  intro w. unfold draw. destruct (tape w); simpl; [apply only_tape_refl|].
  repeat split.
Qed.

Lemma quiet_randint a b : keeps only_tape (randint a b).
Proof.
  unfold randint. destruct (b <? a); [quiet_step|].
  quiet_step; [apply quiet_draw | quiet_step].
Qed.

Lemma quiet_choice l : keeps only_tape (choice l).
Proof.
  destruct l; simpl; [quiet_step|].
  quiet_step; [apply quiet_draw | quiet_step].
Qed.

Lemma quiet_sample_loop k : forall population, keeps only_tape (sample_loop population k).
Proof.
  induction k as [|k IH]; intro population; simpl; [quiet_step|].
  destruct population; [quiet_step|].
  quiet_step; [apply quiet_draw|].
  quiet_step; [apply IH | quiet_step].
Qed.

Lemma quiet_sample population k : keeps only_tape (sample population k).
Proof.
  unfold sample. destruct (_ || _)%bool; [quiet_step | apply quiet_sample_loop].
Qed.

Lemma quiet_now_timestamp : keeps only_tape now_timestamp.
Proof. intro w. apply only_tape_refl. Qed.

Lemma quiet_times_100_plus v i : keeps only_tape (times_100_plus v i).
Proof. destruct v; simpl; quiet_step. Qed.

Create HintDb quiet.

#[local] Hint Resolve quiet_draw quiet_randint quiet_choice quiet_sample
  quiet_now_timestamp quiet_times_100_plus : quiet.

Ltac quiet := repeat (quiet_step; auto with quiet).

Lemma quiet_mock_answer question_id i : keeps only_tape (mock_answer question_id i).
Proof. unfold mock_answer. quiet. Qed.

Lemma quiet_mock_question i : keeps only_tape (mock_question i).
Proof. unfold mock_question. quiet. Qed.

Lemma quiet_generate_mock_answers question_id :
  keeps only_tape (_generate_mock_answers question_id).
Proof.
  unfold _generate_mock_answers. quiet_step; [apply quiet_randint|].
  apply keeps_for_each;
    [exact only_tape_refl | exact only_tape_trans | apply quiet_mock_answer].
Qed.

Lemma quiet_generate_mock_questions count :
  keeps only_tape (_generate_mock_questions count).
Proof.
  apply keeps_for_each;
    [exact only_tape_refl | exact only_tape_trans | apply quiet_mock_question].
Qed.

Lemma calm_refl w : calm w w.
Proof. repeat split. apply grows_refl. Qed.

Lemma calm_trans w1 w2 w3 : calm w1 w2 -> calm w2 w3 -> calm w1 w3.
Proof.
  intros (a & b & c) (a' & b' & c'). repeat split; try congruence.
  eapply grows_trans; eassumption.
Qed.

Lemma only_tape_calm w w' : only_tape w w' -> calm w w'.
Proof.
  intro H. pose proof (only_tape_grows H). destruct H as (_ & H1 & _ & H2).
  repeat split; [exact H1 | rewrite H2; reflexivity | assumption].
Qed.

Lemma calm_emit_fetch w r : calm w (emit (EvFetch r) w).
Proof.
  repeat split; simpl.
  - rewrite writes_app. simpl. apply app_nil_r.
  - exists [EvFetch r]. reflexivity.
Qed.

Lemma calm_emit_sleep w n : calm w (emit (EvSleep n) w).
Proof.
  repeat split; simpl.
  - rewrite writes_app. simpl. apply app_nil_r.
  - exists [EvSleep n]. reflexivity.
Qed.

Lemma calm_time_sleep_inverse n : keeps calm (time_sleep_inverse n).
Proof.
  intro w. unfold time_sleep_inverse.
  destruct (n =? 0); [apply calm_refl|].
  destruct (n <? 0); [apply calm_refl|]. simpl. apply calm_emit_sleep.
Qed.

Section Runs.

Variable remote : list event -> request -> fetch_outcome.
Variable json_dumps : value -> string.

Lemma calm_api_fetch e params : keeps calm (api_fetch remote e params).
Proof.
  intro w. unfold api_fetch. destruct (api w); [|apply calm_refl].
  destruct (remote _ _); simpl; apply calm_emit_fetch.
Qed.

Lemma calm_collect_answers self question_id :
  keeps calm (collect_answers_for_question remote self question_id).
Proof.
  unfold collect_answers_for_question. destruct (use_mock_data self).
  - eapply keeps_weaken; [exact only_tape_calm|].
    apply quiet_generate_mock_answers.
  - apply keeps_bind; [exact calm_trans | apply calm_time_sleep_inverse|].
    intros _. apply keeps_try_except; [exact calm_trans | |].
    + apply keeps_bind; [exact calm_trans | apply calm_api_fetch|].
      intro r. apply keeps_ret. exact calm_refl.
    + intro e. apply keeps_ret. exact calm_refl.
Qed.

Lemma calm_set_max_pages n : keeps calm (set_max_pages n).
Proof.
  intro w. unfold set_max_pages. destruct (api w); simpl; [|apply calm_refl].
  repeat split. exists []. simpl. symmetry. apply app_nil_r.
Qed.

Lemma calm_collect_questions self tag min_answers from_date to_date min_score max_count :
  keeps calm
    (collect_questions remote self tag min_answers from_date to_date min_score max_count).
Proof.
  unfold collect_questions. destruct (use_mock_data self).
  - eapply keeps_weaken; [exact only_tape_calm|].
    apply quiet_generate_mock_questions.
  - apply keeps_bind; [exact calm_trans | |].
    { intro w. unfold get_api. destruct (api w); apply calm_refl. }
    intro a. apply keeps_bind; [exact calm_trans | |].
    { unfold floordiv. destruct (_ =? 0);
        [apply keeps_raise | apply keeps_ret]; exact calm_refl. }
    intro pages. apply keeps_bind; [exact calm_trans | apply calm_set_max_pages|].
    intros _. apply keeps_try_except; [exact calm_trans | |].
    + apply keeps_bind; [exact calm_trans | apply calm_api_fetch|].
      intro r. apply keeps_ret. exact calm_refl.
    + intro e. apply keeps_ret. exact calm_refl.
Qed.

(** A successful [save_to_json] wrote the serialised data at the path;
    a failed one wrote nothing. *)
Lemma save_to_json_run data file_path w r w' :
  save_to_json json_dumps data file_path w = (r, w') ->
  tape w' = tape w /\ clock w' = clock w /\ api w' = api w /\
  match r with
  | Ok _ =>
      trace w' = (trace w ++ [EvWrite file_path (json_dumps (VList data))])%list /\
      read_file (files (fs w')) file_path = Some (json_dumps (VList data))
  | Raise _ => trace w' = trace w /\ files (fs w') = files (fs w)
  end.
Proof.
  unfold save_to_json, bind, os_makedirs, open_write.
  destruct (is_empty (os_path_dirname file_path)).
  { intro E. inversion E; subst. auto. }
  destruct (is_file (fs w) (os_path_dirname file_path)).
  { intro E. inversion E; subst. auto. }
  destruct (existsb _ _).
  { intro E. inversion E; subst. auto. }
  cbn [fs set_fs dirs files].
  destruct (is_empty file_path).
  { intro E. inversion E; subst. simpl. auto. }
  destruct (_ || _)%bool.
  { intro E. inversion E; subst. simpl. auto. }
  destruct (_ && _)%bool.
  { intro E. inversion E; subst. simpl. auto. }
  intro E. inversion E; subst. simpl.
  repeat split. apply read_put_file.
Qed.

Lemma save_temp_returns data k w :
  fs_ready (fs w) ->
  returns (save_to_json json_dumps data (temp_path k)) w
    (fun _ w' =>
       fs_ready (fs w') /\ api w' = api w /\
       trace w' = (trace w ++ [EvWrite (temp_path k) (json_dumps (VList data))])%list).
Proof.
  intros (Hdata & Hraw & Hdirs).
  unfold returns, save_to_json, bind, os_makedirs, open_write.
  rewrite dirname_temp_path.
  change (is_empty "data/raw") with false. cbv iota.
  rewrite Hraw.
  change (ancestors "data/raw") with ["data"; "data/raw"].
  cbn [existsb]. rewrite Hdata, Hraw. cbn [orb].
  cbn [fs set_fs dirs files fold_left].
  rewrite temp_path_not_empty, temp_path_not_dir_like.
  unfold is_dir at 1. cbn [dirs].
  rewrite !existsb_add_dir.
  fold (is_dir (fs w) (temp_path k)). rewrite Hdirs.
  rewrite temp_path_neq_data, temp_path_neq_data_raw. cbn [orb].
  change (is_empty "data/raw") with false. cbn [negb andb].
  unfold is_dir. cbn [dirs]. rewrite !existsb_add_dir.
  rewrite String.eqb_refl, orb_true_r. cbn [negb].
  split; [|split; reflexivity].
  unfold fs_ready, is_file, is_dir. cbn [fs set_fs emit dirs files].
  rewrite !put_file_names.
  fold (is_file (fs w) "data"). fold (is_file (fs w) "data/raw").
  rewrite Hdata, Hraw.
  rewrite (String.eqb_sym "data"), (String.eqb_sym "data/raw").
  rewrite temp_path_neq_data, temp_path_neq_data_raw.
  split; [reflexivity|]. split; [reflexivity|].
  intro k'. rewrite !existsb_add_dir.
  fold (is_dir (fs w) (temp_path k')). rewrite Hdirs.
  rewrite temp_path_neq_data, temp_path_neq_data_raw. reflexivity.
Qed.

End Runs.

(** ** The loop of the pipeline *)

Lemma dict_get_set_same d k v : dict_get (dict_set d k v) k = Some v.
Proof.
  induction d as [|[k' v'] d IH]; simpl.
  - rewrite String.eqb_refl. reflexivity.
  - destruct (String.eqb_spec k k') as [->|Hk]; simpl.
    + rewrite String.eqb_refl. reflexivity.
    + destruct (String.eqb_spec k k'); [contradiction | exact IH].
Qed.

Lemma dict_get_set_other d k v k' :
  k' <> k -> dict_get (dict_set d k v) k' = dict_get d k'.
Proof.
  intro Hk. induction d as [|[k0 v0] d IH]; simpl.
  - destruct (String.eqb_spec k' k); [contradiction | reflexivity].
  - destruct (String.eqb_spec k k0) as [->|Hk0]; simpl.
    + destruct (String.eqb_spec k' k0); [contradiction | reflexivity].
    + destruct (String.eqb k' k0); [reflexivity | exact IH].
Qed.

Section LoopReturns.

Variable remote : list event -> request -> fetch_outcome.
Variable json_dumps : value -> string.
Variable self : StackExchangeCollector.

Variable Inv : world -> Prop.
Variable ok_id : value -> Prop.
Variable R : value -> list value -> world -> Prop.

Hypothesis R_stable :
  forall question_id answers w w',
    R question_id answers w -> grows w w' -> R question_id answers w'.

Hypothesis answers_ok :
  forall question_id w, ok_id question_id -> Inv w ->
    returns (collect_answers_for_question remote self question_id) w
      (fun answers w' => R question_id answers w' /\ Inv w' /\ grows w w').

Hypothesis save_ok :
  forall data k w, Inv w ->
    returns (save_to_json json_dumps data (temp_path k)) w
      (fun _ w' => Inv w' /\ grows w w').

Lemma merged_stable w w' q r : merged R w q r -> grows w w' -> merged R w' q r.
Proof.
  intros (d & qid & ans & H1 & H2 & H3 & H4) Hg.
  exists d, qid, ans. repeat split; try assumption. eapply R_stable; eassumption.
Qed.

Lemma collect_loop_returns questions :
  forall acc total i w,
    Forall (identified ok_id) questions -> Inv w ->
    returns (collect_loop remote json_dumps self total i questions acc) w
      (fun res w' =>
         (exists new, res = (acc ++ new)%list /\ Forall2 (merged R w') questions new) /\
         Inv w' /\ grows w w').
Proof.
  induction questions as [|q rest IH]; intros acc total i w Hq Hw.
  - simpl. apply returns_ret. split; [|split; [exact Hw | apply grows_refl]].
    exists []. split; [symmetry; apply app_nil_r | constructor].
  - inversion Hq as [|? ? (d & qid & -> & Hid & Hok) Hrest]; subst.
    cbn [collect_loop]. unfold getitem at 1. rewrite Hid.
    apply returns_bind, returns_ret.
    apply returns_bind. eapply returns_weaken; [apply answers_ok; assumption|].
    cbv beta. intros answers w1 (HR & Hw1 & Hg1).
    unfold setitem at 1. apply returns_bind, returns_ret.
    set (q' := VDict (dict_set d "answers" (VList answers))).
    assert (Hsave :
      returns (if (((i + 1) mod 10 =? 0) || (i =? total - 1))%bool
               then save_to_json json_dumps (acc ++ [q']) (temp_path (i + 1))
               else ret tt) w1 (fun _ w2 => Inv w2 /\ grows w1 w2)).
    { destruct (_ || _)%bool.
      - apply save_ok. exact Hw1.
      - apply returns_ret. split; [exact Hw1 | apply grows_refl]. }
    apply returns_bind. eapply returns_weaken; [exact Hsave|].
    cbv beta. intros _ w2 (Hw2 & Hg2).
    eapply returns_weaken; [apply IH; assumption|].
    cbv beta. intros res w3 ((new & -> & HF) & Hw3 & Hg3).
    split; [|split; [exact Hw3 | eauto using grows_trans]].
    exists (q' :: new). split; [rewrite <- app_assoc; reflexivity|].
    constructor; [|exact HF].
    apply merged_stable with (w := w1); [|eauto using grows_trans].
    exists d, qid, answers. repeat split; assumption.
Qed.

End LoopReturns.

(** ** Checkpoints *)

Lemma getitem_run v k w r w' : getitem v k w = (r, w') -> w' = w.
Proof.
  unfold getitem. destruct v; try (intro E; inversion E; reflexivity).
  destruct (dict_get d k); intro E; inversion E; reflexivity.
Qed.

Section LoopWrites.

Variable remote : list event -> request -> fetch_outcome.
Variable json_dumps : value -> string.
Variable self : StackExchangeCollector.

Lemma collect_loop_writes questions :
  forall acc total i w res w',
    collect_loop remote json_dumps self total i questions acc w = (Ok res, w') ->
    i = Z.of_nat (List.length acc) ->
    total = Z.of_nat (List.length acc + List.length questions) ->
    exists new,
      res = (acc ++ new)%list /\
      List.length new = List.length questions /\
      Forall (fun r => answers_merged r = true) new /\
      writes (trace w')
      = (writes (trace w)
         ++ map (checkpoint_of json_dumps res)
              (filter (is_checkpoint total) (range (i + 1) (total + 1))))%list.
Proof.
  induction questions as [|q rest IH]; intros acc total i w res w' Hrun Hi Htotal.
  - simpl in Hrun. inversion Hrun; subst. exists []. rewrite app_nil_r.
    repeat split; [constructor|].
    simpl. rewrite Nat.add_0_r.
    unfold range. replace (Z.to_nat _) with O by lia. simpl.
    symmetry. apply app_nil_r.
  - cbn [collect_loop] in Hrun. unfold bind in Hrun.
    destruct (getitem q "question_id" w) as [[qid|e] w0] eqn:E0; [|discriminate].
    pose proof (getitem_run _ _ _ E0); subst w0.
    destruct q as [| | | | |d]; try discriminate E0.
    destruct (collect_answers_for_question remote self qid w)
      as [[answers|e] w1] eqn:E1; [|discriminate].
    pose proof (@keeps_run _ _ _ _ _ _ (calm_collect_answers remote self qid) E1)
      as (_ & Hwr1 & _).
    cbn [setitem ret] in Hrun.
    set (q' := VDict (dict_set d "answers" (VList answers))) in *.
    set (cond := (((i + 1) mod 10 =? 0) || (i =? total - 1))%bool) in *.
    assert (Hcond : cond = is_checkpoint total (i + 1)).
    { unfold cond, is_checkpoint. f_equal.
      destruct (Z.eqb_spec i (total - 1)), (Z.eqb_spec (i + 1) total); auto; lia. }
    destruct ((if cond
               then save_to_json json_dumps (acc ++ [q']) (temp_path (i + 1))
               else ret tt) w1) as [[[]|e] w2] eqn:E2; [|discriminate].
    assert (Hlen' : i + 1 = Z.of_nat (List.length (acc ++ [q'])))
      by (rewrite length_app; simpl; lia).
    destruct (IH (acc ++ [q'])%list total (i + 1) w2 res w' Hrun Hlen')
      as (new & Hres & Hnew & Hmerged & Hwrites).
    { rewrite length_app. simpl in *. lia. }
    exists (q' :: new).
    split; [rewrite Hres, <- app_assoc; reflexivity|].
    split; [simpl; rewrite Hnew; reflexivity|].
    split.
    { constructor; [|exact Hmerged].
      unfold answers_merged, q', field. rewrite dict_get_set_same. reflexivity. }
    rewrite Hwrites. simpl in Htotal.
    rewrite (range_cons (a := i + 1) (b := total + 1)) by lia.
    cbn [filter]. rewrite <- Hcond.
    assert (Hfirst : firstn (Z.to_nat (i + 1)) res = (acc ++ [q'])%list).
    { rewrite Hres, Hlen', Nat2Z.id, firstn_app, Nat.sub_diag, firstn_all.
      simpl. apply app_nil_r. }
    destruct cond.
    + destruct (save_to_json_run _ _ _ _ E2) as (_ & _ & _ & Htr & _).
      rewrite Htr, writes_app, Hwr1. simpl.
      unfold checkpoint_of at 2. rewrite Hfirst, <- app_assoc. reflexivity.
    + inversion E2; subst w2. rewrite Hwr1. reflexivity.
Qed.

End LoopWrites.

(** ** The pipeline in mock mode *)

Lemma question_at_identified i q : question_at i q -> identified is_int q.
Proof.
  intros (Hid & _). destruct q as [| | | | |d]; try discriminate Hid.
  exists d, (VInt i). repeat split; [exact Hid | exists i; reflexivity].
Qed.

Lemma merged_has_answers w q r : merged non_empty w q r -> has_answers r = true.
Proof.
  intros (d & qid & answers & _ & _ & Hne & ->).
  unfold has_answers, field. rewrite dict_get_set_same.
  destruct answers; [contradiction | reflexivity].
Qed.

Section MockPipeline.

Variable remote : list event -> request -> fetch_outcome.
Variable json_dumps : value -> string.
Variable self : StackExchangeCollector.
Hypothesis mock : use_mock_data self = true.

Lemma mock_answers_ok question_id w :
  is_int question_id -> fs_ready (fs w) ->
  returns (collect_answers_for_question remote self question_id) w
    (fun answers w' =>
       non_empty question_id answers w' /\ fs_ready (fs w') /\ grows w w').
Proof.
  intros [z ->] Hfs. unfold collect_answers_for_question. rewrite mock.
  eapply returns_weaken; [apply mock_answers_returns|].
  cbv beta. intros answers w' ((n & Hn & HF) & Hw).
  split; [|split; [|apply only_tape_grows; exact Hw]].
  - apply Forall2_length in HF. rewrite range_length in HF.
    unfold non_empty. destruct answers; [simpl in HF; lia | discriminate].
  - destruct Hw as (_ & -> & _). exact Hfs.
Qed.

Lemma mock_save_ok data k w :
  fs_ready (fs w) ->
  returns (save_to_json json_dumps data (temp_path k)) w
    (fun _ w' => fs_ready (fs w') /\ grows w w').
Proof.
  intro Hfs. eapply returns_weaken; [apply save_temp_returns; exact Hfs|].
  cbv beta. intros _ w' (Hfs' & _ & Htr). split; [exact Hfs'|].
  eexists. exact Htr.
Qed.

Lemma mock_pipeline_returns tag min_answers from_date to_date min_score max_count w :
  fs_ready (fs w) ->
  returns
    (collect_questions_with_answers remote json_dumps self tag min_answers
       from_date to_date min_score max_count) w
    (fun res _ =>
       List.length res = Z.to_nat max_count /\
       Forall (fun q => has_answers q = true) res).
Proof.
  intro Hfs. unfold collect_questions_with_answers, collect_questions.
  rewrite mock. apply returns_bind.
  eapply returns_weaken; [apply mock_questions_returns|].
  cbv beta. intros questions w1 (HF & Hw1).
  assert (Hlen : List.length questions = Z.to_nat max_count).
  { apply Forall2_length in HF. rewrite range_length in HF.
    rewrite <- HF. f_equal. lia. }
  destruct questions as [|q rest] eqn:Hq.
  { apply returns_ret. split; [exact Hlen | constructor]. }
  rewrite <- Hq in *. clear Hq q rest.
  assert (Hfs1 : fs_ready (fs w1)) by (destruct Hw1 as (_ & -> & _); exact Hfs).
  assert (Hids : Forall (identified is_int) questions).
  { clear - HF. induction HF; constructor; eauto using question_at_identified. }
  eapply returns_weaken.
  - apply collect_loop_returns
      with (Inv := fun w => fs_ready (fs w)) (ok_id := is_int) (R := non_empty);
      [ intros; assumption | apply mock_answers_ok | apply mock_save_ok
      | exact Hids | exact Hfs1 ].
  - cbv beta. intros res w2 ((new & -> & Hnew) & _ & _). simpl.
    split; [apply Forall2_length in Hnew; congruence|].
    clear - Hnew. induction Hnew; constructor; eauto using merged_has_answers.
Qed.

(** C1: in mock mode, [collect_questions_with_answers] with
    [max_count = K > 0] returns exactly [K] questions, whatever the tag,
    and each of them carries a non-empty list of answers, provided the
    checkpoints can be written under [data/raw]. *)
Theorem mock_pipeline_count :
  forall (tag : string) (min_answers : Z) (from_date to_date : option Z)
         (min_score K : Z) (w : world),
    0 < K ->
    fs_ready (fs w) ->
    exists res w',
      collect_questions_with_answers remote json_dumps self tag min_answers
        from_date to_date min_score K w = (Ok res, w') /\
      Z.of_nat (List.length res) = K /\
      Forall (fun q => has_answers q = true) res.
Proof.
  intros tag min_answers from_date to_date min_score K w HK Hfs.
  destruct (returns_inv _ _ _
              (@mock_pipeline_returns tag min_answers from_date to_date min_score K w Hfs))
    as (res & w' & Hrun & Hlen & Hans).
  exists res, w'. split; [exact Hrun|]. split; [lia | exact Hans].
Qed.

End MockPipeline.

(** ** Checkpoints of a run *)

Lemma checkpoints_spec total k :
  In k (checkpoints total) <-> 1 <= k <= total /\ (k mod 10 = 0 \/ k = total).
Proof.
  unfold checkpoints, is_checkpoint. rewrite filter_In, orb_true_iff, !Z.eqb_eq.
  split.
  - intros [Hk Hc]. apply range_In in Hk. split; [lia | exact Hc].
  - intros [Hk Hc]. split; [|exact Hc].
    unfold range. apply in_map_iff. exists (Z.to_nat (k - 1)).
    split; [lia|]. apply in_seq. lia.
Qed.

Lemma Forall_firstn_keeps A (P : A -> Prop) (l : list A) n :
  Forall P l -> Forall P (firstn n l).
Proof.
  intro H. revert n. induction H as [|x l Hx _ IH]; intro n.
  - rewrite firstn_nil. constructor.
  - destruct n; simpl; constructor; [exact Hx | apply IH].
Qed.

Section PipelineWrites.

Variable remote : list event -> request -> fetch_outcome.
Variable json_dumps : value -> string.
Variable self : StackExchangeCollector.

(** What a successful run wrote, and that every returned record has its
    answers merged. *)
Lemma pipeline_writes tag min_answers from_date to_date min_score max_count w res w' :
  collect_questions_with_answers remote json_dumps self tag min_answers
    from_date to_date min_score max_count w = (Ok res, w') ->
  writes (trace w')
  = (writes (trace w)
     ++ map (checkpoint_of json_dumps res)
          (checkpoints (Z.of_nat (List.length res))))%list /\
  Forall (fun r => answers_merged r = true) res.
Proof.
  unfold collect_questions_with_answers, bind. intro Hrun.
  destruct (collect_questions remote self tag min_answers from_date to_date
              min_score max_count w) as [[questions|e] w1] eqn:E1; [|discriminate].
  pose proof (@keeps_run _ _ _ _ _ _
                (calm_collect_questions remote self tag min_answers from_date
                   to_date min_score max_count) E1) as (_ & Hwr1 & _).
  destruct questions as [|q rest] eqn:Hq.
  { inversion Hrun; subst. simpl. rewrite Hwr1, app_nil_r.
    split; [reflexivity | constructor]. }
  rewrite <- Hq in *. clear Hq q rest.
  destruct (@collect_loop_writes remote json_dumps self questions []
              (Z.of_nat (List.length questions)) 0 w1 res w' Hrun eq_refl eq_refl)
    as (new & Hres & Hlen & Hmerged & Hwrites).
  simpl in Hres. subst new.
  rewrite Hwrites, Hwr1, Hlen. split; [reflexivity | exact Hmerged].
Qed.

(** In mock mode a successful run returns [max_count] records. *)
Lemma mock_run_length tag min_answers from_date to_date min_score max_count w res w' :
  use_mock_data self = true ->
  collect_questions_with_answers remote json_dumps self tag min_answers
    from_date to_date min_score max_count w = (Ok res, w') ->
  List.length res = Z.to_nat max_count.
Proof.
  intros mock. unfold collect_questions_with_answers, bind, collect_questions.
  rewrite mock. intro Hrun.
  pose proof (mock_questions_returns max_count w) as Hq. unfold returns in Hq.
  destruct (_generate_mock_questions max_count w) as [[questions|e] w1];
    [|contradiction].
  destruct Hq as [HF _]. apply Forall2_length in HF. rewrite range_length in HF.
  replace (Z.to_nat (max_count + 1 - 1)) with (Z.to_nat max_count) in HF by (f_equal; lia).
  destruct questions as [|q rest] eqn:Hq.
  { inversion Hrun; subst. symmetry. exact HF. }
  rewrite <- Hq in *. clear Hq q rest.
  destruct (@collect_loop_writes remote json_dumps self questions []
              (Z.of_nat (List.length questions)) 0 w1 res w' Hrun eq_refl eq_refl)
    as (new & Hres & Hlen & _).
  simpl in Hres. subst new. congruence.
Qed.

(** C2: a run of [collect_questions_with_answers] that processes [N]
    questions writes its checkpoints, in this order, at the temp paths of
    the running counts [k] between 1 and [N] that are multiples of ten or
    equal to [N], and writes nothing else; with [max_count = 25] in mock
    mode these are the counts 10, 20 and 25. *)
Theorem checkpoints_written :
  forall (tag : string) (min_answers : Z) (from_date to_date : option Z)
         (min_score max_count : Z) (w : world) (res : list value) (w' : world),
    collect_questions_with_answers remote json_dumps self tag min_answers
      from_date to_date min_score max_count w = (Ok res, w') ->
    let N := Z.of_nat (List.length res) in
    map fst (writes (trace w'))
    = (map fst (writes (trace w)) ++ map temp_path (checkpoints N))%list /\
    (forall k, In k (checkpoints N) <->
               1 <= k <= N /\ (k mod 10 = 0 \/ k = N)) /\
    (use_mock_data self = true -> max_count = 25 ->
     checkpoints N = [10; 20; 25]).
Proof.
  intros tag min_answers from_date to_date min_score max_count w res w' Hrun N.
  destruct (pipeline_writes _ _ _ _ _ _ _ Hrun) as [Hwrites _].
  split; [|split].
  - rewrite Hwrites, map_app, map_map. reflexivity.
  - intro k. apply checkpoints_spec.
  - intros mock ->. subst N.
    rewrite (mock_run_length _ _ _ _ _ _ _ mock Hrun). reflexivity.
Qed.

(** C7: every checkpoint written during a run is a cumulative prefix of
    the returned sequence: the one written after the [k]-th question is
    the document of exactly the first [k] returned records, and every
    returned record, hence every record of a checkpoint, already carries
    its merged answers. *)
Theorem checkpoints_are_prefixes :
  forall (tag : string) (min_answers : Z) (from_date to_date : option Z)
         (min_score max_count : Z) (w : world) (res : list value) (w' : world),
    collect_questions_with_answers remote json_dumps self tag min_answers
      from_date to_date min_score max_count w = (Ok res, w') ->
    exists written,
      writes (trace w') = (writes (trace w) ++ written)%list /\
      written
      = map (fun k => (temp_path k, json_dumps (VList (firstn (Z.to_nat k) res))))
          (checkpoints (Z.of_nat (List.length res))) /\
      (forall path content, In (path, content) written ->
         exists k : nat,
           (1 <= k <= List.length res)%nat /\
           path = temp_path (Z.of_nat k) /\
           content = json_dumps (VList (firstn k res)) /\
           Forall (fun r => answers_merged r = true) (firstn k res)).
Proof.
  intros tag min_answers from_date to_date min_score max_count w res w' Hrun.
  destruct (pipeline_writes _ _ _ _ _ _ _ Hrun) as [Hwrites Hmerged].
  eexists. split; [exact Hwrites|]. split; [reflexivity|].
  intros path content Hin. apply in_map_iff in Hin.
  destruct Hin as (k & Heq & Hk). apply checkpoints_spec in Hk.
  unfold checkpoint_of in Heq. inversion Heq; subst.
  exists (Z.to_nat k). split; [lia|]. split; [f_equal; lia|].
  split; [reflexivity|].
  apply Forall_firstn_keeps. exact Hmerged.
Qed.

End PipelineWrites.

(** ** Live mode: the question fetcher *)

Lemma slice_to_length A (l : list A) n :
  0 <= n -> Z.of_nat (List.length (slice_to l n)) <= n.
Proof.
  intro Hn. unfold slice_to. destruct (Z.leb_spec 0 n); [|lia].
  rewrite length_firstn. lia.
Qed.

Section Live.

Variable remote : list event -> request -> fetch_outcome.
Variable json_dumps : value -> string.
Variable self : StackExchangeCollector.
Hypothesis live : use_mock_data self = false.

Lemma live_collect_questions_run tag min_answers from_date to_date min_score
    max_count w a :
  api w = Some a ->
  api_page_size a <> 0 ->
  let req := questions_request a tag min_answers from_date to_date min_score max_count in
  let a' := mkStackAPI (api_site a) (api_key a) (api_page_size a) (req_max_pages req) in
  collect_questions remote self tag min_answers from_date to_date min_score max_count w
  = (match remote (trace w) req with
     | FetchOk resp =>
         Ok (if max_count <? Z.of_nat (List.length (items resp))
             then slice_to (items resp) max_count
             else items resp)
     | FetchRaise e => if is_StackAPIError e then Ok [] else Raise e
     end,
     emit (EvFetch req) (set_api (Some a') w)).
Proof.
  intros Hapi Hps req a'.
  unfold collect_questions. rewrite live.
  unfold bind at 1. unfold get_api. rewrite Hapi.
  unfold bind at 1. unfold floordiv.
  destruct (Z.eqb_spec (api_page_size a) 0) as [E|_]; [contradiction|].
  unfold ret at 1. unfold bind at 1. unfold set_max_pages. rewrite Hapi.
  unfold try_except, bind, api_fetch.
  cbn [set_api api trace api_page_size api_max_pages].
  change (mkRequest Questions
            (question_params tag min_answers from_date to_date min_score)
            (api_page_size a)
            ((max_count + api_page_size a - 1) / api_page_size a)) with req.
  destruct (remote (trace w) req) as [resp|e]; [reflexivity|].
  destruct (is_StackAPIError e); reflexivity.
Qed.

(** The handler of [collect_questions] and the error it names: in live
    mode, when the remote fetch of the questions fails with the client's
    [StackAPIError], [collect_questions] does not raise, it returns the
    empty sequence. *)
Theorem collect_questions_degrades :
  forall (tag : string) (min_answers : Z) (from_date to_date : option Z)
         (min_score max_count : Z) (w : world) (a : StackAPI) (msg : string),
    api w = Some a ->
    api_page_size a <> 0 ->
    remote (trace w)
      (questions_request a tag min_answers from_date to_date min_score max_count)
    = FetchRaise (StackAPIError msg) ->
    exists w',
      collect_questions remote self tag min_answers from_date to_date
        min_score max_count w = (Ok [], w').
Proof.
  intros tag min_answers from_date to_date min_score max_count w a msg Hapi Hps Hfail.
  rewrite (live_collect_questions_run tag min_answers from_date to_date min_score
             max_count w Hapi Hps).
  rewrite Hfail. simpl. eexists. reflexivity.
Qed.

(** C5: in live mode with [max_count > 0] and [page_size > 0],
    [collect_questions] sets [max_pages] to the ceiling of
    [max_count / page_size] before it sends its one request; a response
    with more than [max_count] items is cut to its first [max_count]
    items, and no run returns more than [max_count] questions. *)
Theorem collect_questions_pages_and_truncation :
  forall (tag : string) (min_answers : Z) (from_date to_date : option Z)
         (min_score max_count : Z) (w : world) (a : StackAPI),
    api w = Some a ->
    0 < max_count ->
    0 < api_page_size a ->
    let page_size := api_page_size a in
    let pages := (max_count + page_size - 1) / page_size in
    let req := questions_request a tag min_answers from_date to_date min_score max_count in
    (pages - 1) * page_size < max_count <= pages * page_size /\
    req_max_pages req = pages /\
    exists r w',
      collect_questions remote self tag min_answers from_date to_date
        min_score max_count w = (r, w') /\
      trace w' = (trace w ++ [EvFetch req])%list /\
      (exists a', api w' = Some a' /\ api_max_pages a' = pages /\
                  api_page_size a' = page_size) /\
      (forall resp, remote (trace w) req = FetchOk resp ->
         r = Ok (if max_count <? Z.of_nat (List.length (items resp))
                 then firstn (Z.to_nat max_count) (items resp)
                 else items resp)) /\
      (forall questions, r = Ok questions ->
         Z.of_nat (List.length questions) <= max_count).
Proof.
  intros tag min_answers from_date to_date min_score max_count w a Hapi Hmax Hps
    page_size pages req.
  split.
  { subst pages. fold page_size in Hps.
    pose proof (Z.div_mod (max_count + page_size - 1) page_size ltac:(lia)) as Hdm.
    pose proof (Z.mod_pos_bound (max_count + page_size - 1) page_size Hps) as Hb.
    nia. }
  split; [reflexivity|].
  rewrite (live_collect_questions_run tag min_answers from_date to_date min_score
             max_count w Hapi ltac:(lia)).
  fold req. eexists. eexists. split; [reflexivity|].
  split; [reflexivity|].
  split; [eexists; split; [reflexivity | split; reflexivity]|].
  split.
  - intros resp ->. unfold slice_to.
    destruct (Z.leb_spec 0 max_count); [reflexivity | lia].
  - intros questions. destruct (remote (trace w) req) as [resp|e].
    + intro E. inversion E; subst. clear E.
      destruct (Z.ltb_spec max_count (Z.of_nat (List.length (items resp)))).
      * apply slice_to_length. lia.
      * lia.
    + destruct (is_StackAPIError e); intro E; inversion E. simpl. lia.
Qed.

End Live.

(** ** Live mode: error isolation *)

Lemma own_fetch_stable remote a question_id answers w w' :
  own_fetch remote a question_id answers w -> grows w w' ->
  own_fetch remote a question_id answers w'.
Proof.
  intros (before & after & Htr & Hans) [suffix Hg].
  exists before, (after ++ suffix)%list. split; [|exact Hans].
  rewrite Hg, Htr, <- app_assoc. reflexivity.
Qed.

Section LivePipeline.

Variable remote : list event -> request -> fetch_outcome.
Variable json_dumps : value -> string.
Variable self : StackExchangeCollector.
Hypothesis live : use_mock_data self = false.
Hypothesis rate_positive : 0 < rate_limit self.

(** The answer fetcher in live mode never raises: it sleeps, sends its
    request, and degrades a failure of any kind to the empty sequence. *)
Lemma live_answers_run question_id w a :
  api w = Some a ->
  let req := answers_request a question_id in
  collect_answers_for_question remote self question_id w
  = (Ok (degrade (remote (trace w ++ [EvSleep (rate_limit self)])%list req)),
     emit (EvFetch req) (emit (EvSleep (rate_limit self)) w)).
Proof.
  intros Hapi req. unfold collect_answers_for_question. rewrite live.
  unfold bind at 1. unfold time_sleep_inverse.
  destruct (Z.eqb_spec (rate_limit self) 0); [lia|].
  destruct (Z.ltb_spec (rate_limit self) 0); [lia|].
  unfold try_except, bind, api_fetch. cbn [emit api trace]. rewrite Hapi.
  fold (answers_request a question_id). fold req.
  destruct (remote _ req); reflexivity.
Qed.

Lemma live_answers_ok a question_id w :
  any_id question_id ->
  fs_ready (fs w) /\ api w = Some a ->
  returns (collect_answers_for_question remote self question_id) w
    (fun answers w' =>
       own_fetch remote a question_id answers w' /\
       (fs_ready (fs w') /\ api w' = Some a) /\ grows w w').
Proof.
  intros _ [Hfs Hapi]. unfold returns.
  rewrite (live_answers_run question_id w Hapi).
  split; [|split; [split; assumption|]].
  - exists (trace w ++ [EvSleep (rate_limit self)])%list, [].
    split; reflexivity.
  - exists [EvSleep (rate_limit self); EvFetch (answers_request a question_id)].
    simpl. rewrite <- app_assoc. reflexivity.
Qed.

Lemma live_save_ok a data k w :
  fs_ready (fs w) /\ api w = Some a ->
  returns (save_to_json json_dumps data (temp_path k)) w
    (fun _ w' => (fs_ready (fs w') /\ api w' = Some a) /\ grows w w').
Proof.
  intros [Hfs Hapi]. eapply returns_weaken; [apply save_temp_returns; exact Hfs|].
  cbv beta. intros _ w' (Hfs' & Hapi' & Htr).
  split; [split; [exact Hfs' | congruence]|]. eexists. exact Htr.
Qed.

(** C3: in live mode a failing answer fetch, whatever it raises, does
    not abort [collect_questions_with_answers]: the run returns one
    record per fetched question, in order, each being its question with
    the answers of its own request merged in, where a request that raised
    counts for the empty sequence and a request that was answered counts
    for its items. *)
Theorem answer_failures_are_isolated :
  forall (tag : string) (min_answers : Z) (from_date to_date : option Z)
         (min_score max_count : Z) (w : world)
         (questions : list value) (w1 : world) (a : StackAPI),
    collect_questions remote self tag min_answers from_date to_date
      min_score max_count w = (Ok questions, w1) ->
    api w1 = Some a ->
    Forall (identified any_id) questions ->
    fs_ready (fs w) ->
    exists res w',
      collect_questions_with_answers remote json_dumps self tag min_answers
        from_date to_date min_score max_count w = (Ok res, w') /\
      Forall2
        (fun q r =>
           exists d question_id answers,
             q = VDict d /\ dict_get d "question_id" = Some question_id /\
             r = VDict (dict_set d "answers" (VList answers)) /\
             exists before after,
               trace w'
               = (before ++ EvFetch (answers_request a question_id) :: after)%list /\
               answers
               = match remote before (answers_request a question_id) with
                 | FetchOk response => items response
                 | FetchRaise _ => []
                 end)
        questions res.
Proof.
  intros tag min_answers from_date to_date min_score max_count w questions w1 a
    Hq Hapi Hids Hfs.
  pose proof (@keeps_run _ _ _ _ _ _
                (calm_collect_questions remote self tag min_answers from_date
                   to_date min_score max_count) Hq) as (Hfs1 & _ & _).
  unfold collect_questions_with_answers, bind. rewrite Hq.
  destruct questions as [|q rest] eqn:Hqs.
  { exists [], w1. split; [reflexivity | constructor]. }
  rewrite <- Hqs in *. clear Hqs q rest.
  assert (Hloop :
    returns (collect_loop remote json_dumps self
               (Z.of_nat (List.length questions)) 0 questions []) w1
      (fun res w' =>
         (exists new, res = ([] ++ new)%list /\
                      Forall2 (merged (own_fetch remote a) w') questions new) /\
         (fs_ready (fs w') /\ api w' = Some a) /\ grows w1 w')).
  { apply collect_loop_returns with (ok_id := any_id).
    - intros. eapply own_fetch_stable; eassumption.
    - apply live_answers_ok.
    - apply live_save_ok.
    - exact Hids.
    - split; [rewrite Hfs1; exact Hfs | exact Hapi]. }
  apply returns_inv in Hloop.
  destruct Hloop as (res & w' & Hrun & (new & -> & HF) & _ & _).
  exists new, w'. split; [exact Hrun|].
  clear - HF. induction HF as [|q r qs rs Hm _ IH]; constructor; [|exact IH].
  destruct Hm as (d & qid & answers & Hd & Hid & (before & after & Htr & Hans) & Hr).
  exists d, qid, answers. repeat split; try assumption.
  exists before, after. split; [exact Htr | exact Hans].
Qed.

End LivePipeline.


(** ** The JSON codec *)

Section JsonRoundTrip.

Local Open Scope nat_scope.
Local Open Scope char_scope.
Local Open Scope list_scope.


Lemma skip_ws_spaces n s : skip_ws (repeat " " n ++ s) = skip_ws s.
Proof. induction n; simpl; auto. Qed.

Lemma skip_ws_newline_indent level s : skip_ws (newline_indent level ++ s) = skip_ws s.
Proof. unfold newline_indent. simpl. apply skip_ws_spaces. Qed.

Lemma skip_ws_opens c s : opens_value c = true -> skip_ws (c :: s) = c :: s.
Proof.
  unfold opens_value. intro H. simpl. destruct (is_ws c); [discriminate | reflexivity].
Qed.

Lemma parse_value_skip_ws n s1 s2 :
  skip_ws s1 = skip_ws s2 -> parse_value n s1 = parse_value n s2.
Proof. intro H. destruct n; simpl; [reflexivity|]. rewrite H. reflexivity. Qed.

Lemma parse_members_skip_ws n s1 s2 :
  skip_ws s1 = skip_ws s2 -> parse_members n s1 = parse_members n s2.
Proof. intro H. destruct n; simpl; [reflexivity|]. rewrite H. reflexivity. Qed.

Lemma parse_escape_char c tail :
  parse_string_body (escape_char c ++ tail) = prepend [c] (parse_string_body tail).
Proof.
  destruct c as [[] [] [] [] [] [] [] []]; reflexivity.
Qed.

Lemma parse_string_body_escaped cs rest :
  parse_string_body (flat_map escape_char cs ++ quote :: rest) = Some (cs, rest).
Proof.
  induction cs as [|c cs IH]; simpl; [reflexivity|].
  rewrite <- app_assoc, parse_escape_char, IH. reflexivity.
Qed.

Lemma parse_dump_string s rest :
  exists body,
    dump_string s ++ rest = quote :: body /\
    parse_string_body body = Some (list_ascii_of_string s, rest).
Proof.
  exists (flat_map escape_char (list_ascii_of_string s) ++ quote :: rest).
  split; [|apply parse_string_body_escaped].
  unfold dump_string. simpl. rewrite <- app_assoc. reflexivity.
Qed.

(** *** Numbers *)

Lemma uint_chars_are_digits d :
  Forall (fun c => is_number_char c = true)
    (list_ascii_of_string (NilEmpty.string_of_uint d)).
Proof. induction d; simpl; constructor; auto. Qed.

Lemma nzhead_no_leading_zero d :
  match nzhead d with D0 _ => False | _ => True end.
Proof. induction d; simpl; auto. Qed.

Lemma pos_to_uint_normal p : Pos.to_uint p = unorm (Pos.to_uint p).
Proof.
  pose proof (DecimalPos.Unsigned.to_of (Pos.to_uint p)) as H.
  rewrite DecimalPos.Unsigned.of_to in H. simpl in H. exact H.
Qed.

Lemma pos_to_uint_head p :
  match Pos.to_uint p with Nil | D0 _ => False | _ => True end.
Proof.
  pose proof (DecimalPos.Unsigned.to_uint_nonzero p) as Hnz.
  pose proof (pos_to_uint_normal p) as Hn.
  pose proof (nzhead_no_leading_zero (Pos.to_uint p)) as Hh.
  unfold unorm in Hn. destruct (nzhead (Pos.to_uint p)) eqn:E;
    rewrite Hn; try exact I; contradiction.
Qed.

Lemma digits_ok_uint d :
  match d with Nil | D0 _ => False | _ => True end ->
  digits_ok (list_ascii_of_string (NilEmpty.string_of_uint d)) = true.
Proof. destruct d; simpl; intro H; try contradiction; reflexivity. Qed.

Lemma string_of_uint_nonnil d :
  d <> Nil -> NilZero.string_of_uint d = NilEmpty.string_of_uint d.
Proof. destruct d; [congruence | reflexivity..]. Qed.

Lemma str_of_Z_chars z :
  Forall (fun c => is_number_char c = true) (list_ascii_of_string (str_of_Z z)) /\
  number_ok (list_ascii_of_string (str_of_Z z)) = true.
Proof.
  unfold str_of_Z. destruct z as [|p|p]; simpl.
  - split; [repeat constructor | reflexivity].
  - pose proof (pos_to_uint_head p) as Hh.
    rewrite string_of_uint_nonnil by (intro E; rewrite E in Hh; exact Hh).
    split; [apply uint_chars_are_digits|].
    pose proof (digits_ok_uint _ Hh) as Hd.
    destruct (Pos.to_uint p); simpl in *; try contradiction; exact Hd.
  - pose proof (pos_to_uint_head p) as Hh.
    rewrite string_of_uint_nonnil by (intro E; rewrite E in Hh; exact Hh).
    split; [constructor; [reflexivity | apply uint_chars_are_digits]|].
    apply digits_ok_uint. exact Hh.
Qed.

Lemma span_number_app cs rest :
  Forall (fun c => is_number_char c = true) cs ->
  match rest with [] => True | c :: _ => is_number_char c = false end ->
  span_number (cs ++ rest) = (cs, rest).
Proof.
  intros Hcs Hrest. induction Hcs as [|c cs Hc _ IH]; simpl.
  - destruct rest as [|c r]; [reflexivity|]. simpl. rewrite Hrest. reflexivity.
  - rewrite Hc, IH. reflexivity.
Qed.

Lemma int_of_str_of_Z z :
  NilZero.int_of_string (str_of_Z z) = Some (Z.to_int z).
Proof.
  unfold str_of_Z. apply NilZero.isi.
  - destruct z as [|p|p]; simpl; try discriminate.
    intro E. injection E as E. exact (DecimalPos.Unsigned.to_uint_nonnil p E).
  - destruct z as [|p|p]; simpl; try discriminate.
    intro E. injection E as E. exact (DecimalPos.Unsigned.to_uint_nonnil p E).
Qed.

Lemma parse_number_dump z rest :
  number_end rest = true ->
  parse_number (list_ascii_of_string (str_of_Z z) ++ rest) = Some (VInt z, rest).
Proof.
  intro Hend. destruct (str_of_Z_chars z) as [Hchars Hok].
  unfold parse_number. rewrite span_number_app; [|exact Hchars|].
  - rewrite Hok. unfold number_end in Hend.
    assert (Hf : starts_fraction rest = false).
    { destruct rest as [|c r]; [reflexivity|].
      apply andb_true_iff in Hend. destruct Hend as [_ Hf].
      apply negb_true_iff in Hf. exact Hf. }
    rewrite Hf. simpl.
    rewrite string_of_list_ascii_of_string, int_of_str_of_Z, DecimalZ.of_to.
    reflexivity.
  - destruct rest as [|c r]; [exact I|].
    unfold number_end in Hend. apply andb_true_iff in Hend.
    destruct Hend as [Hn _]. apply negb_true_iff in Hn. exact Hn.
Qed.

Lemma number_char_dispatch c :
  is_number_char c = true ->
  opens_value c = true /\
  Ascii.eqb c quote = false /\ Ascii.eqb c "[" = false /\ Ascii.eqb c "{" = false /\
  Ascii.eqb c "n" = false /\ Ascii.eqb c "t" = false /\ Ascii.eqb c "f" = false.
Proof.
  destruct c as [[] [] [] [] [] [] [] []]; intro H;
    try discriminate H; repeat split.
Qed.

Lemma str_of_Z_head z :
  exists c t, list_ascii_of_string (str_of_Z z) = c :: t /\ is_number_char c = true.
Proof.
  destruct (str_of_Z_chars z) as [Hchars Hok].
  destruct (list_ascii_of_string (str_of_Z z)) as [|c t]; [discriminate Hok|].
  exists c, t. split; [reflexivity|]. inversion Hchars; assumption.
Qed.

(** *** Records *)

Lemma dict_set_fresh (d : dict) k v :
  ~ In k (map fst d) -> dict_set d k v = d ++ [(k, v)].
Proof.
  induction d as [|[k' v'] d IH]; simpl; intro H; [reflexivity|].
  destruct (String.eqb_spec k k') as [->|_]; [tauto|].
  rewrite IH by tauto. reflexivity.
Qed.

Lemma unique_keys_NoDup ks : unique_keys ks = true -> NoDup ks.
Proof.
  induction ks as [|k ks IH]; simpl; intro H; [constructor|].
  apply andb_true_iff in H. destruct H as [Hk Hks].
  constructor; [|auto].
  intro Hin. apply negb_true_iff in Hk.
  assert (existsb (String.eqb k) ks = true)
    by (apply existsb_exists; exists k; split; [exact Hin | apply String.eqb_refl]).
  congruence.
Qed.

Lemma fold_dict_set (d2 : list (string * value)) : forall d1 : dict,
  NoDup (map fst (d1 ++ d2)) ->
  fold_left (fun d kx => dict_set d (fst kx) (snd kx)) d2 d1 = d1 ++ d2.
Proof.
  induction d2 as [|[k v] d2 IH]; intros d1 H; simpl.
  - symmetry. apply app_nil_r.
  - rewrite dict_set_fresh.
    + rewrite IH; rewrite <- app_assoc; [reflexivity | exact H].
    + rewrite map_app in H. simpl in H. apply NoDup_remove_2 in H.
      intro Hin. apply H. apply in_or_app. left. exact Hin.
Qed.

Lemma dict_of_members_unique d :
  unique_keys (map fst d) = true -> dict_of_members d = d.
Proof.
  intro H. unfold dict_of_members. rewrite fold_dict_set; [reflexivity|].
  simpl. apply unique_keys_NoDup. exact H.
Qed.

(** *** The round trip *)

Lemma join_comma_cons p parts tail :
  join_comma (p :: parts) ++ tail = p ++ after_part parts tail.
Proof.
  destruct parts as [|q parts]; [reflexivity|].
  change (join_comma (p :: q :: parts)) with (p ++ "," :: join_comma (q :: parts)).
  rewrite <- List.app_assoc. reflexivity.
Qed.

Lemma dump_list_cons level x xs rest :
  dump level (VList (x :: xs)) ++ rest
  = "[" :: join_comma (map (item level) (x :: xs)) ++ newline_indent level ++ "]" :: rest.
Proof.
  change (dump level (VList (x :: xs)))
    with ("[" :: join_comma (map (item level) (x :: xs)) ++ newline_indent level ++ ["]"]).
  rewrite <- List.app_comm_cons, <- !List.app_assoc. reflexivity.
Qed.

Lemma dump_dict_cons level kx d rest :
  dump level (VDict (kx :: d)) ++ rest
  = "{" :: join_comma (map (member level) (kx :: d)) ++ newline_indent level ++ "}" :: rest.
Proof.
  change (dump level (VDict (kx :: d)))
    with ("{" :: join_comma (map (member level) (kx :: d)) ++ newline_indent level ++ ["}"]).
  rewrite <- List.app_comm_cons, <- !List.app_assoc. reflexivity.
Qed.

Lemma dump_head level v :
  exists c t, dump level v = c :: t /\ opens_value c = true.
Proof.
  destruct v as [|[]|z|s|[|x xs]|[|kx d]]; try (eexists; eexists; split; reflexivity).
  destruct (str_of_Z_head z) as (c & t & E & Hc).
  exists c, t. split; [exact E|]. apply number_char_dispatch. exact Hc.
Qed.

Lemma skip_ws_dump level v rest :
  exists c t, dump level v = c :: t /\ opens_value c = true /\
              skip_ws (dump level v ++ rest) = c :: t ++ rest.
Proof.
  destruct (dump_head level v) as (c & t & E & Hc).
  exists c, t. split; [exact E|]. split; [exact Hc|].
  rewrite E. simpl app. apply skip_ws_opens. exact Hc.
Qed.

Lemma number_end_after_part parts tail level :
  tail = newline_indent level ++ [] \/ (exists t, tail = newline :: t) ->
  number_end (after_part parts tail) = true.
Proof.
  intros [->|[t ->]]; destruct parts; reflexivity.
Qed.

Lemma skip_ws_comma r : skip_ws ("," :: r) = "," :: r.
Proof. reflexivity. Qed.

Lemma after_part_cons p parts tail :
  after_part (p :: parts) tail = "," :: join_comma (p :: parts) ++ tail.
Proof. reflexivity. Qed.

Lemma parse_items_last n s v level tail :
  parse_value n s = Some (v, newline_indent level ++ "]" :: tail) ->
  parse_items (S n) s = Some ([v], tail).
Proof.
  intros H. cbn [parse_items]. rewrite H.
  rewrite skip_ws_newline_indent. reflexivity.
Qed.

Lemma parse_items_more n s v r l tail :
  parse_value n s = Some (v, "," :: r) ->
  parse_items n r = Some (l, tail) ->
  parse_items (S n) s = Some (v :: l, tail).
Proof.
  intros H1 H2. cbn [parse_items]. rewrite H1.
  change (skip_ws ("," :: r)) with ("," :: r).
  change (Ascii.eqb "," ",") with true. cbv iota. rewrite H2. reflexivity.
Qed.

Lemma parse_items_dump level rest (l : list value) :
  Forall round_trips l -> l <> [] ->
  forall n,
    list_sum (map (fun x => S (size x)) l) <= n ->
    forallb json_wf l = true ->
    parse_items n (join_comma (map (item level) l) ++ newline_indent level ++ "]" :: rest)
    = Some (l, rest).
Proof.
  induction 1 as [|x xs Hx _ IH]; [congruence|]. intros _ n Hn Hwf.
  simpl in Hn, Hwf. apply andb_true_iff in Hwf. destruct Hwf as [Hwx Hwxs].
  destruct n as [|n]; [lia|].
  cbn [map]. rewrite join_comma_cons. unfold item at 1.
  rewrite <- List.app_assoc.
  set (T := after_part (map (item level) xs) (newline_indent level ++ "]" :: rest)).
  assert (Hval : parse_value n (newline_indent (S level) ++ dump (S level) x ++ T)
                 = Some (x, T)).
  { rewrite (parse_value_skip_ws n _ _ (skip_ws_newline_indent (S level) _)).
    apply Hx; [lia | exact Hwx |]. subst T. destruct xs; reflexivity. }
  destruct xs as [|y ys].
  - eapply parse_items_last. exact Hval.
  - eapply parse_items_more; [exact Hval|].
    apply IH; [discriminate | simpl in *; lia | exact Hwxs].
Qed.

Lemma parse_members_step n s k body x r1 :
  skip_ws s = quote :: body ->
  parse_string_body body = Some (list_ascii_of_string k, ":" :: " " :: r1) ->
  forall T, parse_value n r1 = Some (x, T) ->
  parse_members (S n) s
  = match skip_ws T with
    | c :: r4 =>
        if Ascii.eqb c "," then
          match parse_members n r4 with
          | Some (d, rest) => Some ((k, x) :: d, rest)
          | None => None
          end
        else if Ascii.eqb c "}" then Some ([(k, x)], r4)
        else None
    | [] => None
    end.
Proof.
  intros Hs Hbody T Hval. cbn [parse_members]. rewrite Hs.
  change (Ascii.eqb quote quote) with true. cbv iota. rewrite Hbody.
  change (skip_ws (":" :: " " :: r1)) with (":" :: " " :: r1).
  change (Ascii.eqb ":" ":") with true. cbv iota.
  assert (Hsp : skip_ws (" " :: r1) = skip_ws r1) by reflexivity.
  rewrite (parse_value_skip_ws n _ _ Hsp), Hval.
  rewrite string_of_list_ascii_of_string. reflexivity.
Qed.

Lemma parse_members_dump level rest (d : list (string * value)) :
  Forall (fun kx => round_trips (snd kx)) d -> d <> [] ->
  forall n,
    list_sum (map (fun kx => S (size (snd kx))) d) <= n ->
    forallb (fun kx => json_wf (snd kx)) d = true ->
    parse_members n
      (join_comma (map (member level) d) ++ newline_indent level ++ "}" :: rest)
    = Some (d, rest).
Proof.
  induction 1 as [|[k x] d Hx _ IH]; [congruence|]. intros _ n Hn Hwf.
  simpl in Hn, Hwf, Hx. apply andb_true_iff in Hwf. destruct Hwf as [Hwx Hwd].
  destruct n as [|n]; [lia|].
  cbn [map]. rewrite join_comma_cons. unfold member at 1. cbn [fst snd].
  rewrite <- !List.app_assoc.
  set (T := after_part (map (member level) d) (newline_indent level ++ "}" :: rest)).
  destruct (parse_dump_string k ((":" :: " " :: dump (S level) x) ++ T))
    as (body & E & Hbody).
  assert (Hval : parse_value n (dump (S level) x ++ T) = Some (x, T)).
  { apply Hx; [lia | exact Hwx |]. subst T. destruct d; reflexivity. }
  assert (Hs : skip_ws (newline_indent (S level) ++ dump_string k
                         ++ (":" :: " " :: dump (S level) x) ++ T) = quote :: body).
  { rewrite skip_ws_newline_indent, E. reflexivity. }
  cbn [app] in Hs |- *.
  rewrite (@parse_members_step n _ k body x _ Hs Hbody T Hval).
  subst T. destruct d as [|kx d'].
  - cbn [map after_part]. rewrite skip_ws_newline_indent. reflexivity.
  - cbn [map]. rewrite after_part_cons.
    rewrite skip_ws_comma.
    change (Ascii.eqb "," ",") with true. cbv iota.
    change (member level kx :: map (member level) d')
      with (map (member level) (kx :: d')).
    rewrite IH; [reflexivity | discriminate | simpl in *; lia | exact Hwd].
Qed.

Lemma parse_value_string n body cs rest :
  parse_string_body body = Some (cs, rest) ->
  parse_value (S n) (quote :: body) = Some (VStr (string_of_list_ascii cs), rest).
Proof. intro H. cbn [parse_value]. change (skip_ws (quote :: body)) with (quote :: body).
  change (Ascii.eqb quote quote) with true. cbv iota. rewrite H. reflexivity.
Qed.

Lemma parse_value_number n c t :
  is_number_char c = true ->
  parse_value (S n) (c :: t) = parse_number (c :: t).
Proof.
  intro H. destruct (number_char_dispatch c H) as (Ho & E1 & E2 & E3 & E4 & E5 & E6).
  cbn [parse_value]. rewrite (skip_ws_opens c t Ho).
  rewrite E1, E2, E3, E4, E5, E6, H. reflexivity.
Qed.

Lemma parse_value_list n r c t l rest :
  skip_ws r = c :: t -> Ascii.eqb c "]" = false ->
  parse_items n r = Some (l, rest) ->
  parse_value (S n) ("[" :: r) = Some (VList l, rest).
Proof.
  intros Hs Hc Hitems. cbn [parse_value].
  change (skip_ws ("[" :: r)) with ("[" :: r).
  change (Ascii.eqb "[" quote) with false. change (Ascii.eqb "[" "[") with true.
  cbv iota. rewrite Hs, Hc, Hitems. reflexivity.
Qed.

Lemma parse_value_dict n r c t d rest :
  skip_ws r = c :: t -> Ascii.eqb c "}" = false ->
  parse_members n r = Some (d, rest) ->
  parse_value (S n) ("{" :: r) = Some (VDict (dict_of_members d), rest).
Proof.
  intros Hs Hc Hmembers. cbn [parse_value].
  change (skip_ws ("{" :: r)) with ("{" :: r).
  change (Ascii.eqb "{" quote) with false. change (Ascii.eqb "{" "[") with false.
  change (Ascii.eqb "{" "{") with true.
  cbv iota. rewrite Hs, Hc, Hmembers. reflexivity.
Qed.

Lemma opens_not_closing c :
  opens_value c = true -> Ascii.eqb c "]" = false /\ Ascii.eqb c "}" = false.
Proof.
  unfold opens_value. intro H.
  apply andb_true_iff in H. destruct H as [H H2].
  apply andb_true_iff in H. destruct H as [_ H1].
  apply negb_true_iff in H1, H2. split; assumption.
Qed.

Lemma parse_dump v : round_trips v.
Proof.
  induction v using value_nested_ind; intros n level rest Hn Hwf Hend;
    (destruct n as [|n]; [simpl in Hn; lia|]).
  - reflexivity.
  - destruct b; reflexivity.
  - destruct (str_of_Z_head z) as (c & t & E & Hc).
    change (dump level (VInt z)) with (list_ascii_of_string (str_of_Z z)).
    pose proof (parse_number_dump z rest Hend) as Hnum.
    rewrite E in *. rewrite <- List.app_comm_cons in *.
    rewrite parse_value_number by exact Hc. exact Hnum.
  - destruct (parse_dump_string s rest) as (body & E & Hbody).
    change (dump level (VStr s)) with (dump_string s). rewrite E.
    rewrite (parse_value_string n _ Hbody), string_of_list_ascii_of_string.
    reflexivity.
  - destruct l as [|x xs]; [reflexivity|].
    rewrite dump_list_cons.
    assert (Hopen : exists c t,
      skip_ws (join_comma (map (item level) (x :: xs)) ++ newline_indent level ++ "]" :: rest)
      = c :: t /\ Ascii.eqb c "]" = false).
    { cbn [map]. rewrite join_comma_cons. unfold item at 1.
      rewrite <- List.app_assoc, skip_ws_newline_indent.
      destruct (skip_ws_dump (S level) x
                  (after_part (map (item level) xs) (newline_indent level ++ "]" :: rest)))
        as (c & t & _ & Hc & ->).
      eexists. eexists. split; [reflexivity|]. apply opens_not_closing. exact Hc. }
    destruct Hopen as (c & t & Hs & Hc).
    apply (parse_value_list n _ Hs Hc).
    apply parse_items_dump; [exact H | discriminate | | exact Hwf].
    simpl in Hn. simpl. lia.
  - destruct d as [|kx d]; [reflexivity|].
    rewrite dump_dict_cons.
    simpl in Hwf. apply andb_true_iff in Hwf. destruct Hwf as [Hkeys Hwf].
    assert (Hopen : exists c t,
      skip_ws (join_comma (map (member level) (kx :: d)) ++ newline_indent level ++ "}" :: rest)
      = c :: t /\ Ascii.eqb c "}" = false).
    { cbn [map]. rewrite join_comma_cons. unfold member at 1.
      rewrite <- List.app_assoc, skip_ws_newline_indent.
      eexists. eexists. split; reflexivity. }
    destruct Hopen as (c & t & Hs & Hc).
    rewrite (@parse_value_dict n _ c t (kx :: d) rest Hs Hc).
    + rewrite dict_of_members_unique by exact Hkeys. reflexivity.
    + apply parse_members_dump; [exact H | discriminate | | exact Hwf].
      simpl in Hn. simpl. lia.
Qed.

Lemma join_comma_length parts :
  list_sum (map (@List.length ascii) parts) <= List.length (join_comma parts).
Proof.
  induction parts as [|p parts IH]; [simpl; lia|].
  destruct parts as [|q parts].
  - simpl. lia.
  - change (join_comma (p :: q :: parts)) with (p ++ "," :: join_comma (q :: parts)).
    rewrite length_app. simpl in *. lia.
Qed.

Lemma list_sum_cons a l : list_sum (a :: l) = a + list_sum l.
Proof. reflexivity. Qed.

Lemma size_le_dump v : forall level, size v <= List.length (dump level v).
Proof.
  induction v using value_nested_ind; intro level.
  - simpl. lia.
  - destruct b; simpl; lia.
  - destruct (dump_head level (VInt z)) as (c & t & E & _). rewrite E. simpl. lia.
  - simpl. lia.
  - destruct l as [|x xs]; [simpl; lia|].
    pose proof (dump_list_cons level x xs []) as E. rewrite List.app_nil_r in E.
    rewrite E. cbn [size List.length]. rewrite length_app.
    pose proof (join_comma_length (map (item level) (x :: xs))) as Hj.
    assert (Hsum : list_sum (map (fun x => S (size x)) (x :: xs))
                   <= list_sum (map (@List.length ascii) (map (item level) (x :: xs)))).
    { clear - H. induction H as [|y ys Hy _ IH]; [simpl; lia|].
      cbn [map]. unfold item at 1. rewrite length_app.
      specialize (Hy (S level)). unfold newline_indent. simpl List.length.
      rewrite !list_sum_cons. lia. }
    lia.
  - destruct d as [|kx d]; [simpl; lia|].
    pose proof (dump_dict_cons level kx d []) as E. rewrite List.app_nil_r in E.
    rewrite E. cbn [size List.length]. rewrite length_app.
    pose proof (join_comma_length (map (member level) (kx :: d))) as Hj.
    assert (Hsum : list_sum (map (fun kx => S (size (snd kx))) (kx :: d))
                   <= list_sum (map (@List.length ascii) (map (member level) (kx :: d)))).
    { clear - H. induction H as [|y ys Hy _ IH]; [simpl; lia|].
      cbn [map]. unfold member at 1. rewrite !length_app.
      specialize (Hy (S level)). unfold newline_indent. simpl List.length.
      rewrite !list_sum_cons. lia. }
    lia.
Qed.

(** The decoder undoes the encoder on every value without repeated keys. *)
Lemma py_json_loads_dumps v :
  json_wf v = true -> py_json_loads (py_json_dumps v) = Some v.
Proof.
  intro Hwf. unfold py_json_loads, py_json_dumps.
  rewrite list_ascii_of_string_of_list_ascii.
  pose proof (@parse_dump v (S (List.length (dump 0 v))) 0 []) as H.
  rewrite List.app_nil_r in H. rewrite H; [reflexivity | | exact Hwf | reflexivity].
  pose proof (size_le_dump v 0). lia.
Qed.

Lemma escape_plain_char c : plain_char c = true -> escape_char c = [c].
Proof. destruct c as [[] [] [] [] [] [] [] []]; intro H; try discriminate H; reflexivity. Qed.

Lemma py_json_dumps_literal s :
  forallb plain_char (list_ascii_of_string s) = true ->
  py_json_dumps (VStr s) = String quote (s ++ String quote EmptyString)%string.
Proof.
  intro H. unfold py_json_dumps. cbn [dump]. unfold dump_string. simpl.
  f_equal. induction s as [|c s IH]; [reflexivity|].
  simpl in H. apply andb_true_iff in H. destruct H as [Hc Hs].
  simpl. rewrite (escape_plain_char c Hc). simpl. f_equal. apply IH. exact Hs.
Qed.


End JsonRoundTrip.

(** ** Persistence: the round trip *)

(** C8: when [save_to_json] succeeds, the file at the path holds the
    document of the records and parsing it as JSON gives the records
    back, equal in every field (and in field order); text is written
    as it is, non-ASCII bytes included, whenever it has no quote,
    backslash or control character. *)
Theorem save_to_json_round_trip :
  forall (data : list value) (file_path : string) (w w' : world),
    forallb json_wf data = true ->
    save_to_json py_json_dumps data file_path w = (Ok tt, w') ->
    exists content,
      read_file (files (fs w')) file_path = Some content /\
      content = py_json_dumps (VList data) /\
      py_json_loads content = Some (VList data) /\
      forall s,
        forallb plain_char (list_ascii_of_string s) = true ->
        py_json_dumps (VStr s) = String quote (s ++ String quote EmptyString).
Proof.
  intros data file_path w w' Hwf Hsave.
  destruct (save_to_json_run _ _ _ _ Hsave) as (_ & _ & _ & _ & Hread).
  exists (py_json_dumps (VList data)).
  split; [exact Hread|]. split; [reflexivity|].
  split; [apply py_json_loads_dumps; exact Hwf | apply py_json_dumps_literal].
Qed.

(** ** Concrete runs *)

Example checkpoints_25 : checkpoints 25 = [10; 20; 25].
Proof. reflexivity. Qed.

Example checkpoints_30 : checkpoints 30 = [10; 20; 30].
Proof. reflexivity. Qed.

Example checkpoints_7 : checkpoints 7 = [7].
Proof. reflexivity. Qed.

Example dirnames :
  map os_path_dirname
    ["data/raw/nlp_questions_temp_10.json"; "out.json"; "/out.json"; "a//b"]
  = ["data/raw"; ""; "/"; "a"].
Proof. reflexivity. Qed.

Example bare_filename_raises :
  save_to_json count_dumps [] "out.json" mock_world
  = (Raise FileNotFoundError, mock_world).
Proof. reflexivity. Qed.

Example save_creates_directory :
  fs (snd (save_to_json count_dumps [] "out/data.json" mock_world))
  = mkFs ["out"] [("out/data.json", "0")].
Proof. reflexivity. Qed.

Example mock_answers_of_7 :
  match fst (_generate_mock_answers (VInt 7) mock_world) with
  | Ok answers =>
      map (fun a => (field a "answer_id", field a "is_accepted")) answers
  | Raise _ => []
  end
  = [(Some (VInt 701), Some (VBool true)); (Some (VInt 702), Some (VBool false));
     (Some (VInt 703), Some (VBool false)); (Some (VInt 704), Some (VBool false))].
Proof. reflexivity. Qed.

Example mock_questions_3 :
  match fst (_generate_mock_questions 3 mock_world) with
  | Ok questions =>
      map (fun q => (field q "question_id", field q "accepted_answer_id")) questions
  | Raise _ => []
  end
  = [(Some (VInt 1), Some (VInt 100)); (Some (VInt 2), Some (VInt 200));
     (Some (VInt 3), Some (VInt 300))].
Proof. reflexivity. Qed.

Lemma fs_ready_empty : fs_ready empty_fs.
Proof. repeat split. Qed.

Lemma mock_pipeline_count_witness :
  exists res w',
    collect_questions_with_answers no_remote py_json_dumps mock_collector
      "nlp" 1 None None 0 3 mock_world = (Ok res, w') /\
    Z.of_nat (List.length res) = 3 /\
    Forall (fun q => has_answers q = true) res.
Proof.
  apply (@mock_pipeline_count no_remote py_json_dumps mock_collector eq_refl
           "nlp" 1 None None 0 3 mock_world).
  - reflexivity.
  - exact fs_ready_empty.
Defined.

Lemma checkpoints_written_witness :
  exists res w',
    collect_questions_with_answers no_remote count_dumps mock_collector
      "nlp" 1 None None 0 25 mock_world = (Ok res, w') /\
    map fst (writes (trace w')) = map temp_path [10; 20; 25].
Proof.
  eexists. eexists. split; [vm_compute; reflexivity|].
  match goal with
  | |- map fst (writes (trace ?w')) = _ =>
      destruct (@checkpoints_written no_remote count_dumps mock_collector
                  "nlp" 1 None None 0 25 mock_world _ w'
                  ltac:(vm_compute; reflexivity)) as (Hpaths & _ & H25)
  end.
  rewrite <- (H25 eq_refl eq_refl). exact Hpaths.
Defined.

Lemma checkpoints_are_prefixes_witness :
  exists res w' written,
    collect_questions_with_answers no_remote py_json_dumps mock_collector
      "nlp" 1 None None 0 2 mock_world = (Ok res, w') /\
    writes (trace w') = (writes (trace mock_world) ++ written)%list /\
    written = [(temp_path 2, py_json_dumps (VList res))].
Proof.
  eexists. eexists.
  match goal with
  | |- exists written, ?run = (Ok ?res, ?w') /\ _ =>
      assert (Hrun : run = (Ok res, w')) by (vm_compute; reflexivity)
  end.
  destruct (@checkpoints_are_prefixes no_remote py_json_dumps mock_collector
              "nlp" 1 None None 0 2 mock_world _ _ Hrun)
    as (written & Hwrites & Hwritten & _).
  exists written. split; [exact Hrun|]. split; [exact Hwrites|].
  rewrite Hwritten. reflexivity.
Defined.

Lemma answer_failures_are_isolated_witness :
  exists res w',
    collect_questions_with_answers flaky_remote py_json_dumps live_collector
      "nlp" 1 None None 0 10 live_world = (Ok res, w') /\
    Forall2
      (fun q r =>
         exists d question_id answers,
           q = VDict d /\ dict_get d "question_id" = Some question_id /\
           r = VDict (dict_set d "answers" (VList answers)) /\
           exists before after,
             trace w'
             = (before
                ++ EvFetch (answers_request (mkStackAPI "stackoverflow" None 10 1)
                              question_id) :: after)%list /\
             answers
             = match flaky_remote before
                       (answers_request (mkStackAPI "stackoverflow" None 10 1)
                          question_id) with
               | FetchOk response => items response
               | FetchRaise _ => []
               end)
      [question_1; question_2] res.
Proof.
  eapply (@answer_failures_are_isolated flaky_remote py_json_dumps live_collector
            eq_refl eq_refl "nlp" 1 None None 0 10 live_world).
  - vm_compute. reflexivity.
  - reflexivity.
  - repeat constructor; eexists; eexists; repeat split; reflexivity.
  - repeat split.
Defined.

Lemma collect_questions_degrades_witness :
  exists w',
    collect_questions failing_remote live_collector "nlp" 1 None None 0 10 live_world
    = (Ok [], w').
Proof.
  apply (@collect_questions_degrades failing_remote live_collector eq_refl
           "nlp" 1 None None 0 10 live_world live_api "throttle_violation").
  - reflexivity.
  - discriminate.
  - reflexivity.
Defined.

Lemma collect_questions_pages_and_truncation_witness :
  (3 - 1) * 10 < 25 <= 3 * 10 /\
  exists questions w',
    collect_questions flaky_remote live_collector "nlp" 1 None None 0 1 live_world
    = (Ok questions, w') /\
    questions = [question_1].
Proof.
  destruct (@collect_questions_pages_and_truncation flaky_remote live_collector
              eq_refl "nlp" 1 None None 0 25 live_world live_api
              eq_refl eq_refl eq_refl) as (Hceil & _).
  split; [exact Hceil|].
  destruct (@collect_questions_pages_and_truncation flaky_remote live_collector
              eq_refl "nlp" 1 None None 0 1 live_world live_api
              eq_refl eq_refl eq_refl)
    as (_ & _ & r & w' & Hrun & _ & _ & Hcut & _).
  exists [question_1], w'. split; [|reflexivity].
  rewrite Hrun. f_equal. apply (Hcut (mkResponse [question_1; question_2] false)).
  reflexivity.
Defined.

Lemma save_to_json_round_trip_witness :
  exists w' content,
    save_to_json py_json_dumps [unicode_record] "data/raw/out.json" mock_world
    = (Ok tt, w') /\
    read_file (files (fs w')) "data/raw/out.json" = Some content /\
    py_json_loads content = Some (VList [unicode_record]).
Proof.
  eexists.
  match goal with
  | |- exists content, ?run = (Ok tt, ?w') /\ _ =>
      assert (Hsave : run = (Ok tt, w')) by (vm_compute; reflexivity)
  end.
  destruct (@save_to_json_round_trip [unicode_record] "data/raw/out.json"
              mock_world _ eq_refl Hsave)
    as (content & Hread & _ & Hload & _).
  exists content. split; [exact Hsave|]. split; [exact Hread | exact Hload].
Defined.

(** ** The boundary of the degrade-to-empty policy *)

(** [collect_questions] catches the client's error only: an exception of
    another class raised by the fetch goes on to the caller, whereas
    [collect_answers_for_question] turns it into the empty sequence. *)
Lemma collect_questions_lets_other_exceptions_through :
  forall (remote : list event -> request -> fetch_outcome)
         (self : StackExchangeCollector) (tag : string) (min_answers : Z)
         (from_date to_date : option Z) (min_score max_count : Z)
         (w : world) (a : StackAPI) (e : exn),
    use_mock_data self = false ->
    api w = Some a ->
    api_page_size a <> 0 ->
    remote (trace w)
      (questions_request a tag min_answers from_date to_date min_score max_count)
    = FetchRaise e ->
    is_StackAPIError e = false ->
    exists w',
      collect_questions remote self tag min_answers from_date to_date
        min_score max_count w = (Raise e, w').
Proof.
  intros remote self tag min_answers from_date to_date min_score max_count w a e
    Hlive Hapi Hps Hfail He.
  rewrite (live_collect_questions_run remote self Hlive tag min_answers from_date
             to_date min_score max_count w Hapi Hps).
  rewrite Hfail, He. eexists. reflexivity.
Qed.

(** C4: the question fetcher does not degrade every failing fetch to
    the empty sequence.  At a live collector whose question fetch fails
    with an exception that is not the client's [StackAPIError] (here the
    [ChunkedEncodingError] of the transport), [collect_questions] raises
    that exception and so does the whole pipeline, whereas the sibling
    [collect_answers_for_question] returns the empty sequence on the
    very same failure. *)
Theorem collect_questions_raises_on_transport_error :
  fst (collect_questions broken_transport live_collector "nlp" 1 None None 0 10
         live_world)
  = Raise (OtherException "ChunkedEncodingError") /\
  fst (collect_questions_with_answers broken_transport count_dumps live_collector
         "nlp" 1 None None 0 10 live_world)
  = Raise (OtherException "ChunkedEncodingError") /\
  fst (collect_answers_for_question broken_transport live_collector (VInt 1)
         live_world)
  = Ok [].
Proof. repeat split; reflexivity. Qed.

(** The run against the flaky remote: the first question, whose answer
    fetch raised, has no answers; the second keeps its own. *)
Example flaky_run :
  fst (collect_questions_with_answers flaky_remote count_dumps live_collector
         "nlp" 1 None None 0 10 live_world)
  = Ok [VDict [("question_id", VInt 1); ("title", VStr "Test Question 1");
               ("answers", VList [])];
        VDict [("question_id", VInt 2); ("title", VStr "Test Question 2");
               ("answers", VList [answer_201])]].
Proof. reflexivity. Qed.

(** The document written for a record with text outside ASCII. *)
Example unicode_document :
  py_json_dumps (VList [VDict [("title", VStr "如何实现 BERT?"); ("tags", VList [])]])
  = String.concat nl
      ["[";
       "  {";
       String.concat (String quote EmptyString)
         ["    "; "title"; ": "; "如何实现 BERT?"; ","];
       String.concat (String quote EmptyString) ["    "; "tags"; ": []"];
       "  }";
       "]"].
Proof. reflexivity. Qed.

(* ================================================================== *)
(** * More properties of the collector *)

(** ** The mock generator: what the records hold *)

Lemma remove_nth_In A (l : list A) i x : In x (remove_nth i l) -> In x l.
Proof.
  revert i. induction l as [|y l IH]; intros i H; simpl in *; [destruct i; exact H|].
  destruct i; [right; exact H|].
  destruct H as [->|H]; [left; reflexivity | right; eapply IH; exact H].
Qed.

Lemma remove_nth_NoDup A (l : list A) i : NoDup l -> NoDup (remove_nth i l).
Proof.
  intro H. revert i. induction H as [|y l Hy Hl IH]; intro i; simpl.
  - destruct i; constructor.
  - destruct i; [exact Hl|]. constructor; [|apply IH].
    intro Hin. apply Hy. eapply remove_nth_In. exact Hin.
Qed.

Lemma remove_nth_drops A (l : list A) i d :
  NoDup l -> (i < List.length l)%nat -> ~ In (nth i l d) (remove_nth i l).
Proof.
  intro H. revert i. induction H as [|y l Hy Hl IH]; intros i Hi; simpl in *; [lia|].
  destruct i; [exact Hy|].
  intros [E|Hin].
  - apply Hy. rewrite E. apply nth_In. lia.
  - apply (IH i); [lia | exact Hin].
Qed.

Lemma sample_loop_distinct (k : nat) : forall population w,
  NoDup population ->
  (k <= List.length population)%nat ->
  returns (sample_loop population k) w
    (fun picked w' =>
       List.length picked = k /\ NoDup picked /\ incl picked population /\
       only_tape w w').
Proof.
  induction k as [|k IH]; intros population w Hnd Hk; simpl.
  - apply returns_ret. split; [reflexivity|]. split; [constructor|].
    split; [intros x []|]. apply only_tape_refl.
  - destruct population as [|x rest] eqn:Hp; [simpl in Hk; lia|].
    rewrite <- Hp in *.
    assert (Hlen : List.length population <> O) by (rewrite Hp; discriminate).
    run_step draw_returns.
    set (i := (N.to_nat a mod List.length population)%nat).
    assert (Hi : (i < List.length population)%nat)
      by (apply Nat.mod_upper_bound; exact Hlen).
    apply returns_bind. eapply returns_weaken.
    + apply IH; [apply remove_nth_NoDup; exact Hnd|].
      rewrite remove_nth_length by exact Hi. lia.
    + cbv beta. intros picked w2 (Hl & Hnd' & Hincl & Hw2). apply returns_ret.
      split; [simpl; rewrite Hl; reflexivity|].
      split.
      { constructor; [|exact Hnd'].
        intro Hin. apply Hincl in Hin.
        exact (remove_nth_drops x Hnd Hi Hin). }
      split.
      { intros y [<-|Hy]; [apply nth_In; exact Hi|].
        eapply remove_nth_In. apply Hincl. exact Hy. }
      eapply only_tape_trans; eassumption.
Qed.

Lemma sample_distinct population k w :
  NoDup population ->
  0 <= k <= Z.of_nat (List.length population) ->
  returns (sample population k) w
    (fun picked w' =>
       Z.of_nat (List.length picked) = k /\ NoDup picked /\ incl picked population /\
       only_tape w w').
Proof.
  intros Hnd H. unfold sample.
  destruct (Z.ltb_spec k 0); [lia|].
  destruct (Z.ltb_spec (Z.of_nat (List.length population)) k); [lia|].
  simpl. eapply returns_weaken; [apply sample_loop_distinct; [exact Hnd | lia]|].
  cbv beta. intros picked w' (Hl & Hnd' & Hincl & Hw').
  split; [lia|]. split; [exact Hnd'|]. split; [exact Hincl | exact Hw'].
Qed.

Lemma choice_member l w :
  l <> [] ->
  returns (choice l) w (fun x w' => In x l /\ only_tape w w').
Proof.
  destruct l as [|y l]; [congruence|]. intros _.
  unfold choice. apply returns_bind.
  eapply returns_weaken; [apply draw_returns|].
  intros n w' Hw. apply returns_ret. split; [|exact Hw].
  apply nth_In. apply Nat.mod_upper_bound. discriminate.
Qed.

Lemma nlp_topics_NoDup : NoDup nlp_topics.
Proof.
  unfold nlp_topics.
  repeat (constructor; [simpl; intuition discriminate|]). constructor.
Qed.

Lemma now_timestamp_reads w :
  returns now_timestamp w (fun t w' => t = clock w /\ only_tape w w').
Proof. unfold returns, now_timestamp. split; [reflexivity | apply only_tape_refl]. Qed.

Tactic Notation "run_as" constr(lem) ident(x) ident(w') ident(H) :=
  apply returns_bind; eapply returns_weaken;
  [ apply lem; try lia; try discriminate | cbv beta; intros x w' H ].

Lemma mock_question_record (i : Z) w :
  returns (mock_question i) w
    (fun v w' => question_record (clock w) i v /\ only_tape w w').
Proof.
  unfold mock_question.
  run_as randint_returns k w0 H0. destruct H0 as [Hk Hw0].
  apply returns_bind. eapply returns_weaken.
  { apply sample_distinct; [exact nlp_topics_NoDup | simpl; lia]. }
  cbv beta. intros topics w1 (Hlen & Hnd & Hincl & Hw1).
  run_as choice_member topic1 w2 H2. destruct H2 as [Ht1 Hw2].
  run_as choice_member framework w3 H3. destruct H3 as [Hf Hw3].
  run_as choice_member topic2 w4 H4. destruct H4 as [Ht2 Hw4].
  run_as randint_returns score w5 H5. destruct H5 as [Hscore Hw5].
  run_as randint_returns answer_count w6 H6. destruct H6 as [Hcount Hw6].
  run_as now_timestamp_reads t w7 H7. destruct H7 as [Hnow Hw7].
  run_as randint_returns age w8 H8. destruct H8 as [Hage Hw8].
  apply returns_ret.
  assert (Hall6 : only_tape w w6).
  { exact (only_tape_trans Hw0 (only_tape_trans Hw1 (only_tape_trans Hw2
             (only_tape_trans Hw3 (only_tape_trans Hw4 (only_tape_trans Hw5 Hw6)))))). }
  split.
  - exists topics, topic1, framework, topic2, score, answer_count, age.
    split.
    { subst t. replace (clock w6) with (clock w) by (symmetry; apply Hall6).
      reflexivity. }
    repeat split; try assumption; try lia.
  - eapply only_tape_trans; [exact Hall6|].
    eapply only_tape_trans; eassumption.
Qed.

Lemma mock_questions_records (count : Z) w :
  returns (_generate_mock_questions count) w
    (fun questions w' =>
       Forall2 (question_record (clock w)) (range 1 (count + 1)) questions /\
       only_tape w w').
Proof.
  unfold _generate_mock_questions.
  apply for_each_returns with (P := question_record (clock w)) (I := only_tape w);
    [|apply only_tape_refl].
  intros i w1 _ Hw1. eapply returns_weaken; [apply mock_question_record|].
  cbv beta. intros v w2 [Hv Hw2].
  split; [|eapply only_tape_trans; eassumption].
  replace (clock w) with (clock w1) by apply Hw1. exact Hv.
Qed.

(** X1: the mock questions are numbered from 1 in order, and each carries
    the tag [nlp] followed by one to three distinct topics of the fixed list. *)
Theorem mock_questions_tagged :
  forall (count : Z) (w : world),
  exists questions w',
    _generate_mock_questions count w = (Ok questions, w') /\
    List.length questions = Z.to_nat count /\
    forall j, (j < List.length questions)%nat ->
      let question := nth j questions VNone in
      field question "question_id" = Some (VInt (Z.of_nat (S j))) /\
      exists topics,
        field question "tags" = Some (VList (VStr "nlp" :: map VStr topics)) /\
        (1 <= List.length topics <= 3)%nat /\
        NoDup topics /\ incl topics nlp_topics.
Proof.
  intros count w.
  destruct (returns_inv _ _ _ (mock_questions_records count w))
    as (questions & w' & Hrun & HF & _).
  exists questions, w'. split; [exact Hrun|].
  pose proof (Forall2_length HF) as Hlen. rewrite range_length in Hlen.
  split; [lia|].
  intros j Hj question.
  pose proof (@Forall2_nth_both _ _ _ _ _ j 0 VNone HF) as Hq.
  rewrite range_length in Hq. rewrite range_nth in Hq by lia.
  destruct Hq as (topics & t1 & fw & t2 & sc & ac & age & Hv & Hlen' & Hnd & Hincl & _);
    [lia|].
  fold question in Hv. rewrite Hv. split.
  - replace (Z.of_nat (S j)) with (1 + Z.of_nat j) by lia. reflexivity.
  - exists topics. repeat split; try assumption; lia.
Qed.

(** X2: every mock question is a record with the eight fields of a
    question, in the order of the source; its score lies in 0..50, its
    answer count in 1..5, its creation date is an integer and its title
    and body are strings. *)
Theorem mock_questions_fields :
  forall (count : Z) (w : world),
  exists questions w',
    _generate_mock_questions count w = (Ok questions, w') /\
    Forall
      (fun question =>
         (exists d, question = VDict d /\
                    map fst d = ["question_id"; "title"; "body"; "score";
                                 "answer_count"; "creation_date"; "tags";
                                 "accepted_answer_id"]) /\
         exists title body score answer_count created,
           field question "title" = Some (VStr title) /\
           field question "body" = Some (VStr body) /\
           field question "score" = Some (VInt score) /\ 0 <= score <= 50 /\
           field question "answer_count" = Some (VInt answer_count) /\
           1 <= answer_count <= 5 /\
           field question "creation_date" = Some (VInt created))
      questions.
Proof.
  intros count w.
  destruct (returns_inv _ _ _ (mock_questions_records count w))
    as (questions & w' & Hrun & HF & _).
  exists questions, w'. split; [exact Hrun|].
  clear Hrun. induction HF as [|i q r qs Hq _ IH]; constructor; [|exact IH].
  destruct Hq as (topics & t1 & fw & t2 & sc & ac & age & -> & _ & _ & _ & _ & _ & _
                  & Hsc & Hac & _).
  split; [eexists; split; reflexivity|].
  eexists _, _, sc, ac, _. simpl. repeat split; try reflexivity; lia.
Qed.

(** ** The mock generator: answers *)

Lemma mock_answer_record (q i : Z) w :
  returns (mock_answer (VInt q) i) w
    (fun v w' => answer_record (clock w) q i v /\ only_tape w w').
Proof.
  unfold mock_answer, times_100_plus.
  apply returns_bind, returns_ret.
  run_as choice_member library1 w1 H1. destruct H1 as [Hl1 Hw1].
  run_as choice_member library2 w2 H2. destruct H2 as [Hl2 Hw2].
  run_as randint_returns score w3 H3. destruct H3 as [Hscore Hw3].
  run_as now_timestamp_reads t w4 H4. destruct H4 as [Hnow Hw4].
  run_as randint_returns age w5 H5. destruct H5 as [Hage Hw5].
  run_as randint_returns user_id w6 H6. destruct H6 as [Huser Hw6].
  run_as randint_returns expert w7 H7. destruct H7 as [Hexpert Hw7].
  apply returns_ret.
  assert (Hall3 : only_tape w w3)
    by exact (only_tape_trans Hw1 (only_tape_trans Hw2 Hw3)).
  split.
  - exists library1, library2, score, age, user_id, expert.
    split.
    { subst t. replace (clock w3) with (clock w) by (symmetry; apply Hall3).
      reflexivity. }
    repeat split; try assumption; try lia.
  - exact (only_tape_trans Hall3 (only_tape_trans Hw4 (only_tape_trans Hw5
             (only_tape_trans Hw6 Hw7)))).
Qed.

Lemma mock_answers_records (q : Z) w :
  returns (_generate_mock_answers (VInt q)) w
    (fun answers w' =>
       (exists n, 1 <= n <= 5 /\
                  Forall2 (answer_record (clock w) q) (range 1 (n + 1)) answers) /\
       only_tape w w').
Proof.
  unfold _generate_mock_answers.
  run_as randint_returns n w0 H0. destruct H0 as [Hn Hw0].
  eapply returns_weaken.
  - apply for_each_returns with (P := answer_record (clock w) q) (I := only_tape w);
      [|exact Hw0].
    intros i w1 _ Hw1. eapply returns_weaken; [apply mock_answer_record|].
    cbv beta. intros v w2 [Hv Hw2].
    split; [|eapply only_tape_trans; eassumption].
    replace (clock w) with (clock w1) by apply Hw1. exact Hv.
  - cbv beta. intros answers w2 [HF Hw2]. split; [|exact Hw2]. eauto.
Qed.

(** X3: every mock answer is a record with the six fields of an answer,
    in the order of the source: a body that is a string, a score in
    0..30, a creation date that is an integer, and an owner record with
    a user identifier in 1000..9999 and a display name. *)
Theorem mock_answers_fields :
  forall (question_id : Z) (w : world),
  exists answers w',
    _generate_mock_answers (VInt question_id) w = (Ok answers, w') /\
    Forall
      (fun answer =>
         (exists d, answer = VDict d /\
                    map fst d = ["answer_id"; "body"; "score"; "is_accepted";
                                 "creation_date"; "owner"]) /\
         exists body score created owner user_id name,
           field answer "body" = Some (VStr body) /\
           field answer "score" = Some (VInt score) /\ 0 <= score <= 30 /\
           field answer "creation_date" = Some (VInt created) /\
           field answer "owner" = Some owner /\
           field owner "user_id" = Some (VInt user_id) /\
           1000 <= user_id <= 9999 /\
           field owner "display_name" = Some (VStr name))
      answers.
Proof.
  intros q w.
  destruct (returns_inv _ _ _ (mock_answers_records q w))
    as (answers & w' & Hrun & (n & _ & HF) & _).
  exists answers, w'. split; [exact Hrun|].
  clear Hrun. induction HF as [|i a r as' Ha _ IH]; constructor; [|exact IH].
  destruct Ha as (l1 & l2 & sc & age & uid & ex & -> & _ & _ & Hsc & _ & Huid & _).
  split; [eexists; split; reflexivity|].
  eexists _, sc, _, _, uid, _. simpl.
  repeat split; try reflexivity; lia.
Qed.

Lemma NoDup_map_injective A B (f : A -> B) l :
  (forall x y, f x = f y -> x = y) -> NoDup l -> NoDup (map f l).
Proof.
  intros Hf H. induction H as [|x l Hx _ IH]; simpl; constructor; [|exact IH].
  rewrite in_map_iff. intros (y & E & Hy). apply Hf in E. subst y. exact (Hx Hy).
Qed.

(** X4: the identifiers of the mock answers do not collide: within one
    question they are pairwise distinct, and two different questions
    never share one. *)
Theorem mock_answer_ids_do_not_collide :
  forall (q1 q2 : Z) (w1 w2 : world),
  exists answers1 w1' answers2 w2',
    _generate_mock_answers (VInt q1) w1 = (Ok answers1, w1') /\
    _generate_mock_answers (VInt q2) w2 = (Ok answers2, w2') /\
    NoDup (map (fun a => field a "answer_id") answers1) /\
    (q1 <> q2 ->
     forall a1 a2, In a1 answers1 -> In a2 answers2 ->
       field a1 "answer_id" <> field a2 "answer_id").
Proof.
  intros q1 q2 w1 w2.
  destruct (returns_inv _ _ _ (mock_answers_returns q1 w1))
    as (answers1 & w1' & Hrun1 & (n1 & Hn1 & HF1) & _).
  destruct (returns_inv _ _ _ (mock_answers_returns q2 w2))
    as (answers2 & w2' & Hrun2 & (n2 & Hn2 & HF2) & _).
  exists answers1, w1', answers2, w2'.
  split; [exact Hrun1|]. split; [exact Hrun2|]. split.
  - assert (Hids : map (fun a => field a "answer_id") answers1
                   = map (fun i => Some (VInt (q1 * 100 + i))) (range 1 (n1 + 1))).
    { clear - HF1. induction HF1 as [|i a r l [Hid _] _ IH]; [reflexivity|].
      simpl. rewrite Hid, IH. reflexivity. }
    rewrite Hids. apply NoDup_map_injective.
    + intros x y E. assert (q1 * 100 + x = q1 * 100 + y) by congruence. lia.
    + unfold range. apply NoDup_map_injective; [|apply seq_NoDup].
      intros x y E. lia.
  - intros Hne a1 a2 H1 H2.
    destruct (@Forall2_In_r _ _ _ _ _ _ HF1 H1) as (i1 & Hi1 & Hid1 & _).
    destruct (@Forall2_In_r _ _ _ _ _ _ HF2 H2) as (i2 & Hi2 & Hid2 & _).
    apply range_In in Hi1, Hi2. rewrite Hid1, Hid2. intro E.
    assert (q1 * 100 + i1 = q2 * 100 + i2) by congruence. lia.
Qed.

(** ** Mock mode stays off the network *)

Lemma only_writes_refl w : only_writes w w.
Proof.
  split; [reflexivity|]. exists []. split; [symmetry; apply app_nil_r | reflexivity].
Qed.

Lemma only_writes_trans w1 w2 w3 :
  only_writes w1 w2 -> only_writes w2 w3 -> only_writes w1 w3.
Proof.
  intros [Ha (s1 & H1 & F1)] [Hb (s2 & H2 & F2)]. split; [congruence|].
  exists (s1 ++ s2)%list. split.
  - rewrite H2, H1, app_assoc. reflexivity.
  - rewrite forallb_app, F1, F2. reflexivity.
Qed.

Lemma only_tape_only_writes w w' : only_tape w w' -> only_writes w w'.
Proof.
  intros (_ & _ & Ha & Ht). split; [exact Ha|].
  exists []. split; [rewrite Ht; symmetry; apply app_nil_r | reflexivity].
Qed.

Lemma only_writes_save json_dumps data file_path :
  keeps only_writes (save_to_json json_dumps data file_path).
Proof.
  intro w. destruct (save_to_json json_dumps data file_path w) as [r w'] eqn:E.
  destruct (save_to_json_run _ _ _ _ E) as (_ & _ & Hapi & H). simpl.
  split; [exact Hapi|]. destruct r.
  - destruct H as [Htr _]. eexists. split; [exact Htr | reflexivity].
  - destruct H as [Htr _]. exists []. rewrite Htr.
    split; [symmetry; apply app_nil_r | reflexivity].
Qed.

Lemma only_writes_getitem v k : keeps only_writes (getitem v k).
Proof.
  intro w. destruct (getitem v k w) as [r w'] eqn:E.
  rewrite (getitem_run _ _ _ E). apply only_writes_refl.
Qed.

Lemma only_writes_setitem v k x : keeps only_writes (setitem v k x).
Proof. intro w. destruct v; apply only_writes_refl. Qed.

Section Offline.

Variable json_dumps : value -> string.
Variable self : StackExchangeCollector.
Hypothesis mock : use_mock_data self = true.

Lemma only_writes_mock_loop remote questions :
  forall acc total i,
    keeps only_writes (collect_loop remote json_dumps self total i questions acc).
Proof.
  induction questions as [|q rest IH]; intros acc total i; cbn [collect_loop].
  - apply keeps_ret. exact only_writes_refl.
  - apply keeps_bind; [exact only_writes_trans | apply only_writes_getitem|].
    intro question_id. apply keeps_bind; [exact only_writes_trans | |].
    { unfold collect_answers_for_question. rewrite mock.
      eapply keeps_weaken; [exact only_tape_only_writes|].
      apply quiet_generate_mock_answers. }
    intro answers. apply keeps_bind; [exact only_writes_trans | apply only_writes_setitem|].
    intro question'. apply keeps_bind; [exact only_writes_trans | | intros _; apply IH].
    destruct (_ || _)%bool; [apply only_writes_save|].
    apply keeps_ret. exact only_writes_refl.
Qed.

Lemma mock_loop_ignores_remote remote1 remote2 questions :
  forall acc total i w,
    collect_loop remote1 json_dumps self total i questions acc w
    = collect_loop remote2 json_dumps self total i questions acc w.
Proof.
  induction questions as [|q rest IH]; intros acc total i w; cbn [collect_loop];
    [reflexivity|].
  unfold bind. destruct (getitem q "question_id" w) as [[question_id|e] w0];
    [|reflexivity].
  unfold collect_answers_for_question. rewrite mock.
  destruct (_generate_mock_answers question_id w0) as [[answers|e] w1]; [|reflexivity].
  destruct (setitem q "answers" (VList answers) w1) as [[question'|e] w2];
    [|reflexivity].
  destruct ((if (((i + 1) mod 10 =? 0) || (i =? total - 1))%bool
             then save_to_json json_dumps (acc ++ [question']) (temp_path (i + 1))
             else ret tt) w2) as [[[]|e] w3]; [|reflexivity].
  apply IH.
Qed.

(** X5: in mock mode the pipeline stays off the network whatever its
    outcome: the run does not depend on the remote service, it leaves
    the client as it was, and all its input and output is the writing of
    files. *)
Theorem mock_mode_is_offline :
  forall (remote remote' : list event -> request -> fetch_outcome)
         (tag : string) (min_answers : Z) (from_date to_date : option Z)
         (min_score max_count : Z) (w : world),
    let run := collect_questions_with_answers remote json_dumps self tag
                 min_answers from_date to_date min_score max_count w in
    collect_questions_with_answers remote' json_dumps self tag min_answers
      from_date to_date min_score max_count w = run /\
    api (snd run) = api w /\
    exists written,
      trace (snd run) = (trace w ++ written)%list /\
      forallb is_write written = true.
Proof.
  intros remote remote' tag min_answers from_date to_date min_score max_count w run.
  split.
  - subst run. unfold collect_questions_with_answers, bind, collect_questions.
    rewrite mock.
    destruct (_generate_mock_questions max_count w) as [[questions|e] w1];
      [|reflexivity].
    destruct questions as [|q rest]; [reflexivity|].
    apply mock_loop_ignores_remote.
  - assert (H : keeps only_writes
                  (collect_questions_with_answers remote json_dumps self tag
                     min_answers from_date to_date min_score max_count)).
    { unfold collect_questions_with_answers.
      apply keeps_bind; [exact only_writes_trans | |].
      - unfold collect_questions. rewrite mock.
        eapply keeps_weaken; [exact only_tape_only_writes|].
        apply quiet_generate_mock_questions.
      - intros [|q rest]; [apply keeps_ret; exact only_writes_refl|].
        apply only_writes_mock_loop. }
    exact (H w).
Qed.

End Offline.

(** ** What [save_to_json] touches *)

Lemma read_put_file_other l p c q :
  q <> p -> read_file (put_file l p c) q = read_file l q.
Proof.
  intro Hq. induction l as [|[p' c'] l IH]; simpl.
  - destruct (String.eqb_spec q p); [contradiction | reflexivity].
  - destruct (String.eqb_spec p p') as [->|Hp]; simpl.
    + destruct (String.eqb_spec q p'); [contradiction | reflexivity].
    + destruct (String.eqb q p'); [reflexivity | exact IH].
Qed.

Lemma fold_add_dir_keeps l : forall ds d,
  existsb (String.eqb d) ds = true ->
  existsb (String.eqb d) (fold_left add_dir l ds) = true.
Proof.
  induction l as [|x l IH]; intros ds d H; simpl; [exact H|].
  apply IH. rewrite existsb_add_dir, H. reflexivity.
Qed.

(** X6: [save_to_json] removes nothing and opens one file.  Whatever
    its outcome, every path that named a file still names one and every
    directory is still there; a save that returns has done one write,
    of the whole document, to the file at the path it was given. *)
Theorem save_to_json_removes_nothing :
  forall (json_dumps : value -> string) (data : list value) (file_path : string)
         (w : world) (r : result unit) (w' : world),
    save_to_json json_dumps data file_path w = (r, w') ->
    (forall p, is_file (fs w) p = true -> is_file (fs w') p = true) /\
    (forall d, is_dir (fs w) d = true -> is_dir (fs w') d = true) /\
    (r = Ok tt ->
     trace w' = (trace w ++ [EvWrite file_path (json_dumps (VList data))])%list).
Proof.
  intros json_dumps data file_path w r w'.
  unfold save_to_json, bind, os_makedirs, open_write.
  destruct (is_empty (os_path_dirname file_path)).
  { intro E. inversion E; subst. repeat split; auto; discriminate. }
  destruct (is_file (fs w) (os_path_dirname file_path)).
  { intro E. inversion E; subst. repeat split; auto; discriminate. }
  destruct (existsb _ _).
  { intro E. inversion E; subst. repeat split; auto; discriminate. }
  cbn [fs set_fs dirs files].
  assert (Hdirs : forall d, is_dir (fs w) d = true ->
            existsb (String.eqb d)
              (fold_left add_dir (ancestors (os_path_dirname file_path)) (dirs (fs w)))
            = true).
  { intros d Hd. apply fold_add_dir_keeps. exact Hd. }
  destruct (is_empty file_path).
  { intro E. inversion E; subst. repeat split; auto; discriminate. }
  destruct (_ || _)%bool.
  { intro E. inversion E; subst. repeat split; auto; discriminate. }
  destruct (_ && _)%bool.
  { intro E. inversion E; subst. repeat split; auto; discriminate. }
  intro E. inversion E; subst. split; [|split; [exact Hdirs | reflexivity]].
  intros p Hp. unfold is_file in *. cbn [fs set_fs emit files].
  rewrite put_file_names, Hp. apply orb_true_r.
Qed.

(** ** The pipeline in live mode *)

Section LiveRuns.

Variable remote : list event -> request -> fetch_outcome.
Variable json_dumps : value -> string.
Variable self : StackExchangeCollector.
Hypothesis live : use_mock_data self = false.

(** The answer fetcher in live mode, for every rate limit. *)
Lemma live_answers_cases question_id w a :
  api w = Some a ->
  collect_answers_for_question remote self question_id w
  = if rate_limit self =? 0 then (Raise ZeroDivisionError, w)
    else if rate_limit self <? 0 then (Raise ValueError, w)
    else (Ok (degrade (remote (trace w ++ [EvSleep (rate_limit self)])%list
                         (answers_request a question_id))),
          emit (EvFetch (answers_request a question_id))
            (emit (EvSleep (rate_limit self)) w)).
Proof.
  intro Hapi. unfold collect_answers_for_question. rewrite live.
  unfold bind at 1. unfold time_sleep_inverse.
  destruct (rate_limit self =? 0); [reflexivity|].
  destruct (rate_limit self <? 0); [reflexivity|].
  unfold try_except, bind, api_fetch. cbn [emit api trace]. rewrite Hapi.
  fold (answers_request a question_id).
  destruct (remote _ (answers_request a question_id)); reflexivity.
Qed.

(** X7: in live mode, when the fetch of the questions fails with the
    client's error, the whole pipeline returns the empty sequence; it
    has sent that one request and nothing else, and the file system is
    as before: no answers are asked for and no checkpoint is written. *)
Theorem failed_question_fetch_ends_the_run :
  forall (tag : string) (min_answers : Z) (from_date to_date : option Z)
         (min_score max_count : Z) (w : world) (a : StackAPI) (msg : string),
    api w = Some a ->
    api_page_size a <> 0 ->
    remote (trace w)
      (questions_request a tag min_answers from_date to_date min_score max_count)
    = FetchRaise (StackAPIError msg) ->
    exists w',
      collect_questions_with_answers remote json_dumps self tag min_answers
        from_date to_date min_score max_count w = (Ok [], w') /\
      trace w'
      = (trace w
         ++ [EvFetch (questions_request a tag min_answers from_date to_date
                        min_score max_count)])%list /\
      fs w' = fs w.
Proof.
  intros tag min_answers from_date to_date min_score max_count w a msg Hapi Hps Hfail.
  unfold collect_questions_with_answers, bind.
  rewrite (live_collect_questions_run remote self live tag min_answers from_date
             to_date min_score max_count w Hapi Hps).
  rewrite Hfail. cbn [is_StackAPIError]. eexists. split; [reflexivity|].
  split; reflexivity.
Qed.


(** The network side of the loop. *)
Lemma collect_loop_network questions :
  forall acc total i w res w' a,
    collect_loop remote json_dumps self total i questions acc w = (Ok res, w') ->
    api w = Some a ->
    Forall has_question_id questions /\
    network (trace w')
    = (network (trace w)
       ++ flat_map (answer_calls a (rate_limit self)) questions)%list.
Proof.
  induction questions as [|q rest IH]; intros acc total i w res w' a Hrun Hapi.
  - simpl in Hrun. inversion Hrun; subst. split; [constructor|].
    simpl. symmetry. apply app_nil_r.
  - cbn [collect_loop] in Hrun. unfold bind at 1 in Hrun.
    destruct (getitem q "question_id" w) as [[question_id|e] w0] eqn:E0;
      [|discriminate].
    pose proof (getitem_run _ _ _ E0); subst w0.
    destruct q as [| | | | |d]; try discriminate E0.
    unfold getitem in E0. destruct (dict_get d "question_id") as [x|] eqn:Hid;
      [|discriminate].
    inversion E0; subst x. clear E0.
    unfold bind at 1 in Hrun. rewrite (live_answers_cases question_id w Hapi) in Hrun.
    destruct (rate_limit self =? 0); [discriminate|].
    destruct (rate_limit self <? 0); [discriminate|].
    set (answers := degrade _) in Hrun.
    set (w1 := emit _ _) in Hrun.
    unfold bind at 1 in Hrun. cbn [setitem ret] in Hrun.
    set (q' := VDict (dict_set d "answers" (VList answers))) in *.
    unfold bind at 1 in Hrun.
    destruct ((if (((i + 1) mod 10 =? 0) || (i =? total - 1))%bool
               then save_to_json json_dumps (acc ++ [q']) (temp_path (i + 1))
               else ret tt) w1) as [[[]|e] w2] eqn:E2; [|discriminate].
    assert (H2 : api w2 = Some a /\ network (trace w2) = network (trace w1)).
    { destruct (_ || _)%bool.
      - destruct (save_to_json_run _ _ _ _ E2) as (_ & _ & Ha & Htr & _).
        split; [rewrite Ha; exact Hapi|].
        rewrite Htr. unfold network. rewrite filter_app. simpl. apply app_nil_r.
      - inversion E2; subst w2. split; [exact Hapi | reflexivity]. }
    destruct H2 as [Hapi2 Hnet2].
    destruct (IH _ _ _ _ _ _ _ Hrun Hapi2) as [Hids Hnet].
    split.
    + constructor; [|exact Hids]. exists d, question_id. split; [reflexivity | exact Hid].
    + rewrite Hnet, Hnet2. subst w1. cbn [emit trace flat_map].
      unfold answer_calls at 2. cbn [field]. rewrite Hid.
      unfold network. rewrite !filter_app. cbn [filter is_write negb].
      rewrite <- !app_assoc. reflexivity.
Qed.

(** X9: in live mode a run that returns has, after the request for the
    questions, done on the network exactly one sleep and then one
    request per question, in the order of the questions; every question
    had an identifier. *)
Theorem one_sleep_and_one_request_per_question :
  forall (tag : string) (min_answers : Z) (from_date to_date : option Z)
         (min_score max_count : Z) (w : world)
         (questions : list value) (w1 : world) (a : StackAPI)
         (res : list value) (w' : world),
    collect_questions remote self tag min_answers from_date to_date
      min_score max_count w = (Ok questions, w1) ->
    api w1 = Some a ->
    collect_questions_with_answers remote json_dumps self tag min_answers
      from_date to_date min_score max_count w = (Ok res, w') ->
    Forall has_question_id questions /\
    network (trace w')
    = (network (trace w1)
       ++ flat_map (answer_calls a (rate_limit self)) questions)%list /\
    List.length (network (trace w'))
    = (List.length (network (trace w1)) + 2 * List.length questions)%nat.
Proof.
  intros tag min_answers from_date to_date min_score max_count w questions w1 a
    res w' Hq Hapi Hrun.
  unfold collect_questions_with_answers in Hrun. unfold bind at 1 in Hrun.
  rewrite Hq in Hrun.
  assert (H : Forall has_question_id questions /\
              network (trace w')
              = (network (trace w1)
                 ++ flat_map (answer_calls a (rate_limit self)) questions)%list).
  { destruct questions as [|q rest] eqn:Hqs.
    - inversion Hrun; subst. split; [constructor|]. simpl. symmetry. apply app_nil_r.
    - rewrite <- Hqs in *. eapply collect_loop_network; eassumption. }
  destruct H as [Hids Hnet]. split; [exact Hids|]. split; [exact Hnet|].
  rewrite Hnet, length_app. f_equal.
  clear - Hids. induction Hids as [|q l (d & question_id & -> & Hid) _ IH];
    [reflexivity|].
  cbn [flat_map]. rewrite length_app, IH. unfold answer_calls. cbn [field].
  rewrite Hid. simpl. lia.
Qed.

End LiveRuns.

(** ** What the pipeline does to the records *)

Section Records.

Variable remote : list event -> request -> fetch_outcome.
Variable json_dumps : value -> string.
Variable self : StackExchangeCollector.

Lemma collect_loop_merges questions :
  forall acc total i w res w',
    collect_loop remote json_dumps self total i questions acc w = (Ok res, w') ->
    exists new,
      res = (acc ++ new)%list /\
      Forall2 (fun q r => has_question_id q /\ with_answers q r) questions new.
Proof.
  induction questions as [|q rest IH]; intros acc total i w res w' Hrun.
  - simpl in Hrun. inversion Hrun; subst. exists [].
    split; [symmetry; apply app_nil_r | constructor].
  - cbn [collect_loop] in Hrun. unfold bind at 1 in Hrun.
    destruct (getitem q "question_id" w) as [[question_id|e] w0] eqn:E0;
      [|discriminate].
    destruct q as [| | | | |d]; try discriminate E0.
    unfold getitem in E0. destruct (dict_get d "question_id") as [x|] eqn:Hid;
      [|discriminate].
    inversion E0; subst x w0. clear E0.
    unfold bind at 1 in Hrun.
    destruct (collect_answers_for_question remote self question_id w)
      as [[answers|e] w1]; [|discriminate].
    unfold bind at 1 in Hrun. cbn [setitem ret] in Hrun.
    unfold bind at 1 in Hrun.
    destruct ((if (((i + 1) mod 10 =? 0) || (i =? total - 1))%bool
               then save_to_json json_dumps
                      (acc ++ [VDict (dict_set d "answers" (VList answers))])
                      (temp_path (i + 1))
               else ret tt) w1) as [[[]|e] w2]; [|discriminate].
    destruct (IH _ _ _ _ _ _ Hrun) as (new & -> & HF).
    exists (VDict (dict_set d "answers" (VList answers)) :: new).
    split; [rewrite <- app_assoc; reflexivity|].
    constructor; [|exact HF]. split.
    + exists d, question_id. split; [reflexivity | exact Hid].
    + exists d, answers. split; reflexivity.
Qed.

(** X10: a run of the pipeline that returns gives back the questions
    [collect_questions] returned, one record each and in the same order;
    a record differs from its question under the key [answers] only,
    where it holds a list, and every question had an identifier. *)
Theorem pipeline_keeps_order_and_fields :
  forall (tag : string) (min_answers : Z) (from_date to_date : option Z)
         (min_score max_count : Z) (w : world) (res : list value) (w' : world),
    collect_questions_with_answers remote json_dumps self tag min_answers
      from_date to_date min_score max_count w = (Ok res, w') ->
    exists questions w1,
      collect_questions remote self tag min_answers from_date to_date
        min_score max_count w = (Ok questions, w1) /\
      Forall2
        (fun q r =>
           (exists question_id, field q "question_id" = Some question_id) /\
           (exists answers, field r "answers" = Some (VList answers)) /\
           forall k, k <> "answers" -> field r k = field q k)
        questions res.
Proof.
  intros tag min_answers from_date to_date min_score max_count w res w' Hrun.
  unfold collect_questions_with_answers in Hrun. unfold bind at 1 in Hrun.
  destruct (collect_questions remote self tag min_answers from_date to_date
              min_score max_count w) as [[questions|e] w1]; [|discriminate].
  exists questions, w1. split; [reflexivity|].
  destruct questions as [|q rest] eqn:Hqs.
  { inversion Hrun; subst. constructor. }
  rewrite <- Hqs in *. clear Hqs q rest.
  destruct (collect_loop_merges _ _ _ _ _ Hrun) as (new & Hres & HF).
  simpl in Hres. subst new.
  clear - HF. induction HF as [|q r qs rs [Hq Hr] _ IH]; constructor; [|exact IH].
  destruct Hq as (d & question_id & -> & Hid).
  destruct Hr as (d' & answers & Hd & ->). inversion Hd; subst d'.
  split; [exists question_id; exact Hid|].
  split; [exists answers; apply dict_get_set_same|].
  intros k Hk. apply dict_get_set_other. exact Hk.
Qed.

End Records.

(** ** A record without identifier *)

Section Malformed.

Variable remote : list event -> request -> fetch_outcome.
Variable json_dumps : value -> string.
Variable self : StackExchangeCollector.

(** The loop over a sequence in two parts. *)
Lemma collect_loop_app l1 : forall l2 acc total i w,
  collect_loop remote json_dumps self total i (l1 ++ l2) acc w
  = match collect_loop remote json_dumps self total i l1 acc w with
    | (Ok acc', w1) =>
        collect_loop remote json_dumps self total (i + Z.of_nat (List.length l1))
          l2 acc' w1
    | (Raise e, w1) => (Raise e, w1)
    end.
Proof.
  induction l1 as [|q l1 IH]; intros l2 acc total i w.
  - simpl. rewrite Z.add_0_r. reflexivity.
  - rewrite <- app_comm_cons. cbn [collect_loop]. unfold bind.
    destruct (getitem q "question_id" w) as [[question_id|e] w0]; [|reflexivity].
    destruct (collect_answers_for_question remote self question_id w0)
      as [[answers|e] w1]; [|reflexivity].
    destruct (setitem q "answers" (VList answers) w1) as [[question'|e] w2];
      [|reflexivity].
    destruct ((if (((i + 1) mod 10 =? 0) || (i =? total - 1))%bool
               then save_to_json json_dumps (acc ++ [question']) (temp_path (i + 1))
               else ret tt) w2) as [[[]|e] w3]; [|reflexivity].
    rewrite IH.
    replace (i + 1 + Z.of_nat (List.length l1))
      with (i + Z.of_nat (List.length (q :: l1))) by (simpl List.length; lia).
    reflexivity.
Qed.

Hypothesis live : use_mock_data self = false.
Hypothesis rate_positive : 0 < rate_limit self.

(** X11: one fetched record without the key [question_id], wherever it
    stands among the questions, makes the whole run raise [KeyError]:
    the records before it are not returned. *)
Theorem missing_question_id_aborts_the_run :
  forall (tag : string) (min_answers : Z) (from_date to_date : option Z)
         (min_score max_count : Z) (w : world)
         (before after : list value) (d : dict) (w1 : world) (a : StackAPI),
    collect_questions remote self tag min_answers from_date to_date
      min_score max_count w = (Ok (before ++ VDict d :: after)%list, w1) ->
    api w1 = Some a ->
    Forall has_question_id before ->
    dict_get d "question_id" = None ->
    fs_ready (fs w) ->
    exists w',
      collect_questions_with_answers remote json_dumps self tag min_answers
        from_date to_date min_score max_count w
      = (Raise (KeyError "question_id"), w').
Proof.
  intros tag min_answers from_date to_date min_score max_count w before after d
    w1 a Hq Hapi Hids Hnone Hfs.
  pose proof (@keeps_run _ _ _ _ _ _
                (calm_collect_questions remote self tag min_answers from_date
                   to_date min_score max_count) Hq) as (Hfs1 & _ & _).
  unfold collect_questions_with_answers. unfold bind at 1. rewrite Hq. clear Hq.
  destruct (before ++ VDict d :: after)%list as [|q0 rest0] eqn:Hqs.
  { destruct before; discriminate Hqs. }
  rewrite <- Hqs. clear Hqs q0 rest0.
  rewrite collect_loop_app.
  assert (Hloop :
    returns (collect_loop remote json_dumps self
               (Z.of_nat (List.length (before ++ VDict d :: after))) 0 before []) w1
      (fun res w' =>
         (exists new, res = ([] ++ new)%list /\
                      Forall2 (merged (own_fetch remote a) w') before new) /\
         (fs_ready (fs w') /\ api w' = Some a) /\ grows w1 w')).
  { apply collect_loop_returns with (ok_id := any_id).
    - intros. eapply own_fetch_stable; eassumption.
    - apply live_answers_ok; assumption.
    - apply live_save_ok.
    - clear - Hids. induction Hids as [|q l (d & question_id & -> & Hid) _ IH];
        constructor; [|exact IH].
      exists d, question_id. repeat split; assumption.
    - split; [rewrite Hfs1; exact Hfs | exact Hapi]. }
  apply returns_inv in Hloop. destruct Hloop as (res & w2 & Hrun & _).
  rewrite Hrun. cbn [collect_loop]. unfold bind at 1. unfold getitem.
  rewrite Hnone. eexists. reflexivity.
Qed.

End Malformed.

(** ** Unusual counts *)

(** X12: in mock mode a count that is not positive gives the empty
    sequence and does nothing at all: no record is made, no random
    number is drawn and no file is written. *)
Theorem mock_nonpositive_count_is_empty :
  forall (remote : list event -> request -> fetch_outcome)
         (json_dumps : value -> string) (self : StackExchangeCollector)
         (tag : string) (min_answers : Z) (from_date to_date : option Z)
         (min_score max_count : Z) (w : world),
    use_mock_data self = true ->
    max_count <= 0 ->
    collect_questions_with_answers remote json_dumps self tag min_answers
      from_date to_date min_score max_count w = (Ok [], w).
Proof.
  intros remote json_dumps self tag min_answers from_date to_date min_score
    max_count w mock Hcount.
  unfold collect_questions_with_answers, bind, collect_questions.
  rewrite mock. unfold _generate_mock_questions, range.
  replace (Z.to_nat (max_count + 1 - 1)) with O by lia. reflexivity.
Qed.

(** ** The page limit of the constructor *)

(** X14: the [max_pages] given to the constructor has no effect on a
    run: with a page size other than 0, building the collector with one
    page limit or another and running the pipeline gives the same result
    and the same final state. *)
Theorem max_pages_of_the_constructor_is_never_used :
  forall (remote : list event -> request -> fetch_outcome)
         (StackAPI_new : string -> option string -> result StackAPI)
         (json_dumps : value -> string)
         (key : option string) (site : string)
         (page_size max_pages max_pages' rate_limit : Z) (use_mock_data : bool)
         (tag : string) (min_answers : Z) (from_date to_date : option Z)
         (min_score max_count : Z) (w : world),
    page_size <> 0 ->
    bind (__init__ StackAPI_new key site page_size max_pages rate_limit use_mock_data)
      (fun collector =>
         collect_questions_with_answers remote json_dumps collector tag min_answers
           from_date to_date min_score max_count) w
    = bind (__init__ StackAPI_new key site page_size max_pages' rate_limit use_mock_data)
        (fun collector =>
           collect_questions_with_answers remote json_dumps collector tag min_answers
             from_date to_date min_score max_count) w.
Proof.
  intros remote StackAPI_new json_dumps key site page_size max_pages max_pages'
    rate_limit use_mock tag min_answers from_date to_date min_score max_count w Hps.
  unfold __init__. destruct use_mock; cbn [negb]; [reflexivity|].
  destruct (StackAPI_new site _) as [a|e]; [|reflexivity].
  unfold bind at 1. unfold bind at 1. cbv beta iota.
  unfold collect_questions_with_answers, bind.
  rewrite (@live_collect_questions_run remote (mkCollector false page_size rate_limit)
             eq_refl tag min_answers from_date to_date min_score max_count
             (set_api (Some (mkStackAPI (api_site a) (api_key a) page_size max_pages)) w)
             _ eq_refl Hps).
  rewrite (@live_collect_questions_run remote (mkCollector false page_size rate_limit)
             eq_refl tag min_answers from_date to_date min_score max_count
             (set_api (Some (mkStackAPI (api_site a) (api_key a) page_size max_pages')) w)
             _ eq_refl Hps).
  reflexivity.
Qed.

(** ** The entry point *)

Lemma fold_add_dir_new l : forall ds d,
  existsb (String.eqb d) (fold_left add_dir l ds) = true ->
  existsb (String.eqb d) ds = true \/ In d l.
Proof.
  induction l as [|x l IH]; intros ds d H; simpl in *; [left; exact H|].
  destruct (IH _ _ H) as [H'|H']; [|right; right; exact H'].
  rewrite existsb_add_dir in H'. apply orb_true_iff in H'.
  destruct H' as [H'|H']; [left; exact H'|].
  right. left. apply String.eqb_eq in H'. symmetry. exact H'.
Qed.

(** The only directories [save_to_json] can make are those on the way to
    the file. *)
Lemma save_to_json_new_dirs json_dumps data file_path w r w' d :
  save_to_json json_dumps data file_path w = (r, w') ->
  is_dir (fs w') d = true ->
  is_dir (fs w) d = true \/ In d (ancestors (os_path_dirname file_path)).
Proof.
  unfold save_to_json, bind, os_makedirs, open_write.
  destruct (is_empty (os_path_dirname file_path)).
  { intro E. inversion E; subst. auto. }
  destruct (is_file (fs w) (os_path_dirname file_path)).
  { intro E. inversion E; subst. auto. }
  destruct (existsb _ _).
  { intro E. inversion E; subst. auto. }
  cbn [fs set_fs dirs files].
  destruct (is_empty file_path).
  { intro E. inversion E; subst. apply fold_add_dir_new. }
  destruct (_ || _)%bool.
  { intro E. inversion E; subst. apply fold_add_dir_new. }
  destruct (_ && _)%bool.
  { intro E. inversion E; subst. apply fold_add_dir_new. }
  intro E. inversion E; subst. apply fold_add_dir_new.
Qed.

(** The state in which [main] can write its checkpoints and its output. *)
Lemma save_temp_keeps_output json_dumps data k w :
  fs_ready (fs w) /\ is_dir (fs w) output_file = false ->
  returns (save_to_json json_dumps data (temp_path k)) w
    (fun _ w' => (fs_ready (fs w') /\ is_dir (fs w') output_file = false) /\ grows w w').
Proof.
  intros [Hfs Hout].
  pose proof (save_temp_returns json_dumps data k w Hfs) as H.
  unfold returns in *.
  destruct (save_to_json json_dumps data (temp_path k) w) as [[[]|e] w'] eqn:E;
    [|contradiction].
  destruct H as (Hfs' & _ & Htr).
  split; [split; [exact Hfs'|] | eexists; exact Htr].
  destruct (is_dir (fs w') output_file) eqn:Hd; [|reflexivity].
  destruct (save_to_json_new_dirs _ _ _ _ _ E Hd) as [H|H].
  - congruence.
  - rewrite dirname_temp_path in H.
    destruct H as [H|[H|[]]]; discriminate H.
Qed.

Lemma save_output_returns json_dumps data w :
  fs_ready (fs w) -> is_dir (fs w) output_file = false ->
  returns (save_to_json json_dumps data output_file) w
    (fun _ w' =>
       api w' = api w /\
       trace w' = (trace w ++ [EvWrite output_file (json_dumps (VList data))])%list /\
       read_file (files (fs w')) output_file = Some (json_dumps (VList data))).
Proof.
  intros (Hdata & Hraw & _) Hout.
  destruct (save_to_json json_dumps data output_file w) as [r w'] eqn:E.
  pose proof (save_to_json_run _ _ _ _ E) as (_ & _ & Hapi & H).
  assert (Hr : exists u, r = Ok u).
  { revert E. clear H Hapi.
    unfold save_to_json, bind, os_makedirs, open_write.
    change (os_path_dirname output_file) with "data/raw".
    change (is_empty "data/raw") with false. cbv iota.
    rewrite Hraw.
    change (ancestors "data/raw") with ["data"; "data/raw"].
    cbn [existsb]. rewrite Hdata, Hraw. cbn [orb].
    cbn [fs set_fs dirs files fold_left].
    change (is_empty output_file) with false.
    change (ends_with_sep output_file) with false. cbv iota.
    unfold is_dir at 1. cbn [dirs].
    rewrite !existsb_add_dir.
    fold (is_dir (fs w) output_file). rewrite Hout.
    change (String.eqb output_file "data") with false.
    change (String.eqb output_file "data/raw") with false. cbn [orb].
    cbn [negb andb].
    unfold is_dir. cbn [dirs]. rewrite !existsb_add_dir.
    rewrite String.eqb_refl, orb_true_r. cbn [negb].
    intro E. inversion E. eexists. reflexivity. }
  destruct Hr as [[] ->]. unfold returns. rewrite E.
  destruct H as [Htr Hread]. repeat split; assumption.
Qed.

Section MockReady.

Variable remote : list event -> request -> fetch_outcome.
Variable json_dumps : value -> string.
Variable self : StackExchangeCollector.
Hypothesis mock : use_mock_data self = true.

Lemma mock_pipeline_ready tag min_answers from_date to_date min_score max_count w :
  fs_ready (fs w) -> is_dir (fs w) output_file = false ->
  returns
    (collect_questions_with_answers remote json_dumps self tag min_answers
       from_date to_date min_score max_count) w
    (fun res w' =>
       List.length res = Z.to_nat max_count /\
       Forall (fun q => has_answers q = true) res /\
       fs_ready (fs w') /\ is_dir (fs w') output_file = false).
Proof.
  intros Hfs Hout. unfold collect_questions_with_answers, collect_questions.
  rewrite mock. apply returns_bind.
  eapply returns_weaken; [apply mock_questions_returns|].
  cbv beta. intros questions w1 (HF & Hw1).
  assert (Hlen : List.length questions = Z.to_nat max_count).
  { apply Forall2_length in HF. rewrite range_length in HF.
    rewrite <- HF. f_equal. lia. }
  assert (Hinv : fs_ready (fs w1) /\ is_dir (fs w1) output_file = false).
  { destruct Hw1 as (_ & -> & _). split; assumption. }
  destruct questions as [|q rest] eqn:Hq.
  { apply returns_ret. split; [exact Hlen|]. split; [constructor | exact Hinv]. }
  rewrite <- Hq in *. clear Hq q rest.
  assert (Hids : Forall (identified is_int) questions).
  { clear - HF. induction HF; constructor; eauto using question_at_identified. }
  eapply returns_weaken.
  - apply collect_loop_returns
      with (Inv := fun w => fs_ready (fs w) /\ is_dir (fs w) output_file = false)
           (ok_id := is_int) (R := non_empty).
    + intros; assumption.
    + intros question_id w2 [z ->] Hinv2.
      unfold collect_answers_for_question. rewrite mock.
      eapply returns_weaken; [apply mock_answers_returns|].
      cbv beta. intros answers w3 ((n & Hn & HFa) & Hw3).
      split; [|split; [|apply only_tape_grows; exact Hw3]].
      * apply Forall2_length in HFa. rewrite range_length in HFa.
        unfold non_empty. destruct answers; [simpl in HFa; lia | discriminate].
      * destruct Hw3 as (_ & -> & _). exact Hinv2.
    + intros data k w2. apply save_temp_keeps_output.
    + exact Hids.
    + exact Hinv.
  - cbv beta. intros res w2 ((new & -> & Hnew) & Hinv2 & _). simpl.
    split; [apply Forall2_length in Hnew; congruence|].
    split; [|exact Hinv2].
    clear - Hnew. induction Hnew; constructor; eauto using merged_has_answers.
Qed.

End MockReady.

Lemma checkpoints_last total : 0 < total -> In total (checkpoints total).
Proof. intro H. apply checkpoints_spec. lia. Qed.

Section MainRuns.

Variable remote : list event -> request -> fetch_outcome.
Variable StackAPI_new : string -> option string -> result StackAPI.
Variable json_dumps : value -> string.
Variable environ : string -> option string.
Variable py_int : string -> option Z.

Lemma getenv_int_cases key default w :
  (getenv_int environ py_int key default w
   = (Ok (int_setting environ py_int key default), w) /\
   ~ unreadable environ py_int key) \/
  (getenv_int environ py_int key default w = (Raise ValueError, w) /\
   unreadable environ py_int key).
Proof.
  unfold getenv_int, int_setting, unreadable.
  destruct (environ key) as [s|] eqn:E.
  - destruct (py_int s) eqn:P.
    + left. split; [reflexivity|]. intros (s' & Hs & Hn). congruence.
    + right. split; [reflexivity|]. exists s. split; [reflexivity | exact P].
  - left. split; [reflexivity|]. intros (s' & Hs & _). discriminate.
Qed.

Lemma getenv_int_readable key default w :
  ~ unreadable environ py_int key ->
  getenv_int environ py_int key default w
  = (Ok (int_setting environ py_int key default), w).
Proof.
  intro H. destruct (getenv_int_cases key default w) as [[E _]|[_ Hu]];
    [exact E | contradiction].
Qed.

(** With settings that can be read, [main] is the part under its [try]
    run with these settings. *)
Lemma main_configured w :
  (forall key, In key int_keys -> ~ unreadable environ py_int key) ->
  main remote StackAPI_new json_dumps environ py_int w
  = try_except
      (bind
         (__init__ StackAPI_new
            match environ "STACK_EXCHANGE_API_KEY" with
            | Some k => if String.eqb k "your_api_key_here" then None else Some k
            | None => None
            end
            (getenv environ "STACK_EXCHANGE_SITE" "stackoverflow")
            (int_setting environ py_int "STACK_EXCHANGE_BATCH_SIZE" 100)
            (int_setting environ py_int "STACK_EXCHANGE_MAX_PAGES" 5)
            (int_setting environ py_int "STACK_EXCHANGE_RATE_LIMIT" 30)
            (String.eqb (lower (getenv environ "USE_MOCK_DATA" "false")) "true"))
         (fun collector =>
            bind (collect_questions_with_answers remote json_dumps collector
                    (getenv environ "TAG" "nlp")
                    (int_setting environ py_int "MIN_ANSWERS" 1) None None
                    (int_setting environ py_int "MIN_SCORE" 0)
                    (int_setting environ py_int "MAX_COUNT" 10))
              (fun questions_with_answers =>
                 match questions_with_answers with
                 | [] => ret tt
                 | _ :: _ => save_to_json json_dumps questions_with_answers output_file
                 end)))
      (fun _ => true) (fun _ => ret tt) w.
Proof.
  intro H. unfold main.
  do 6 (unfold bind at 1; rewrite getenv_int_readable by (apply H; simpl; tauto)).
  reflexivity.
Qed.

(** X15: [main] lets one exception out, the [ValueError] of a setting
    that [int] cannot read ([STACK_EXCHANGE_BATCH_SIZE],
    [STACK_EXCHANGE_MAX_PAGES], [STACK_EXCHANGE_RATE_LIMIT], [MIN_ANSWERS],
    [MIN_SCORE] or [MAX_COUNT]), raised before anything is done; with
    readable settings it returns normally whatever happens under its
    [try]. *)
Theorem main_raises_only_on_unreadable_settings :
  forall (w : world),
    ((exists key, In key int_keys /\ unreadable environ py_int key) /\
     main remote StackAPI_new json_dumps environ py_int w = (Raise ValueError, w)) \/
    ((forall key, In key int_keys -> ~ unreadable environ py_int key) /\
     exists w', main remote StackAPI_new json_dumps environ py_int w = (Ok tt, w')).
Proof.
  intro w.
  assert (Hcases :
    (exists key, In key int_keys /\ unreadable environ py_int key /\
       main remote StackAPI_new json_dumps environ py_int w = (Raise ValueError, w)) \/
    (forall key, In key int_keys -> ~ unreadable environ py_int key)).
  { unfold main.
    destruct (getenv_int_cases "STACK_EXCHANGE_BATCH_SIZE" 100 w) as [[E1 R1]|[E1 U1]];
      unfold bind at 1; rewrite E1;
      [|left; exists "STACK_EXCHANGE_BATCH_SIZE"; simpl; tauto].
    destruct (getenv_int_cases "STACK_EXCHANGE_MAX_PAGES" 5 w) as [[E2 R2]|[E2 U2]];
      unfold bind at 1; rewrite E2;
      [|left; exists "STACK_EXCHANGE_MAX_PAGES"; simpl; tauto].
    destruct (getenv_int_cases "STACK_EXCHANGE_RATE_LIMIT" 30 w) as [[E3 R3]|[E3 U3]];
      unfold bind at 1; rewrite E3;
      [|left; exists "STACK_EXCHANGE_RATE_LIMIT"; simpl; tauto].
    destruct (getenv_int_cases "MIN_ANSWERS" 1 w) as [[E4 R4]|[E4 U4]];
      unfold bind at 1; rewrite E4;
      [|left; exists "MIN_ANSWERS"; simpl; tauto].
    destruct (getenv_int_cases "MIN_SCORE" 0 w) as [[E5 R5]|[E5 U5]];
      unfold bind at 1; rewrite E5;
      [|left; exists "MIN_SCORE"; simpl; tauto].
    destruct (getenv_int_cases "MAX_COUNT" 10 w) as [[E6 R6]|[E6 U6]];
      unfold bind at 1; rewrite E6;
      [|left; exists "MAX_COUNT"; simpl; tauto].
    right. intros key Hin. simpl in Hin.
    destruct Hin as [<-|[<-|[<-|[<-|[<-|[<-|[]]]]]]]; assumption. }
  destruct Hcases as [(key & Hin & Hu & Hrun)|Hready].
  - left. split; [exists key; split; assumption | exact Hrun].
  - right. split; [exact Hready|].
    rewrite (main_configured w Hready). unfold try_except.
    match goal with
    | |- exists w', match ?m with _ => _ end = _ =>
        destruct m as [[[]|e] w1]
    end; eexists; reflexivity.
Qed.

(** X16: when the constructor of the client raises, whatever it raises,
    [main] in live mode returns normally and has done nothing. *)
Theorem main_survives_a_failing_client :
  forall (w : world) (e : exn),
    String.eqb (lower (getenv environ "USE_MOCK_DATA" "false")) "true" = false ->
    (forall key, In key int_keys -> ~ unreadable environ py_int key) ->
    (forall key,
       StackAPI_new (getenv environ "STACK_EXCHANGE_SITE" "stackoverflow") key
       = Raise e) ->
    main remote StackAPI_new json_dumps environ py_int w = (Ok tt, w).
Proof.
  intros w e Hlive Hready Hnew.
  rewrite (main_configured w Hready). rewrite Hlive.
  unfold try_except, bind, __init__. cbn [negb]. rewrite Hnew. reflexivity.
Qed.

(** X17: [main] in mock mode with readable settings and [MAX_COUNT = K > 0]
    returns normally, whatever the client constructor and the remote
    service would do.  It writes the checkpoints of the [K] records and
    then the output file; the output file holds the document of all [K]
    records, each with answers, which is also the document of the last
    checkpoint. *)
Theorem main_mock_run :
  forall (w : world),
    String.eqb (lower (getenv environ "USE_MOCK_DATA" "false")) "true" = true ->
    (forall key, In key int_keys -> ~ unreadable environ py_int key) ->
    let K := int_setting environ py_int "MAX_COUNT" 10 in
    0 < K ->
    fs_ready (fs w) ->
    is_dir (fs w) output_file = false ->
    exists res w',
      main remote StackAPI_new json_dumps environ py_int w = (Ok tt, w') /\
      Z.of_nat (List.length res) = K /\
      Forall (fun q => has_answers q = true) res /\
      writes (trace w')
      = (writes (trace w)
         ++ map (checkpoint_of json_dumps res) (checkpoints K)
         ++ [(output_file, json_dumps (VList res))])%list /\
      In (temp_path K, json_dumps (VList res)) (writes (trace w')) /\
      read_file (files (fs w')) output_file = Some (json_dumps (VList res)).
Proof.
  intros w Hmock Hready K HK Hfs Hout.
  rewrite (main_configured w Hready). rewrite Hmock. fold K.
  set (self := mkCollector true
                 (int_setting environ py_int "STACK_EXCHANGE_BATCH_SIZE" 100)
                 (int_setting environ py_int "STACK_EXCHANGE_RATE_LIMIT" 30)).
  destruct (returns_inv _ _ _
              (@mock_pipeline_ready remote json_dumps self eq_refl
                 (getenv environ "TAG" "nlp")
                 (int_setting environ py_int "MIN_ANSWERS" 1) None None
                 (int_setting environ py_int "MIN_SCORE" 0) K w Hfs Hout))
    as (res & w1 & Hrun & Hlen & Hans & Hfs1 & Hout1).
  destruct (pipeline_writes _ _ _ _ _ _ _ _ _ _ Hrun) as [Hwrites _].
  destruct (returns_inv _ _ _ (save_output_returns json_dumps res w1 Hfs1 Hout1))
    as ([] & w' & Hsave & _ & Htr & Hread).
  assert (HlenZ : Z.of_nat (List.length res) = K) by lia.
  assert (Hall : writes (trace w')
                 = (writes (trace w)
                    ++ map (checkpoint_of json_dumps res) (checkpoints K)
                    ++ [(output_file, json_dumps (VList res))])%list).
  { rewrite Htr, writes_app, Hwrites, HlenZ, <- app_assoc. reflexivity. }
  exists res, w'. split.
  - unfold try_except, bind, __init__. cbn [negb]. unfold ret at 1.
    fold self. rewrite Hrun.
    destruct res as [|r0 res0] eqn:Hres; [simpl in Hlen; lia|].
    rewrite Hsave. reflexivity.
  - split; [exact HlenZ|]. split; [exact Hans|]. split; [exact Hall|].
    split; [|exact Hread].
    rewrite Hall. apply in_or_app. right. apply in_or_app. left.
    apply in_map_iff. exists K. split; [|apply checkpoints_last; exact HK].
    unfold checkpoint_of. rewrite <- HlenZ, Nat2Z.id, firstn_all. reflexivity.
Qed.

End MainRuns.

(** ** The checkpoints on disk *)

Lemma apply_writes_app l ws1 ws2 :
  apply_writes l (ws1 ++ ws2) = apply_writes (apply_writes l ws1) ws2.
Proof. apply fold_left_app. Qed.

Lemma synced_refl w : synced w w.
Proof. exists []. split; [symmetry; apply app_nil_r | reflexivity]. Qed.

Lemma synced_trans w1 w2 w3 : synced w1 w2 -> synced w2 w3 -> synced w1 w3.
Proof.
  intros (s1 & T1 & F1) (s2 & T2 & F2). exists (s1 ++ s2)%list. split.
  - rewrite T2, T1, app_assoc. reflexivity.
  - rewrite F2, F1, writes_app, apply_writes_app. reflexivity.
Qed.

Lemma calm_synced w w' : calm w w' -> synced w w'.
Proof.
  intros (Hfs & Hwr & suffix & Htr). exists suffix. split; [exact Htr|].
  rewrite Htr, writes_app in Hwr.
  assert (Hnil : writes suffix = []).
  { apply (app_inv_head (writes (trace w))). rewrite Hwr. symmetry. apply app_nil_r. }
  rewrite Hnil, Hfs. reflexivity.
Qed.

Lemma synced_save json_dumps data file_path :
  keeps synced (save_to_json json_dumps data file_path).
Proof.
  intro w. unfold save_to_json, bind, os_makedirs, open_write.
  destruct (is_empty (os_path_dirname file_path)); [apply synced_refl|].
  destruct (is_file (fs w) (os_path_dirname file_path)); [apply synced_refl|].
  destruct (existsb _ _); [apply synced_refl|].
  cbn [fs set_fs dirs files].
  destruct (is_empty file_path);
    [exists []; split; [symmetry; apply app_nil_r | reflexivity]|].
  destruct (_ || _)%bool;
    [exists []; split; [symmetry; apply app_nil_r | reflexivity]|].
  destruct (_ && _)%bool;
    [exists []; split; [symmetry; apply app_nil_r | reflexivity]|].
  exists [EvWrite file_path (json_dumps (VList data))]. split; reflexivity.
Qed.

Section Synced.

Variable remote : list event -> request -> fetch_outcome.
Variable json_dumps : value -> string.
Variable self : StackExchangeCollector.

Lemma synced_loop questions :
  forall acc total i,
    keeps synced (collect_loop remote json_dumps self total i questions acc).
Proof.
  induction questions as [|q rest IH]; intros acc total i; cbn [collect_loop].
  - apply keeps_ret. exact synced_refl.
  - apply keeps_bind; [exact synced_trans | |].
    { intro w. destruct (getitem q "question_id" w) as [r w'] eqn:E.
      rewrite (getitem_run _ _ _ E). apply synced_refl. }
    intro question_id. apply keeps_bind; [exact synced_trans | |].
    { eapply keeps_weaken; [exact calm_synced | apply calm_collect_answers]. }
    intro answers. apply keeps_bind; [exact synced_trans | |].
    { intro w. destruct q; apply synced_refl. }
    intro question'. apply keeps_bind; [exact synced_trans | | intros _; apply IH].
    destruct (_ || _)%bool; [apply synced_save|].
    apply keeps_ret. exact synced_refl.
Qed.

Lemma synced_pipeline tag min_answers from_date to_date min_score max_count :
  keeps synced
    (collect_questions_with_answers remote json_dumps self tag min_answers
       from_date to_date min_score max_count).
Proof.
  unfold collect_questions_with_answers.
  apply keeps_bind; [exact synced_trans | |].
  - eapply keeps_weaken; [exact calm_synced | apply calm_collect_questions].
  - intros [|q rest]; [apply keeps_ret; exact synced_refl | apply synced_loop].
Qed.

End Synced.

Lemma apply_writes_cons l p c ws :
  apply_writes l ((p, c) :: ws) = apply_writes (put_file l p c) ws.
Proof. reflexivity. Qed.

Lemma read_apply_writes_other ws : forall l p,
  ~ In p (map fst ws) -> read_file (apply_writes l ws) p = read_file l p.
Proof.
  induction ws as [|[p0 c0] ws IH]; intros l p Hp; [reflexivity|].
  rewrite apply_writes_cons. simpl in Hp. rewrite IH by tauto.
  apply read_put_file_other. intro E. apply Hp. left. symmetry. exact E.
Qed.

Lemma read_apply_writes ws : forall l p c,
  NoDup (map fst ws) -> In (p, c) ws -> read_file (apply_writes l ws) p = Some c.
Proof.
  induction ws as [|[p0 c0] ws IH]; intros l p c Hnd Hin; [contradiction|].
  simpl in Hnd. inversion Hnd as [|? ? Hfresh Hnd']; subst.
  rewrite apply_writes_cons. destruct Hin as [E|Hin].
  - inversion E; subst.
    rewrite (@read_apply_writes_other ws _ p Hfresh). apply read_put_file.
  - apply IH; assumption.
Qed.

Lemma string_app_inv_head p : forall a b : string, p ++ a = p ++ b -> a = b.
Proof.
  induction p as [|c p IH]; intros a b H; simpl in H; [exact H|].
  injection H as H. apply IH. exact H.
Qed.

Lemma string_length_app a : forall b : string,
  String.length (a ++ b) = (String.length a + String.length b)%nat.
Proof. induction a as [|c a IH]; intro b; simpl; [reflexivity | rewrite IH; reflexivity]. Qed.

Lemma string_app_inv_tail t : forall a b : string, a ++ t = b ++ t -> a = b.
Proof.
  induction a as [|c a IH]; intros [|c' b] H; simpl in H.
  - reflexivity.
  - apply (f_equal String.length) in H. simpl in H. rewrite string_length_app in H. lia.
  - apply (f_equal String.length) in H. simpl in H. rewrite string_length_app in H. lia.
  - injection H as -> H. f_equal. apply IH. exact H.
Qed.

Lemma str_of_Z_injective k1 k2 : str_of_Z k1 = str_of_Z k2 -> k1 = k2.
Proof.
  intro H. pose proof (int_of_str_of_Z k1) as H1. rewrite H, int_of_str_of_Z in H1.
  injection H1 as H1.
  rewrite <- (DecimalZ.of_to k1), <- (DecimalZ.of_to k2), H1. reflexivity.
Qed.

(** Two running counts never share a checkpoint file. *)
Lemma temp_path_injective k1 k2 : temp_path k1 = temp_path k2 -> k1 = k2.
Proof.
  unfold temp_path. intro H.
  apply string_app_inv_head, string_app_inv_tail in H.
  apply str_of_Z_injective. exact H.
Qed.

Lemma range_NoDup a b : NoDup (range a b).
Proof.
  unfold range. apply NoDup_map_injective; [|apply seq_NoDup].
  intros x y E. lia.
Qed.

(** X18: after a run of the pipeline that returns, in either mode, every
    checkpoint is on disk: for each running count [k] that is a multiple
    of ten or the count of the last question, the file of [k] holds the
    document of the first [k] returned records; a later checkpoint never
    replaced an earlier one. *)
Theorem checkpoint_files_hold_the_prefixes :
  forall (remote : list event -> request -> fetch_outcome)
         (json_dumps : value -> string) (self : StackExchangeCollector)
         (tag : string) (min_answers : Z) (from_date to_date : option Z)
         (min_score max_count : Z) (w : world) (res : list value) (w' : world),
    collect_questions_with_answers remote json_dumps self tag min_answers
      from_date to_date min_score max_count w = (Ok res, w') ->
    forall k,
      1 <= k <= Z.of_nat (List.length res) ->
      k mod 10 = 0 \/ k = Z.of_nat (List.length res) ->
      read_file (files (fs w')) (temp_path k)
      = Some (json_dumps (VList (firstn (Z.to_nat k) res))).
Proof.
  intros remote json_dumps self tag min_answers from_date to_date min_score
    max_count w res w' Hrun k Hk Hcp.
  pose proof (@keeps_run _ _ _ _ _ _
                (synced_pipeline remote json_dumps self tag min_answers from_date
                   to_date min_score max_count) Hrun) as (suffix & Htr & Hfiles).
  destruct (pipeline_writes _ _ _ _ _ _ _ _ _ _ Hrun) as [Hwrites _].
  rewrite Htr, writes_app in Hwrites. apply app_inv_head in Hwrites.
  rewrite Hfiles, Hwrites.
  apply read_apply_writes.
  - rewrite map_map. cbn [checkpoint_of fst].
    apply NoDup_map_injective; [exact temp_path_injective|].
    unfold checkpoints. apply NoDup_filter, range_NoDup.
  - apply in_map_iff. exists k. split; [reflexivity|].
    apply checkpoints_spec. split; assumption.
Qed.

(** ** The records of a mock run *)

Lemma Forall2_chain A B C (P : A -> B -> Prop) (Q : B -> C -> Prop) l1 l2 :
  Forall2 P l1 l2 -> forall l3, Forall2 Q l2 l3 ->
  Forall2 (fun a c => exists b, P a b /\ Q b c) l1 l3.
Proof.
  induction 1 as [|a b l1 l2 Hab _ IH]; intros l3 H; inversion H; subst;
    constructor; eauto.
Qed.

Section MockRecords.

Variable remote : list event -> request -> fetch_outcome.
Variable json_dumps : value -> string.
Variable self : StackExchangeCollector.
Hypothesis mock : use_mock_data self = true.

Lemma mock_answers_own question_id w :
  is_int question_id -> fs_ready (fs w) ->
  returns (collect_answers_for_question remote self question_id) w
    (fun answers w' =>
       mock_answers_of question_id answers w' /\ fs_ready (fs w') /\ grows w w').
Proof.
  intros [z ->] Hfs. unfold collect_answers_for_question. rewrite mock.
  eapply returns_weaken; [apply mock_answers_returns|].
  cbv beta. intros answers w' ((n & Hn & HF) & Hw).
  split; [|split; [|apply only_tape_grows; exact Hw]].
  - exists z, n. repeat split; try assumption; lia.
  - destruct Hw as (_ & -> & _). exact Hfs.
Qed.

(** X19: a mock run gives every question its own answers.  The record
    at position [i], counted from 1, has the identifier [i] and carries
    between one and five answers, numbered in order from a hundred
    times [i] plus one, of which the first and only the first is marked
    accepted. *)
Theorem mock_records_carry_their_own_answers :
  forall (tag : string) (min_answers : Z) (from_date to_date : option Z)
         (min_score max_count : Z) (w : world),
    fs_ready (fs w) ->
    exists res w',
      collect_questions_with_answers remote json_dumps self tag min_answers
        from_date to_date min_score max_count w = (Ok res, w') /\
      Forall2
        (fun i r =>
           field r "question_id" = Some (VInt i) /\
           exists answers n,
             field r "answers" = Some (VList answers) /\
             1 <= n <= 5 /\
             Forall2
               (fun j a =>
                  field a "answer_id" = Some (VInt (i * 100 + j)) /\
                  field a "is_accepted" = Some (VBool (j =? 1)))
               (range 1 (n + 1)) answers)
        (range 1 (max_count + 1)) res.
Proof.
  intros tag min_answers from_date to_date min_score max_count w Hfs.
  apply returns_inv.
  unfold collect_questions_with_answers, collect_questions.
  rewrite mock. apply returns_bind.
  eapply returns_weaken; [apply mock_questions_returns|].
  cbv beta. intros questions w1 (HF & Hw1).
  destruct questions as [|q rest] eqn:Hq.
  { apply returns_ret. inversion HF. constructor. }
  rewrite <- Hq in *. clear Hq q rest.
  assert (Hfs1 : fs_ready (fs w1)) by (destruct Hw1 as (_ & -> & _); exact Hfs).
  assert (Hids : Forall (identified is_int) questions).
  { clear - HF. induction HF; constructor; eauto using question_at_identified. }
  eapply returns_weaken.
  - apply collect_loop_returns
      with (Inv := fun w => fs_ready (fs w)) (ok_id := is_int) (R := mock_answers_of);
      [ intros; assumption | apply mock_answers_own | apply mock_save_ok
      | exact Hids | exact Hfs1 ].
  - cbv beta. intros res w2 ((new & -> & Hnew) & _ & _). simpl.
    pose proof (Forall2_chain HF Hnew) as Hboth.
    clear - Hboth. induction Hboth as [|i r l1 l2 (q & Hq & Hm) _ IH];
      constructor; [|exact IH].
    destruct Hq as (Hid & _).
    destruct Hm as (d & question_id & answers & -> & Hid' & (z & n & -> & Hn & HFa) & ->).
    cbn [field] in *. rewrite Hid in Hid'. inversion Hid'; subst z.
    split.
    + rewrite dict_get_set_other by discriminate. exact Hid.
    + exists answers, n. split; [apply dict_get_set_same|]. split; [exact Hn|].
      exact HFa.
Qed.

End MockRecords.

(** ** The entry point against a remote that is down *)

Section MainLive.

Variable remote : list event -> request -> fetch_outcome.
Variable StackAPI_new : string -> option string -> result StackAPI.
Variable json_dumps : value -> string.
Variable environ : string -> option string.
Variable py_int : string -> option Z.

(** X20: [main] in live mode against a remote that refuses every request
    with the client's error returns normally; it has sent one request,
    the one for the questions, and the file system is as before: no
    output file and no checkpoint is left. *)
Theorem main_leaves_no_file_when_the_api_is_down :
  forall (w : world) (msg : string),
    String.eqb (lower (getenv environ "USE_MOCK_DATA" "false")) "true" = false ->
    (forall key, In key int_keys -> ~ unreadable environ py_int key) ->
    (forall key, exists a,
       StackAPI_new (getenv environ "STACK_EXCHANGE_SITE" "stackoverflow") key = Ok a) ->
    int_setting environ py_int "STACK_EXCHANGE_BATCH_SIZE" 100 <> 0 ->
    (forall tr r, remote tr r = FetchRaise (StackAPIError msg)) ->
    exists w',
      main remote StackAPI_new json_dumps environ py_int w = (Ok tt, w') /\
      fs w' = fs w /\
      exists r, req_endpoint r = Questions /\ trace w' = (trace w ++ [EvFetch r])%list.
Proof.
  intros w msg Hlive Hready Hnew Hps Hdown.
  rewrite (main_configured remote StackAPI_new json_dumps w Hready). rewrite Hlive.
  unfold try_except. unfold bind at 1. unfold __init__. cbn [negb].
  match goal with
  | |- context [StackAPI_new _ ?key] => destruct (Hnew key) as [a Ha]; rewrite Ha
  end.
  unfold collect_questions_with_answers. unfold bind at 1. unfold bind at 1.
  match goal with
  | |- context [collect_questions remote ?self ?tag ?ma ?fd ?td ?ms ?mc ?w0] =>
      rewrite (@live_collect_questions_run remote self eq_refl tag ma fd td ms mc w0
                 _ eq_refl Hps)
  end.
  rewrite Hdown. cbn [is_StackAPIError].
  eexists. split; [reflexivity|]. split; [reflexivity|].
  eexists. split; [|reflexivity]. reflexivity.
Qed.

End MainLive.

(** ** Concrete runs of the properties above *)

Lemma no_environ_readable :
  forall key, In key int_keys -> ~ unreadable no_environ decimal_int key.
Proof. intros key _ (s & Hs & _). discriminate Hs. Qed.

Lemma mock_environ_readable :
  forall key, In key int_keys -> ~ unreadable mock_environ decimal_int key.
Proof.
  intros key Hin (s & Hs & Hn). simpl in Hin.
  destruct Hin as [<-|[<-|[<-|[<-|[<-|[<-|[]]]]]]];
    vm_compute in Hs; try discriminate Hs.
  inversion Hs; subst s. vm_compute in Hn. discriminate Hn.
Qed.

Example main_broken_setting :
  main no_remote no_client count_dumps broken_environ decimal_int mock_world
  = (Raise ValueError, mock_world).
Proof. reflexivity. Qed.

Lemma mock_mode_is_offline_witness :
  collect_questions_with_answers failing_remote count_dumps mock_collector
    "nlp" 1 None None 0 3 mock_world
  = collect_questions_with_answers no_remote count_dumps mock_collector
      "nlp" 1 None None 0 3 mock_world /\
  api (snd (collect_questions_with_answers no_remote count_dumps mock_collector
              "nlp" 1 None None 0 3 mock_world)) = None.
Proof.
  pose proof (@mock_mode_is_offline count_dumps mock_collector eq_refl
                no_remote failing_remote "nlp" 1 None None 0 3 mock_world) as H.
  cbv zeta in H. destruct H as (H1 & H2 & _).
  split; [exact H1 | exact H2].
Defined.

Lemma save_to_json_removes_nothing_witness :
  exists w',
    save_to_json count_dumps [question_1] "out/data.json"
      (mkWorld [] 0 (mkFs [] [("keep.json", "kept")]) None [])
    = (Ok tt, w') /\
    is_file (fs w') "keep.json" = true /\
    trace w' = [EvWrite "out/data.json" (count_dumps (VList [question_1]))].
Proof.
  eexists.
  match goal with
  | |- ?run = (Ok tt, ?w') /\ _ =>
      assert (Hsave : run = (Ok tt, w')) by (vm_compute; reflexivity)
  end.
  destruct (@save_to_json_removes_nothing count_dumps [question_1] "out/data.json"
              _ _ _ Hsave) as (Hfile & _ & Htrace).
  split; [exact Hsave|]. split.
  - apply Hfile. reflexivity.
  - apply Htrace. reflexivity.
Defined.

Lemma failed_question_fetch_ends_the_run_witness :
  exists w',
    collect_questions_with_answers failing_remote count_dumps live_collector
      "nlp" 1 None None 0 10 live_world = (Ok [], w') /\
    fs w' = fs live_world.
Proof.
  destruct (@failed_question_fetch_ends_the_run failing_remote count_dumps
              live_collector eq_refl "nlp" 1 None None 0 10 live_world live_api
              "throttle_violation" eq_refl ltac:(discriminate) eq_refl)
    as (w' & Hrun & _ & Hfs).
  exists w'. split; assumption.
Defined.


Lemma one_sleep_and_one_request_per_question_witness :
  exists res w',
    collect_questions_with_answers flaky_remote count_dumps live_collector
      "nlp" 1 None None 0 10 live_world = (Ok res, w') /\
    List.length (network (trace w')) = 5%nat.
Proof.
  eexists. eexists.
  match goal with
  | |- ?run = (Ok ?res, ?w') /\ _ =>
      assert (Hrun : run = (Ok res, w')) by (vm_compute; reflexivity)
  end.
  split; [exact Hrun|].
  destruct (@one_sleep_and_one_request_per_question flaky_remote count_dumps
              live_collector eq_refl "nlp" 1 None None 0 10 live_world
              [question_1; question_2]
              (emit (EvFetch (questions_request live_api "nlp" 1 None None 0 10))
                 live_world)
              live_api _ _ ltac:(vm_compute; reflexivity) eq_refl Hrun)
    as (_ & _ & Hlen).
  rewrite Hlen. reflexivity.
Defined.

Lemma pipeline_keeps_order_and_fields_witness :
  exists res w' questions w1,
    collect_questions_with_answers flaky_remote count_dumps live_collector
      "nlp" 1 None None 0 10 live_world = (Ok res, w') /\
    collect_questions flaky_remote live_collector "nlp" 1 None None 0 10 live_world
    = (Ok questions, w1) /\
    List.length questions = List.length res.
Proof.
  eexists. eexists.
  match goal with
  | |- exists questions w1, ?run = (Ok ?res, ?w') /\ _ =>
      assert (Hrun : run = (Ok res, w')) by (vm_compute; reflexivity)
  end.
  destruct (@pipeline_keeps_order_and_fields flaky_remote count_dumps live_collector
              "nlp" 1 None None 0 10 live_world _ _ Hrun)
    as (questions & w1 & Hq & HF).
  exists questions, w1. split; [exact Hrun|]. split; [exact Hq|].
  exact (Forall2_length HF).
Defined.

Lemma missing_question_id_aborts_the_run_witness :
  exists w',
    collect_questions_with_answers malformed_remote count_dumps live_collector
      "nlp" 1 None None 0 10 live_world = (Raise (KeyError "question_id"), w').
Proof.
  apply (@missing_question_id_aborts_the_run malformed_remote count_dumps
           live_collector eq_refl eq_refl "nlp" 1 None None 0 10 live_world
           [question_1] [] [("title", VStr "Test Question 3")]
           (emit (EvFetch (questions_request live_api "nlp" 1 None None 0 10))
              live_world)
           live_api).
  - vm_compute. reflexivity.
  - reflexivity.
  - repeat constructor. eexists. eexists. split; reflexivity.
  - reflexivity.
  - repeat split.
Defined.

Lemma mock_nonpositive_count_is_empty_witness :
  collect_questions_with_answers no_remote count_dumps mock_collector
    "nlp" 1 None None 0 0 mock_world = (Ok [], mock_world).
Proof.
  apply (@mock_nonpositive_count_is_empty no_remote count_dumps mock_collector
           "nlp" 1 None None 0 0 mock_world).
  - reflexivity.
  - lia.
Defined.

Lemma max_pages_of_the_constructor_is_never_used_witness :
  bind (__init__ default_client None "stackoverflow" 10 5 30 false)
    (fun collector =>
       collect_questions_with_answers flaky_remote count_dumps collector
         "nlp" 1 None None 0 10) mock_world
  = bind (__init__ default_client None "stackoverflow" 10 7 30 false)
      (fun collector =>
         collect_questions_with_answers flaky_remote count_dumps collector
           "nlp" 1 None None 0 10) mock_world.
Proof.
  apply (@max_pages_of_the_constructor_is_never_used flaky_remote default_client
           count_dumps None "stackoverflow" 10 5 7 30 false
           "nlp" 1 None None 0 10 mock_world).
  discriminate.
Defined.

Lemma main_survives_a_failing_client_witness :
  main failing_remote no_client count_dumps no_environ decimal_int mock_world
  = (Ok tt, mock_world).
Proof.
  apply (@main_survives_a_failing_client failing_remote no_client count_dumps
           no_environ decimal_int mock_world (StackAPIError "offline")).
  - reflexivity.
  - exact no_environ_readable.
  - intro key. reflexivity.
Defined.

Lemma main_mock_run_witness :
  exists res w',
    main no_remote no_client count_dumps mock_environ decimal_int mock_world
    = (Ok tt, w') /\
    Z.of_nat (List.length res) = 3 /\
    read_file (files (fs w')) output_file = Some (count_dumps (VList res)).
Proof.
  destruct (@main_mock_run no_remote no_client count_dumps mock_environ decimal_int
              mock_world eq_refl mock_environ_readable eq_refl fs_ready_empty eq_refl)
    as (res & w' & Hrun & Hlen & _ & _ & _ & Hread).
  exists res, w'. split; [exact Hrun|]. split; [exact Hlen | exact Hread].
Defined.

Lemma checkpoint_files_hold_the_prefixes_witness :
  exists res w',
    collect_questions_with_answers no_remote count_dumps mock_collector
      "nlp" 1 None None 0 12 mock_world = (Ok res, w') /\
    read_file (files (fs w')) (temp_path 10)
    = Some (count_dumps (VList (firstn 10 res))) /\
    read_file (files (fs w')) (temp_path 12) = Some (count_dumps (VList res)).
Proof.
  eexists. eexists.
  match goal with
  | |- ?run = (Ok ?res, ?w') /\ _ =>
      assert (Hrun : run = (Ok res, w')) by (vm_compute; reflexivity)
  end.
  split; [exact Hrun|]. split.
  - apply (@checkpoint_files_hold_the_prefixes no_remote count_dumps mock_collector
             "nlp" 1 None None 0 12 mock_world _ _ Hrun 10).
    + simpl. lia.
    + left. reflexivity.
  - apply (@checkpoint_files_hold_the_prefixes no_remote count_dumps mock_collector
             "nlp" 1 None None 0 12 mock_world _ _ Hrun 12).
    + simpl. lia.
    + right. reflexivity.
Defined.

Lemma mock_records_carry_their_own_answers_witness :
  exists res w',
    collect_questions_with_answers no_remote count_dumps mock_collector
      "nlp" 1 None None 0 2 mock_world = (Ok res, w') /\
    Forall2 (fun i r => field r "question_id" = Some (VInt i)) [1; 2] res.
Proof.
  destruct (@mock_records_carry_their_own_answers no_remote count_dumps
              mock_collector eq_refl "nlp" 1 None None 0 2 mock_world fs_ready_empty)
    as (res & w' & Hrun & HF).
  exists res, w'. split; [exact Hrun|].
  apply Forall2_impl with (2 := HF). intros i r [Hid _]. exact Hid.
Defined.

Lemma main_leaves_no_file_when_the_api_is_down_witness :
  exists w',
    main failing_remote default_client count_dumps no_environ decimal_int mock_world
    = (Ok tt, w') /\
    fs w' = empty_fs.
Proof.
  destruct (@main_leaves_no_file_when_the_api_is_down failing_remote default_client
              count_dumps no_environ decimal_int mock_world "throttle_violation"
              eq_refl no_environ_readable
              (fun key => ex_intro _ _ eq_refl) ltac:(discriminate)
              (fun _ _ => eq_refl))
    as (w' & Hrun & Hfs & _).
  exists w'. split; [exact Hrun | exact Hfs].
Defined.
